(** * PDF QR-code extractor: a shallow embedding of [main.py]

    The functions of [main.py] that carry the decision logic
    ([sanitize_filename], [enhance_image], [preprocess_image],
    [read_qr_codes_from_image], [extract_images_from_pdf], [process_pdf],
    [save_report_to_csv], [process_pdfs_in_folder], [extract_pdfs_from_zip]
    and the [process] method of the window) are embedded as Rocq
    functions.  Calls into PyMuPDF, PIL, OpenCV, pyzbar and the operating
    system are answered by an environment record; every call may raise, and
    effects (files written, directories made, log lines, the order of the
    calls) are threaded through an explicit world.

    Python [str] values are modelled as [string] (a sequence of 8-bit
    characters); every character the code inspects is ASCII. *)

From Stdlib Require Import String Ascii DecimalString DecimalFacts DecimalNat.
From stdpp Require Import base option list gmap strings sorting.


(** ** Text helpers: the pieces of [str], [re] and [os.path] the code uses *)

Module Text.

Definition chars (s : string) : list ascii := list_ascii_of_string s.

(** The character class of the pattern given to [re.sub]: backslash, slash,
    colon, double quote (code 34), star, question mark, angle brackets and
    the vertical bar. *)
Definition forbidden_chars : list ascii :=
  [ "\"%char; "/"%char; ":"%char; ascii_of_nat 34; "*"%char; "?"%char;
    "<"%char; ">"%char; "|"%char ].

Definition forbidden (c : ascii) : bool :=
  existsb (Ascii.eqb c) forbidden_chars.

(** [re.sub(r'[...]+', '_', s)]: scanning left to right, every maximal run
    of class characters is replaced by one underscore.  [in_run] tells that
    the previous character belonged to a run already replaced. *)
Fixpoint re_sub_runs (in_run : bool) (s : string) : string :=
  match s with
  | EmptyString => EmptyString
  | String c rest =>
      if forbidden c
      then (if in_run then re_sub_runs true rest
            else String "_" (re_sub_runs true rest))
      else String c (re_sub_runs false rest)
  end.

(** [str.split(sep)] for a one-character separator. *)
Fixpoint split (sep : ascii) (s : string) : list string :=
  match s with
  | EmptyString => [EmptyString]
  | String c rest =>
      if Ascii.eqb c sep then EmptyString :: split sep rest
      else match split sep rest with
           | piece :: pieces => String c piece :: pieces
           | [] => [String c EmptyString]
           end
  end.

(** [str.endswith(suffix)]. *)
Definition endswith (s suffix : string) : bool :=
  (String.length suffix <=? String.length s)%nat &&
  String.eqb
    (substring (String.length s - String.length suffix)
               (String.length suffix) s)
    suffix.

(** [s.rfind('/') + 1] followed by the slice [s[i:]], as one scan:
    [posixpath.basename]. *)
Fixpoint basename_from (s current : string) : string :=
  match s with
  | EmptyString => current
  | String c rest =>
      if Ascii.eqb c "/" then basename_from rest rest
      else basename_from rest current
  end.

Definition os_path_basename (p : string) : string := basename_from p p.

(** [posixpath.join(a, b)] for two components. *)
Definition os_path_join (a b : string) : string :=
  if String.prefix "/" b then b
  else if (String.eqb a "") || endswith a "/" then a +:+ b
  else a +:+ "/" +:+ b.

(** [str(n)] for a non-negative [int], as used inside the f-string. *)
Definition str_of_nat (n : nat) : string :=
  NilEmpty.string_of_uint (Nat.to_uint n).

End Text.

(** [sanitize_filename(filename)] *)
Definition sanitize_filename (filename : string) : string :=
  Text.re_sub_runs false filename.

(** ** Exceptions, events and the world *)

(** A Python exception caught by [except Exception]: whether it is an
    [IOError] (an [OSError]), and its text as an f-string prints it. *)
Record exn := Exn { is_io_error : bool; exn_msg : string }.

Inductive result (A : Type) : Type :=
| Ok (a : A)
| Raise (e : exn).
Arguments Ok {A} a.
Arguments Raise {A} e.

Inductive Level := INFO | WARNING | ERROR.

(** One row of a report: the dictionary with the keys ["PDF Name"],
    ["Page Number"], ["QR Code Data"] and ["QR Image Path"].  The page number
    is an [int] or the empty string, here [Some n] or [None]. *)
Record QRRecord := {
  pdf_name : string;
  page_number : option nat;
  qr_code_data : string;
  qr_image_path : string
}.

(** The dictionary [process_pdf] returns. *)
Record Report := {
  report_pdf_name : string;
  qr_codes_found : nat;
  qr_code_details : list QRRecord
}.

(** ** A state-and-exception monad *)

Definition ST (S A : Type) : Type := S -> result A * S.

Definition ret {S A} (a : A) : ST S A := fun s => (Ok a, s).

Definition raise {S A} (e : exn) : ST S A := fun s => (Raise e, s).

Definition bind {S A B} (m : ST S A) (k : A -> ST S B) : ST S B :=
  fun s =>
    match m s with
    | (Ok a, s') => k a s'
    | (Raise e, s') => (Raise e, s')
    end.

(** [try: body except Exception as e: handler]; the state reached when the
    exception was raised is the one the handler starts from. *)
Definition try_except {S A} (body : ST S A) (handler : exn -> ST S A)
  : ST S A :=
  fun s =>
    match body s with
    | (Ok a, s') => (Ok a, s')
    | (Raise e, s') => handler e s'
    end.

Notation "'let*' x ':=' c 'in' k" := (bind c (fun x => k))
  (at level 10, x name, c at level 100, k at level 200).

Notation "'let*' ' p ':=' c 'in' k" := (bind c (fun p => k))
  (at level 10, p pattern, c at level 100, k at level 200).

(** A function body with a mutable local [L] runs on the world [W] paired
    with that local; [call] runs a function of the world from inside it. *)
Definition call {W L A} (m : ST W A) : ST (W * L) A :=
  fun s => match m (fst s) with (r, w') => (r, (w', snd s)) end.

Definition pure {S A} (r : result A) : ST S A := fun s => (r, s).

(** Sequencing of calls that only return or raise. *)
Definition rbind {A B} (r : result A) (k : A -> result B) : result B :=
  match r with
  | Ok a => k a
  | Raise e => Raise e
  end.

Notation "'let?' x ':=' c 'in' k" := (rbind c (fun x => k))
  (at level 10, x name, c at level 100, k at level 200).

Definition get_local {W L} : ST (W * L) L := fun s => (Ok (snd s), s).

(** [local.append(x)] *)
Definition append {W X} (x : X) : ST (W * list X) unit :=
  fun s => (Ok tt, (fst s, snd s ++ [x])).

(** [local.extend(xs)] *)
Definition extend {W X} (xs : list X) : ST (W * list X) unit :=
  fun s => (Ok tt, (fst s, snd s ++ xs)).

Definition with_local {W L A} (init : L) (body : ST (W * L) A) : ST W A :=
  fun w => match body (w, init) with (r, s') => (r, fst s') end.

(** [for x in xs: f x] *)
Fixpoint for_each {S X} (xs : list X) (f : X -> ST S unit) : ST S unit :=
  match xs with
  | [] => ret tt
  | x :: rest => let* _ := f x in for_each rest f
  end.

(** [enumerate(xs)] *)
Definition enumerate {X} (xs : list X) : list (nat * X) :=
  zip (seq 0 (length xs)) xs.

(** [if not xs: body] *)
Definition if_not {S X} (xs : list X) (body : ST S unit) : ST S unit :=
  match xs with
  | [] => body
  | _ :: _ => ret tt
  end.

(** [xs[0]] *)
Definition index0 {X} (xs : list X) : result X :=
  match xs with
  | x :: _ => Ok x
  | [] => Raise (Exn false "list index out of range")
  end.

Section Program.

(** PIL images, numpy arrays, PyMuPDF documents and pages are opaque. *)
Context {Image Array Document Page : Type}.

(** What the program does to the outside, in the order it does it. *)
Inductive Event :=
| CallListdir (folder : string)
| CallMakedirs (dir : string)
| CallFitzOpen (path : string)
| CallDecode (img : Image)
| CallEnhance (img : Image)
| CallPreprocess (img : Image)
| CallSave (path : string) (img : Image) (failure : option exn)
| CallOpenWrite (path : string)
| Logged (lvl : Level) (msg : string).

(** The calls made so far, and what the program has stored in files that
    still hold it: the image behind each path it saved one to, and the rows
    of each table it wrote. *)
Record World := {
  trace : list Event;
  saved_images : gmap string Image;
  written_csv : gmap string (list (list string))
}.

Definition emit (ev : Event) (w : World) : World :=
  {| trace := trace w ++ [ev];
     saved_images := saved_images w;
     written_csv := written_csv w |}.

Definition store_image (path : string) (img : Image) (w : World) : World :=
  {| trace := trace w;
     saved_images := <[path := img]> (saved_images w);
     written_csv := written_csv w |}.

Definition store_csv (path : string) (rows : list (list string)) (w : World)
  : World :=
  {| trace := trace w;
     saved_images := saved_images w;
     written_csv := <[path := rows]> (written_csv w) |}.

(** The answers of the libraries and of the operating system.  Image
    operations and the decoder are functions of their arguments; file-system
    calls may depend on everything that happened before. *)
Record Env := {
  (* pyzbar: the [data] bytes of the decoded objects *)
  pyzbar_decode : Image -> result (list string);
  (* [bytes.decode('utf-8')] *)
  bytes_decode_utf8 : string -> result string;
  (* PIL *)
  pil_convert : Image -> string -> result Image;
  pil_contrast_enhance : Image -> nat -> result Image;
  pil_sharpness_enhance : Image -> nat -> result Image;
  pil_point : Image -> (nat -> nat) -> string -> result Image;
  pil_fromarray : Array -> result Image;
  pil_open : string -> result Image;
  pil_save_error : World -> string -> Image -> option exn;
  (* numpy and OpenCV *)
  np_array : Image -> result Array;
  cv2_cvtColor : Array -> string -> result Array;
  cv2_resize : Array -> nat * nat -> nat * nat -> nat * nat -> result Array;
  cv2_GaussianBlur : Array -> nat * nat -> nat -> result Array;
  cv2_adaptiveThreshold :
    Array -> nat -> string -> string -> nat -> nat -> result Array;
  (* PyMuPDF *)
  fitz_open : World -> string -> result Document;
  fitz_len : Document -> nat;
  fitz_load_page : Document -> nat -> result Page;
  fitz_get_images : Page -> result (list nat);
  fitz_extract_image : Document -> nat -> result string;
  (* os and the built-in open *)
  os_listdir : World -> string -> result (list string);
  os_makedirs_error : World -> string -> option exn;
  open_write_error : World -> string -> option exn;
  (* [csv.DictWriter.writerow] on the file at a path, for the cells of a row *)
  csv_writerow_error : World -> string -> list string -> option exn
}.

(** A function of the program runs on the world; its body, when it has a
    mutable local [L], on the world and that local. *)
Definition M : Type -> Type := ST World.
Definition Body (L : Type) : Type -> Type := ST (World * L).

Variable E : Env.

(** ** External calls *)

Definition logging (lvl : Level) (msg : string) : M unit :=
  fun w => (Ok tt, emit (Logged lvl msg) w).

Definition decode (image : Image) : M (list string) :=
  fun w => (pyzbar_decode E image, emit (CallDecode image) w).

(** [image.save(path)]: the file holds the image when the call returns; a
    call that raises leaves the stored images as they were. *)
Definition image_save (image : Image) (path : string) : M unit :=
  fun w =>
    match pil_save_error E w path image with
    | None => (Ok tt, store_image path image (emit (CallSave path image None) w))
    | Some e => (Raise e, emit (CallSave path image (Some e)) w)
    end.

(** [os.makedirs(dir, exist_ok=True)] *)
Definition os_makedirs (dir : string) : M unit :=
  fun w =>
    match os_makedirs_error E w dir with
    | None => (Ok tt, emit (CallMakedirs dir) w)
    | Some e => (Raise e, emit (CallMakedirs dir) w)
    end.

Definition listdir (folder : string) : M (list string) :=
  fun w => (os_listdir E w folder, emit (CallListdir folder) w).

Definition open_pdf (path : string) : M Document :=
  fun w => (fitz_open E w path, emit (CallFitzOpen path) w).

(** ** The image transforms *)

(** [enhance_image(image)] *)
Definition enhance_image (image : Image) : result Image :=
  (* Convert to grayscale *)
  let? gray_image := pil_convert E image "L" in
  (* Increase contrast *)
  let? enhanced_image := pil_contrast_enhance E gray_image 2 in
  (* Sharpen the image *)
  let? sharp_image := pil_sharpness_enhance E enhanced_image 2 in
  (* Binarize the image *)
  pil_point E sharp_image (fun x => if Nat.ltb x 128 then 0 else 255) "1".

(** [preprocess_image(image)]; the scale factor 1.5 is the fraction 3/2. *)
Definition preprocess_image (image : Image) : result Image :=
  let? rgb := np_array E image in
  let? image_cv := cv2_cvtColor E rgb "COLOR_RGB2BGR" in
  let? image_cv := cv2_resize E image_cv (0, 0) (3, 2) (3, 2) in
  let? gray := cv2_cvtColor E image_cv "COLOR_BGR2GRAY" in
  let? blurred := cv2_GaussianBlur E gray (5, 5) 0 in
  let? adaptive_thresh :=
    cv2_adaptiveThreshold E blurred 255 "ADAPTIVE_THRESH_GAUSSIAN_C"
                          "THRESH_BINARY" 11 2 in
  pil_fromarray E adaptive_thresh.

(** Entering one of the two transforms from a function body. *)
Definition invoke {L A} (ev : Event) (r : result A) : Body L A :=
  fun s => (r, (emit ev (fst s), snd s)).

(** ** The detection orchestrator *)

(** [read_qr_codes_from_image(image)]; the local is [qr_data_list]. *)
Definition read_qr_codes_from_image (image : Image) : M (list string) :=
  with_local []
    (let* _ :=
       try_except
         ((* Try reading the QR codes from the original image *)
          let* decoded_objects := call (decode image) in
          let* _ :=
            for_each decoded_objects (fun obj =>
              let* text := pure (bytes_decode_utf8 E obj) in append text) in
          (* If no QR codes found, try with enhanced image *)
          let* qr_data_list := get_local in
          let* _ :=
            if_not qr_data_list
              (let* enhanced_image :=
                 invoke (CallEnhance image) (enhance_image image) in
               let* decoded_objects := call (decode enhanced_image) in
               for_each decoded_objects (fun obj =>
                 let* text := pure (bytes_decode_utf8 E obj) in
                 append text)) in
          (* If still no QR codes found, try with preprocessed image *)
          let* qr_data_list := get_local in
          if_not qr_data_list
            (let* preprocessed_image :=
               invoke (CallPreprocess image) (preprocess_image image) in
             let* decoded_objects := call (decode preprocessed_image) in
             for_each decoded_objects (fun obj =>
               let* text := pure (bytes_decode_utf8 E obj) in
               append text)))
         (fun e =>
            call (logging ERROR
                    ("Error decoding QR code from image: " +:+ exn_msg e))) in
     get_local).

(** ** The image source *)

(** [extract_images_from_pdf(pdf_path)]; the local is [images]. *)
Definition extract_images_from_pdf (pdf_path : string)
  : M (list (Image * nat)) :=
  with_local []
    (let* pdf_document := call (open_pdf pdf_path) in
     let* _ :=
       for_each (seq 0 (fitz_len E pdf_document)) (fun page_num =>
         let* page := pure (fitz_load_page E pdf_document page_num) in
         let* image_list := pure (fitz_get_images E page) in
         for_each (enumerate image_list) (fun '(img_index, xref) =>
           try_except
             (let* image_bytes :=
                pure (fitz_extract_image E pdf_document xref) in
              let* image := pure (pil_open E image_bytes) in
              append (image, page_num + 1))
             (fun e =>
                if is_io_error e
                then call (logging WARNING
                       ("Skipping invalid image on page "
                        +:+ Text.str_of_nat (page_num + 1) +:+ ", image "
                        +:+ Text.str_of_nat (img_index + 1)
                        +:+ " due to error: " +:+ exn_msg e))
                else call (logging ERROR
                       ("Unsupported image format on page "
                        +:+ Text.str_of_nat (page_num + 1) +:+ ", image "
                        +:+ Text.str_of_nat (img_index + 1) +:+ ": "
                        +:+ exn_msg e))))) in
     get_local).

(** ** The document processor *)

Definition no_qr_record (pdf_filename : string) : QRRecord :=
  {| pdf_name := pdf_filename;
     page_number := None;
     qr_code_data := "NO QR code found";
     qr_image_path := "" |}.

(** The f-string naming a saved image. *)
Definition image_filename_of (pdf_number : string) (page_num qr_index : nat)
  (qr_code_id : string) : string :=
  pdf_number +:+ "page" +:+ Text.str_of_nat page_num +:+ "qr"
  +:+ Text.str_of_nat (qr_index + 1) +:+ "id" +:+ qr_code_id +:+ ".png".

(** The body of [for qr_index, qr_code_data in enumerate(qr_codes)]; the
    local is [qr_code_data_list].  The list [qr_image_paths] of the source is
    only ever appended to and never read, and is left out. *)
Definition save_one (pdf_filename pdf_number pdf_save_dir : string)
  (image : Image) (page_num : nat) (code : nat * string)
  : Body (list QRRecord) unit :=
  let '(qr_index, qr_code_data) := code in
  (* Sanitize QR code data to create a valid filename *)
  let qr_code_id := sanitize_filename qr_code_data in
  (* Save QR code image with PDF number, page number, and QR code ID *)
  let image_filename :=
    image_filename_of pdf_number page_num qr_index qr_code_id in
  let image_path := Text.os_path_join pdf_save_dir image_filename in
  try_except
    (let* _ := call (image_save image image_path) in
     (* Append QR code data to list *)
     append {| pdf_name := pdf_filename;
               page_number := Some page_num;
               qr_code_data := qr_code_data;
               qr_image_path := image_path |})
    (fun e =>
       call (logging ERROR
               ("Error saving image " +:+ image_path +:+ ": " +:+ exn_msg e))).

(** The body of [for image, page_num in images]. *)
Definition scan_image (pdf_filename pdf_number pdf_save_dir : string)
  (entry : Image * nat) : Body (list QRRecord) unit :=
  let '(image, page_num) := entry in
  let* qr_codes := call (read_qr_codes_from_image image) in
  match qr_codes with
  | [] => ret tt
  | _ :: _ =>
      for_each (enumerate qr_codes)
               (save_one pdf_filename pdf_number pdf_save_dir image page_num)
  end.

(** [process_pdf(pdf_path, image_folder)] *)
Definition process_pdf (pdf_path image_folder : string) : M Report :=
  with_local []
    (let pdf_filename := Text.os_path_basename pdf_path in
     (* Extract PDF number from filename *)
     let* pdf_number := pure (index0 (Text.split "." pdf_filename)) in
     let pdf_save_dir := Text.os_path_join image_folder pdf_number in
     let* _ := call (os_makedirs pdf_save_dir) in
     let* images := call (extract_images_from_pdf pdf_path) in
     let* _ :=
       for_each images (scan_image pdf_filename pdf_number pdf_save_dir) in
     (* If no QR codes found, add a record indicating "NO QR code found" *)
     let* qr_code_data_list := get_local in
     let* _ := if_not qr_code_data_list (append (no_qr_record pdf_filename)) in
     (* Prepare report *)
     let* qr_code_data_list := get_local in
     let* first := pure (index0 qr_code_data_list) in
     ret {| report_pdf_name := pdf_filename;
            qr_codes_found :=
              if negb (String.eqb (qr_code_data first) "NO QR code found")
              then length qr_code_data_list else 0;
            qr_code_details := qr_code_data_list |}).

(** ** Reports *)

Definition csv_header : list string :=
  ["PDF Name"; "Page Number"; "QR Code Data"; "QR Image Path"].

(** The cells [csv.DictWriter.writerow] writes for one record (quoting and
    line endings are the [csv] module's and are not modelled). *)
Definition csv_row (r : QRRecord) : list string :=
  [ pdf_name r;
    match page_number r with Some n => Text.str_of_nat n | None => "" end;
    qr_code_data r;
    qr_image_path r ].

(** [open(path, mode='w', ...)]: when the call returns the file exists and
    is empty, whatever it held. *)
Definition open_write (path : string) : M unit :=
  fun w =>
    match open_write_error E w path with
    | None => (Ok tt, store_csv path [] (emit (CallOpenWrite path) w))
    | Some e => (Raise e, emit (CallOpenWrite path) w)
    end.

(** One more row below the rows the file at [path] holds. *)
Definition add_row (path : string) (row : list string) (w : World) : World :=
  store_csv path (default [] (written_csv w !! path) ++ [row]) w.

(** [writer.writeheader()]: the header is a constant line of ASCII text,
    written to the file just opened. *)
Definition writeheader (path : string) : M unit :=
  fun w => (Ok tt, add_row path csv_header w).

(** [writer.writerow(record)]: a call that raises (a text that cannot be
    encoded as UTF-8, a device that is full) adds nothing of its row. *)
Definition writerow (path : string) (record : QRRecord) : M unit :=
  fun w =>
    match csv_writerow_error E w path (csv_row record) with
    | None => (Ok tt, add_row path (csv_row record) w)
    | Some e => (Raise e, w)
    end.

(** [with open(path, mode='w', ...) as file:] header, then one row per
    record.  When a row raises, the [with] statement closes the file and
    the exception goes on: the file keeps the header and the rows written
    before. *)
Definition write_csv (path : string) (records : list QRRecord) : M unit :=
  let* _ := open_write path in
  let* _ := writeheader path in
  for_each records (writerow path).

(** [save_report_to_csv(report, csv_path)] *)
Definition save_report_to_csv (report : Report) (csv_path : string) : M unit :=
  write_csv csv_path (qr_code_details report).

(** ** The batch processor *)

Definition error_record (pdf_file : string) : QRRecord :=
  {| pdf_name := pdf_file;
     page_number := None;
     qr_code_data := "Error processing PDF";
     qr_image_path := "" |}.

(** The list comprehension selecting the documents of a folder. *)
Definition select_pdf_files (entries : list string) : list string :=
  List.filter (fun f => Text.endswith f ".pdf") entries.

(** The body of the [for pdf_file in pdf_files] loop; the local is
    [all_qr_code_data_list]. *)
Definition process_one (folder_path image_folder pdf_file : string)
  : Body (list QRRecord) unit :=
  let pdf_path := Text.os_path_join folder_path pdf_file in
  let* _ := call (logging INFO ("Processing " +:+ pdf_path)) in
  try_except
    (let* report := call (process_pdf pdf_path image_folder) in
     let* _ := extend (qr_code_details report) in
     call (logging INFO
             ("Found " +:+ Text.str_of_nat (qr_codes_found report)
              +:+ " QR codes in " +:+ pdf_file)))
    (fun e =>
       let* _ :=
         call (logging ERROR
                 ("Failed to process " +:+ pdf_path +:+ ": " +:+ exn_msg e)) in
       (* If an error occurs, log it in the report *)
       append (error_record pdf_file)).

(** [process_pdfs_in_folder(folder_path, image_folder, report_file)] *)
Definition process_pdfs_in_folder
  (folder_path image_folder report_file : string) : M unit :=
  with_local []
    (let* entries := call (listdir folder_path) in
     let pdf_files := select_pdf_files entries in
     let* _ :=
       for_each pdf_files (process_one folder_path image_folder) in
     (* Generate consolidated report *)
     let* all_qr_code_data_list := get_local in
     let* _ := call (write_csv report_file all_qr_code_data_list) in
     call (logging INFO ("Report generated at " +:+ report_file))).

End Program.

(** ** A concrete environment for examples

    Images are numbered.  Photometric enhancement of image [n] gives image
    [n + 100] and denoise+threshold gives [n + 200]; a document is the list
    of its pages, a page the list of the images on it. *)

Module Demo.

Record Scenario := {
  qr_on : nat -> result (list string);
  enhance_raises : bool;
  preprocess_raises : bool;
  unwritable : string -> bool;
  documents : string -> result (list (list nat));
  folder_entries : list string
}.

Definition boom (msg : string) : exn := Exn false msg.

Definition env (sc : Scenario)
  : @Env nat nat (list (list nat)) (list nat) :=
  {| pyzbar_decode := qr_on sc;
     bytes_decode_utf8 := fun b => Ok b;
     pil_convert := fun img _ =>
       if enhance_raises sc then Raise (boom "cannot convert") else Ok img;
     pil_contrast_enhance := fun img _ => Ok img;
     pil_sharpness_enhance := fun img _ => Ok img;
     pil_point := fun img _ _ => Ok (img + 100);
     pil_fromarray := fun a => Ok (a + 200);
     pil_open := fun b => Ok (String.length b);
     pil_save_error := fun _ path _ =>
       if unwritable sc path then Some (Exn true "cannot write") else None;
     np_array := fun img =>
       if preprocess_raises sc then Raise (boom "bad array") else Ok img;
     cv2_cvtColor := fun a _ => Ok a;
     cv2_resize := fun a _ _ _ => Ok a;
     cv2_GaussianBlur := fun a _ _ => Ok a;
     cv2_adaptiveThreshold := fun a _ _ _ _ _ => Ok a;
     fitz_open := fun _ path => documents sc path;
     fitz_len := fun d => length d;
     fitz_load_page := fun d n =>
       match d !! n with
       | Some p => Ok p
       | None => Raise (boom "page not in document")
       end;
     fitz_get_images := fun p => Ok p;
     fitz_extract_image := fun _ xref =>
       Ok (string_of_list_ascii (replicate xref "x"%char));
     os_listdir := fun _ _ => Ok (folder_entries sc);
     os_makedirs_error := fun _ _ => None;
     open_write_error := fun _ _ => None;
     csv_writerow_error := fun _ _ _ => None |}.

Definition world0 : @World nat :=
  {| trace := []; saved_images := ∅; written_csv := ∅ |}.

(** One document [d.pdf] with a single image, number 1, on its only page. *)
Definition one_image (qr : nat -> result (list string)) : Scenario :=
  {| qr_on := qr;
     enhance_raises := false;
     preprocess_raises := false;
     unwritable := fun _ => false;
     documents := fun _ => Ok [[1]];
     folder_entries := ["d.pdf"] |}.

(** Image 1 decodes as it is. *)
Definition raw_hit : Scenario :=
  one_image (fun n => if Nat.eqb n 1 then Ok ["RAW"] else Ok ["other"]).

(** Image 1 decodes only after photometric enhancement. *)
Definition enhanced_hit : Scenario :=
  one_image (fun n => if Nat.eqb n 101 then Ok ["ENH"] else Ok []).

(** Image 1 decodes only after denoise+threshold. *)
Definition threshold_hit : Scenario :=
  one_image (fun n => if Nat.eqb n 201 then Ok ["A"] else Ok []).

(** As [threshold_hit], but photometric enhancement raises. *)
Definition enhance_broken : Scenario :=
  {| qr_on := qr_on threshold_hit;
     enhance_raises := true;
     preprocess_raises := false;
     unwritable := fun _ => false;
     documents := documents threshold_hit;
     folder_entries := folder_entries threshold_hit |}.

(** As [threshold_hit], but denoise+threshold raises. *)
Definition preprocess_broken : Scenario :=
  {| qr_on := fun _ => Ok [];
     enhance_raises := false;
     preprocess_raises := true;
     unwritable := fun _ => false;
     documents := documents threshold_hit;
     folder_entries := folder_entries threshold_hit |}.

(** Image 1 carries a QR code whose text is the none-found sentinel. *)
Definition sentinel_payload : Scenario :=
  one_image (fun n => if Nat.eqb n 1 then Ok ["NO QR code found"] else Ok []).

(** Image 1 carries two QR codes; the file for the first cannot be
    written. *)
Definition first_unwritable : Scenario :=
  {| qr_on := fun n => if Nat.eqb n 1 then Ok ["ABC"; "XYZ"] else Ok [];
     enhance_raises := false;
     preprocess_raises := false;
     unwritable := String.eqb "out/d/dpage1qr1idABC.png";
     documents := fun _ => Ok [[1]];
     folder_entries := ["d.pdf"] |}.

(** A folder with [A.pdf] (one image with two QR codes), [B.pdf] (one image
    without any), [C.pdf] (cannot be opened), a text file and a document
    whose extension is in capitals. *)
Definition batch : Scenario :=
  {| qr_on := fun n => if Nat.eqb n 1 then Ok ["ABC"; "XYZ"] else Ok [];
     enhance_raises := false;
     preprocess_raises := false;
     unwritable := fun _ => false;
     documents := fun path =>
       if String.eqb path "in/A.pdf" then Ok [[1]]
       else if String.eqb path "in/B.pdf" then Ok [[2]]
       else Raise (boom "cannot open document");
     folder_entries := ["A.pdf"; "notes.txt"; "B.pdf"; "D.PDF"; "C.pdf"] |}.

End Demo.

(** ** Reference descriptions used in the statements *)

(** The prefix of [s] before the first [sep] (all of [s] when there is
    none): the wording of the document-identifier rule. *)
Fixpoint prefix_before (sep : ascii) (s : string) : string :=
  match s with
  | EmptyString => EmptyString
  | String c rest =>
      if Ascii.eqb c sep then EmptyString
      else String c (prefix_before sep rest)
  end.

Section Reference.

Context {Image Array Document Page : Type}.
Local Abbreviation Env := (@Env Image Array Document Page).
Local Abbreviation World := (@World Image).
Local Abbreviation Event := (@Event Image).

(** The world after some more events, nothing else changed. *)
Definition emits (evs : list Event) (w : World) : World :=
  {| trace := trace w ++ evs;
     saved_images := saved_images w;
     written_csv := written_csv w |}.

(** The texts of the decoded objects up to the first whose bytes are not
    valid UTF-8, and that failure if there is one. *)
Fixpoint decoded_texts (E : Env) (objs : list string)
  : list string * option exn :=
  match objs with
  | [] => ([], None)
  | obj :: rest =>
      match bytes_decode_utf8 E obj with
      | Ok text =>
          (text :: fst (decoded_texts E rest), snd (decoded_texts E rest))
      | Raise e => ([], Some e)
      end
  end.

(** One decoding attempt on a rendering of the image: the payloads it adds
    and the exception that ended it, if any. *)
Definition attempt (E : Env) (variant : Image) : list string * option exn :=
  match pyzbar_decode E variant with
  | Ok objs => decoded_texts E objs
  | Raise e => ([], Some e)
  end.

(** The attempt on [variant] completes and yields [payloads]. *)
Definition yields (E : Env) (variant : Image) (payloads : list string)
  : Prop :=
  attempt E variant = (payloads, None).

Definition decoding_error (e : exn) : Event :=
  Logged ERROR ("Error decoding QR code from image: " +:+ exn_msg e).

(** The fallback chain as a decision table: the payloads returned for an
    image and the calls made, in order. *)
Definition orchestrate (E : Env) (image : Image) : list string * list Event :=
  match attempt E image with
  | (qr, Some e) => (qr, [CallDecode image; decoding_error e])
  | ((_ :: _) as qr, None) => (qr, [CallDecode image])
  | ([], None) =>
      match enhance_image E image with
      | Raise e =>
          ([], [CallDecode image; CallEnhance image; decoding_error e])
      | Ok enhanced =>
          match attempt E enhanced with
          | (qr, Some e) =>
              (qr, [CallDecode image; CallEnhance image; CallDecode enhanced;
                    decoding_error e])
          | ((_ :: _) as qr, None) =>
              (qr, [CallDecode image; CallEnhance image; CallDecode enhanced])
          | ([], None) =>
              match preprocess_image E image with
              | Raise e =>
                  ([], [CallDecode image; CallEnhance image;
                        CallDecode enhanced; CallPreprocess image;
                        decoding_error e])
              | Ok preprocessed =>
                  match attempt E preprocessed with
                  | (qr, Some e) =>
                      (qr, [CallDecode image; CallEnhance image;
                            CallDecode enhanced; CallPreprocess image;
                            CallDecode preprocessed; decoding_error e])
                  | (qr, None) =>
                      (qr, [CallDecode image; CallEnhance image;
                            CallDecode enhanced; CallPreprocess image;
                            CallDecode preprocessed])
                  end
              end
          end
      end
  end.

End Reference.

Section ReferenceDocument.

Context {Image Array Document Page : Type}.
Local Abbreviation Env := (@Env Image Array Document Page).
Local Abbreviation World := (@World Image).
Local Abbreviation Event := (@Event Image).

(** The calls to [image.save] in a run: path, image handed over, failure. *)
Definition saves_of (evs : list Event)
  : list (string * Image * option exn) :=
  omap (fun ev =>
          match ev with
          | CallSave path img failure => Some (path, img, failure)
          | _ => None
          end) evs.

(** The stored images after the saves of a run, replayed in order. *)
Definition replay (saves : list (string * Image * option exn))
  (stored : gmap string Image) : gmap string Image :=
  foldl (fun m s =>
           match s with
           | (path, img, None) => <[path := img]> m
           | (_, _, Some _) => m
           end) stored saves.

(** Events of scanning the images of a document: no directory, document or
    report is touched. *)
Definition is_scan_event (ev : Event) : Prop :=
  match ev with
  | CallDecode _ | CallEnhance _ | CallPreprocess _
  | CallSave _ _ _ | Logged _ _ => True
  | CallListdir _ | CallMakedirs _ | CallFitzOpen _ | CallOpenWrite _ => False
  end.

(** Every save that raised is followed at once by the line
    "Error saving image <path>: <exception>" in the log. *)
Definition failures_logged (evs : list Event) : Prop :=
  forall before after path img e,
    evs = before ++ CallSave path img (Some e) :: after ->
    exists rest,
      after = Logged ERROR ("Error saving image " +:+ path +:+ ": "
                            +:+ exn_msg e) :: rest.

(** The record written for payload [code.2], the [code.1]-th (from 0) found
    on an image of page [page_num]. *)
Definition record_for (pdf_filename pdf_number pdf_save_dir : string)
  (page_num : nat) (code : nat * string) : QRRecord :=
  {| pdf_name := pdf_filename;
     page_number := Some page_num;
     qr_code_data := snd code;
     qr_image_path :=
       Text.os_path_join pdf_save_dir
         (image_filename_of pdf_number page_num (fst code)
                            (sanitize_filename (snd code))) |}.

(** Every payload of every image, in order, with the image it was found on:
    what the document processor tries to save and to record. *)
Definition candidates (E : Env) (pdf_filename pdf_number pdf_save_dir : string)
  (images : list (Image * nat)) : list (Image * QRRecord) :=
  flat_map (fun entry =>
              map (fun code =>
                     (fst entry,
                      record_for pdf_filename pdf_number pdf_save_dir
                                 (snd entry) code))
                  (enumerate (fst (orchestrate E (fst entry)))))
           images.

(** The candidates whose save did not fail. *)
Definition kept (cands : list (Image * QRRecord))
  (outcomes : list (option exn)) : list QRRecord :=
  omap (fun co =>
          match snd co with
          | None => Some (snd (fst co))
          | Some _ => None
          end) (zip cands outcomes).

(** From world [w] and records [acc], scanning reached [w'] and [acc']:
    one save per candidate, in order, each with the image of the candidate;
    the candidates whose save succeeded were recorded, the others only
    logged. *)
Definition scanned (cands : list (Image * QRRecord))
  (w : World) (acc : list QRRecord) (w' : World) (acc' : list QRRecord)
  : Prop :=
  exists (outcomes : list (option exn)) (evs : list Event),
    length outcomes = length cands /\
    acc' = acc ++ kept cands outcomes /\
    trace w' = trace w ++ evs /\
    saves_of evs
      = zip_with (fun c o => (qr_image_path (snd c), fst c, o)) cands outcomes /\
    Forall is_scan_event evs /\
    saved_images w' = replay (saves_of evs) (saved_images w) /\
    written_csv w' = written_csv w /\
    failures_logged evs.

(** The report built from the records of a document. *)
Definition report_of (pdf_filename : string) (records : list QRRecord)
  : Report :=
  let details :=
    match records with
    | [] => [no_qr_record pdf_filename]
    | _ :: _ => records
    end in
  {| report_pdf_name := pdf_filename;
     qr_codes_found :=
       match details with
       | first :: _ =>
           if negb (String.eqb (qr_code_data first) "NO QR code found")
           then length details else 0
       | [] => 0
       end;
     qr_code_details := details |}.

End ReferenceDocument.

Section ReferenceLogs.

Context {Image : Type}.

Definition is_log (ev : @Event Image) : Prop :=
  match ev with
  | Logged _ _ => True
  | _ => False
  end.

(** Between two states of a body, only log lines were written. *)
Definition only_logged {L : Type} (s s' : @World Image * L) : Prop :=
  exists logs, fst s' = emits logs (fst s) /\ Forall is_log logs.

End ReferenceLogs.

Section ReferenceBatch.

Context {Image Array Document Page : Type}.
Local Abbreviation Env := (@Env Image Array Document Page).
Local Abbreviation World := (@World Image).
Local Abbreviation Event := (@Event Image).

(** The record sequence one document contributes to a batch, and the world
    after it: the records of its report, or the single error record when
    processing it raised. *)
Definition document_records (E : Env) (folder_path image_folder : string)
  (pdf_file : string) (w : World) : list QRRecord * World :=
  let pdf_path := Text.os_path_join folder_path pdf_file in
  match process_pdf E pdf_path image_folder
          (emit (Logged INFO ("Processing " +:+ pdf_path)) w) with
  | (Ok report, w1) =>
      (qr_code_details report,
       emit (Logged INFO
               ("Found " +:+ Text.str_of_nat (qr_codes_found report)
                +:+ " QR codes in " +:+ pdf_file)) w1)
  | (Raise e, w1) =>
      ([error_record pdf_file],
       emit (Logged ERROR
               ("Failed to process " +:+ pdf_path +:+ ": " +:+ exn_msg e)) w1)
  end.

(** The record sequences of the documents of a batch, taken in the order of
    the enumeration, each document starting from the world the previous one
    left. *)
Fixpoint batch_sequences (E : Env) (folder_path image_folder : string)
  (pdf_files : list string) (w : World) : list (list QRRecord) * World :=
  match pdf_files with
  | [] => ([], w)
  | pdf_file :: rest =>
      let d := document_records E folder_path image_folder pdf_file w in
      let b := batch_sequences E folder_path image_folder rest (snd d) in
      (fst d :: fst b, snd b)
  end.

(** The folders listed and the documents opened in a run. *)
Definition listed_of (evs : list Event) : list string :=
  omap (fun ev =>
          match ev with CallListdir folder => Some folder | _ => None end) evs.

Definition opened_of (evs : list Event) : list string :=
  omap (fun ev =>
          match ev with CallFitzOpen path => Some path | _ => None end) evs.

Definition is_sentinel_text (payload : string) : Prop :=
  payload = "NO QR code found" \/ payload = "Error processing PDF".

(** The directories made in a run: [process_pdf] makes one, as the first
    thing it does to the outside. *)
Definition made_of (evs : list Event) : list string :=
  omap (fun ev =>
          match ev with CallMakedirs dir => Some dir | _ => None end) evs.

(** Writing the rows of [records] to the file at [path] from world [w]: the
    records whose rows get written, which are those before the first record
    whose row raises, and that exception if there is one. *)
Fixpoint rows_written (E : Env) (path : string) (w : World)
  (records : list QRRecord) : list QRRecord * option exn :=
  match records with
  | [] => ([], None)
  | r :: rest =>
      match csv_writerow_error E w path (csv_row r) with
      | Some e => ([], Some e)
      | None =>
          let out := rows_written E path (add_row path (csv_row r) w) rest in
          (r :: fst out, snd out)
      end
  end.

(** The world in which the rows are written: the file was opened and holds
    the header. *)
Definition opened_with_header (path : string) (w : World) : World :=
  store_csv path [csv_header] (emit (CallOpenWrite path) w).

End ReferenceBatch.

Section StatedOrchestrator.

Context {Image Array Document Page : Type}.
Local Abbreviation Env := (@Env Image Array Document Page).
Local Abbreviation World := (@World Image).

(** On [image], only the denoise+threshold rendering [preprocessed] yields
    payloads, namely [payloads]. *)
Definition only_threshold_succeeds (E : Env) (image preprocessed : Image)
  (payloads : list string) : Prop :=
  yields E image [] /\
  (exists enhanced,
      enhance_image E image = Ok enhanced /\ yields E enhanced []) /\
  preprocess_image E image = Ok preprocessed /\
  yields E preprocessed payloads /\
  payloads <> [].

(** The failure semantics as the specification words them, for photometric
    enhancement: when it raises, its attempt counts as yielding nothing and
    the denoise+threshold attempt is still made and decides the result. *)
Definition enhancement_failure_is_isolated (E : Env) (image : Image)
  (w : World) : Prop :=
  forall e preprocessed payloads,
    yields E image [] ->
    enhance_image E image = Raise e ->
    preprocess_image E image = Ok preprocessed ->
    yields E preprocessed payloads ->
    fst (read_qr_codes_from_image E image w) = Ok payloads /\
    CallPreprocess image ∈ trace (snd (read_qr_codes_from_image E image w)).

End StatedOrchestrator.

Section StatedDocument.

Context {Image Array Document Page : Type}.
Local Abbreviation Env := (@Env Image Array Document Page).
Local Abbreviation World := (@World Image).

(** The name, identifier and image directory [process_pdf] derives from
    its arguments. *)
Definition filename_of (pdf_path : string) : string :=
  Text.os_path_basename pdf_path.

Definition identifier_of (pdf_path : string) : string :=
  prefix_before "." (filename_of pdf_path).

Definition save_dir_of (pdf_path image_folder : string) : string :=
  Text.os_path_join image_folder (identifier_of pdf_path).

(** What the image source returns to [process_pdf] started in world [w]. *)
Definition images_of (E : Env) (pdf_path image_folder : string) (w : World)
  : result (list (Image * nat)) * World :=
  extract_images_from_pdf E pdf_path
    (emit (CallMakedirs (save_dir_of pdf_path image_folder)) w).

(** The persistence rule as the specification words it: the file saved for a
    record found on an image that only decodes after denoise+threshold holds
    the denoise+threshold rendering. *)
Definition persists_successful_variant (E : Env)
  (pdf_path image_folder : string) (w : World) : Prop :=
  forall report w' images image page preprocessed payloads r,
    process_pdf E pdf_path image_folder w = (Ok report, w') ->
    fst (images_of E pdf_path image_folder w) = Ok images ->
    (image, page) ∈ images ->
    only_threshold_succeeds E image preprocessed payloads ->
    r ∈ qr_code_details report ->
    page_number r = Some page ->
    qr_code_data r ∈ payloads ->
    saved_images w' !! qr_image_path r = Some preprocessed.

(** The path rule as the specification words it: a record has a saved-image
    path exactly when its payload is none of the sentinel texts. *)
Definition path_iff_not_sentinel (r : QRRecord) : Prop :=
  qr_image_path r <> "" <-> ~ is_sentinel_text (qr_code_data r).

Definition paths_mark_real_payloads (E : Env)
  (pdf_path image_folder : string) (w : World) : Prop :=
  forall report w',
    process_pdf E pdf_path image_folder w = (Ok report, w') ->
    Forall path_iff_not_sentinel (qr_code_details report).

(** What does hold of every record: it has a path exactly when it has a page
    number, that is, when it was recorded for a decoded payload; without a
    path its payload is a sentinel text. *)
Definition path_marks_detection (r : QRRecord) : Prop :=
  (qr_image_path r <> "" <-> page_number r <> None) /\
  (qr_image_path r = "" -> is_sentinel_text (qr_code_data r)) /\
  (~ is_sentinel_text (qr_code_data r) -> qr_image_path r <> "").

End StatedDocument.

(** ** Further reference descriptions and sample environments *)

Section ReferenceDetection.

Context {Image : Type}.

(** Events the detection orchestrator may produce: calls of the decoder and
    of the two transforms, and log lines. *)
Definition is_detection_event (ev : @Event Image) : Prop :=
  match ev with
  | CallDecode _ | CallEnhance _ | CallPreprocess _ | Logged _ _ => True
  | _ => False
  end.

End ReferenceDetection.

Section ReferenceChain.

Context {Image Array Document Page : Type}.

(** The five calls of the fallback chain on [image], as far as the
    transforms return: the second decode is on what [enhance_image] returns,
    the third on what [preprocess_image] returns, and nothing is called
    after a transform that raises. *)
Definition fallback_chain (E : @Env Image Array Document Page) (image : Image)
  : list (@Event Image) :=
  [CallDecode image; CallEnhance image]
  ++ match enhance_image E image with
     | Raise _ => []
     | Ok enhanced =>
         [CallDecode enhanced; CallPreprocess image]
         ++ match preprocess_image E image with
            | Raise _ => []
            | Ok preprocessed => [CallDecode preprocessed]
            end
     end.

End ReferenceChain.

(** Sample environments that fail in chosen places, built on the scenarios
    of [Demo]. *)
Module Sample.

Record Faults := {
  invalid_utf8 : string -> bool;
  broken_page : nat -> bool;
  broken_xref : nat -> option exn;
  listdir_raises : bool;
  unmakeable : string -> bool;
  unopenable : string -> bool
}.

Definition no_faults : Faults :=
  {| invalid_utf8 := fun _ => false;
     broken_page := fun _ => false;
     broken_xref := fun _ => None;
     listdir_raises := false;
     unmakeable := fun _ => false;
     unopenable := fun _ => false |}.

Definition env (sc : Demo.Scenario) (f : Faults)
  : @Env nat nat (list (list nat)) (list nat) :=
  let base := Demo.env sc in
  {| pyzbar_decode := pyzbar_decode base;
     bytes_decode_utf8 := fun b =>
       if invalid_utf8 f b then Raise (Demo.boom "invalid start byte")
       else Ok b;
     pil_convert := pil_convert base;
     pil_contrast_enhance := pil_contrast_enhance base;
     pil_sharpness_enhance := pil_sharpness_enhance base;
     pil_point := pil_point base;
     pil_fromarray := pil_fromarray base;
     pil_open := pil_open base;
     pil_save_error := pil_save_error base;
     np_array := np_array base;
     cv2_cvtColor := cv2_cvtColor base;
     cv2_resize := cv2_resize base;
     cv2_GaussianBlur := cv2_GaussianBlur base;
     cv2_adaptiveThreshold := cv2_adaptiveThreshold base;
     fitz_open := fitz_open base;
     fitz_len := fitz_len base;
     fitz_load_page := fun d n =>
       if broken_page f n then Raise (Demo.boom "cannot load page")
       else fitz_load_page base d n;
     fitz_get_images := fitz_get_images base;
     fitz_extract_image := fun d xref =>
       match broken_xref f xref with
       | Some e => Raise e
       | None => fitz_extract_image base d xref
       end;
     os_listdir := fun w folder =>
       if listdir_raises f then Raise (Exn true "no such folder")
       else os_listdir base w folder;
     os_makedirs_error := fun _ dir =>
       if unmakeable f dir then Some (Exn true "permission denied") else None;
     open_write_error := fun _ path =>
       if unopenable f path then Some (Exn true "read-only file system")
       else None;
     csv_writerow_error := csv_writerow_error base |}.


(** The decoder itself raises on every image. *)
Definition decoder_broken : Demo.Scenario :=
  Demo.one_image (fun _ => Raise (Demo.boom "decoder failed")).

(** Image 1 carries three codes; the bytes of the second are not UTF-8. *)
Definition second_invalid : Demo.Scenario :=
  Demo.one_image
    (fun n => if Nat.eqb n 1 then Ok ["ABC"; "bad"; "XYZ"] else Ok ["other"]).

Definition utf8_faults : Faults :=
  {| invalid_utf8 := String.eqb "bad";
     broken_page := fun _ => false;
     broken_xref := fun _ => None;
     listdir_raises := false;
     unmakeable := fun _ => false;
     unopenable := fun _ => false |}.

(** A document of three pages: images 1 and 2 on the first, none on the
    second, image 3 on the third; no image carries a QR code. *)
Definition three_pages : Demo.Scenario :=
  {| Demo.qr_on := fun _ => Ok [];
     Demo.enhance_raises := false;
     Demo.preprocess_raises := false;
     Demo.unwritable := fun _ => false;
     Demo.documents := fun _ => Ok [[1; 2]; []; [3]];
     Demo.folder_entries := ["d.pdf"] |}.

(** The bytes behind image 2 cannot be extracted. *)
Definition xref2_faults : Faults :=
  {| invalid_utf8 := fun _ => false;
     broken_page := fun _ => false;
     broken_xref := fun xref =>
       if Nat.eqb xref 2 then Some (Exn true "cannot identify image file")
       else None;
     listdir_raises := false;
     unmakeable := fun _ => false;
     unopenable := fun _ => false |}.

(** The image directory of the document cannot be made. *)
Definition makedirs_faults : Faults :=
  {| invalid_utf8 := fun _ => false;
     broken_page := fun _ => false;
     broken_xref := fun _ => None;
     listdir_raises := false;
     unmakeable := String.eqb "out/d";
     unopenable := fun _ => false |}.

(** Image 1 carries a code whose text tries to leave the folder. *)
Definition traversal_payload : Demo.Scenario :=
  Demo.one_image
    (fun n => if Nat.eqb n 1 then Ok ["../../etc/passwd"; "B"] else Ok []).

(** Image 1 carries a QR code, and no image file can be written. *)
Definition nothing_writable : Demo.Scenario :=
  {| Demo.qr_on := fun n => if Nat.eqb n 1 then Ok ["ABC"] else Ok [];
     Demo.enhance_raises := false;
     Demo.preprocess_raises := false;
     Demo.unwritable := fun _ => true;
     Demo.documents := fun _ => Ok [[1]];
     Demo.folder_entries := ["d.pdf"] |}.



(** The third page (number 2 counted from 0) cannot be loaded. *)
Definition page2_faults : Faults :=
  {| invalid_utf8 := fun _ => false;
     broken_page := Nat.eqb 2;
     broken_xref := fun _ => None;
     listdir_raises := false;
     unmakeable := fun _ => false;
     unopenable := fun _ => false |}.

End Sample.

Section ReferenceExtraction.

Context {Image Array Document Page : Type}.
Local Abbreviation Env := (@Env Image Array Document Page).
Local Abbreviation Event := (@Event Image).

(** The two calls inside the [try] of [extract_images_from_pdf]: the bytes
    of the image behind [xref], opened as a PIL image. *)
Definition load_image (E : Env) (doc : Document) (xref : nat)
  : result Image :=
  let? image_bytes := fitz_extract_image E doc xref in
  pil_open E image_bytes.

(** The two calls before the inner loop: the page, and its image list. *)
Definition page_image_list (E : Env) (doc : Document) (page_num : nat)
  : result (list nat) :=
  let? page := fitz_load_page E doc page_num in
  fitz_get_images E page.

(** The line logged for an image that could not be loaded. *)
Definition skip_log (page_num img_index : nat) (e : exn) : Event :=
  if is_io_error e
  then Logged WARNING
         ("Skipping invalid image on page "
          +:+ Text.str_of_nat (page_num + 1) +:+ ", image "
          +:+ Text.str_of_nat (img_index + 1)
          +:+ " due to error: " +:+ exn_msg e)
  else Logged ERROR
         ("Unsupported image format on page "
          +:+ Text.str_of_nat (page_num + 1) +:+ ", image "
          +:+ Text.str_of_nat (img_index + 1) +:+ ": " +:+ exn_msg e).

(** The images of a page that load, with the page's number counted from 1. *)
Definition page_entries (E : Env) (doc : Document) (page_num : nat)
  (image_list : list nat) : list (Image * nat) :=
  omap (fun xref =>
          match load_image E doc xref with
          | Ok image => Some (image, page_num + 1)
          | Raise _ => None
          end) image_list.

(** The lines logged for the images of a page that do not load; [start] is
    the position of the first image of [image_list] on the page. *)
Fixpoint page_logs (E : Env) (doc : Document) (page_num start : nat)
  (image_list : list nat) : list Event :=
  match image_list with
  | [] => []
  | xref :: rest =>
      match load_image E doc xref with
      | Ok _ => page_logs E doc page_num (S start) rest
      | Raise e =>
          skip_log page_num start e :: page_logs E doc page_num (S start) rest
      end
  end.

(** Going through the pages [page_nums]: the images collected, the exception
    of the first page that cannot be loaded or listed, and the lines
    logged. *)
Fixpoint scan_pages (E : Env) (doc : Document) (page_nums : list nat)
  : list (Image * nat) * option exn * list Event :=
  match page_nums with
  | [] => ([], None, [])
  | page_num :: rest =>
      match page_image_list E doc page_num with
      | Raise e => ([], Some e, [])
      | Ok image_list =>
          let r := scan_pages E doc rest in
          (page_entries E doc page_num image_list ++ fst (fst r),
           snd (fst r),
           page_logs E doc page_num 0 image_list ++ snd r)
      end
  end.

(** The level of a log line. *)
Definition level_of (ev : Event) : option Level :=
  match ev with
  | Logged lvl _ => Some lvl
  | _ => None
  end.

End ReferenceExtraction.

Section ReferencePaths.

(** [path] names an entry directly inside the directory [dir]: it is
    [os.path.join(dir, name)] for a name without slash that is not empty and
    is neither [.] nor [..]. *)
Definition directly_in (dir path : string) : Prop :=
  exists name,
    (name ∉ [""; "."; ".."]) /\ ("/"%char ∉ Text.chars name) /\
    path = Text.os_path_join dir name.

End ReferencePaths.

(** ** The archive extractor and the interactive shell *)

Module Posix.

(** Whether [s] contains a slash: [s.rfind('/') >= 0]. *)
Fixpoint has_slash (s : string) : bool :=
  match s with
  | EmptyString => false
  | String c rest => Ascii.eqb c "/" || has_slash rest
  end.

(** [p[:p.rfind('/') + 1]]: the characters of [p] up to and including its
    last slash. *)
Fixpoint head_of (p : string) : string :=
  match p with
  | EmptyString => EmptyString
  | String c rest =>
      if has_slash p then String c (head_of rest) else EmptyString
  end.

(** [s.rstrip('/')] *)
Fixpoint rstrip_slash (s : string) : string :=
  match s with
  | EmptyString => EmptyString
  | String c rest =>
      match rstrip_slash rest with
      | EmptyString =>
          if Ascii.eqb c "/" then EmptyString else String c EmptyString
      | String c' rest' => String c (String c' rest')
      end
  end.

(** [head == '/' * len(head)] *)
Fixpoint all_slashes (s : string) : bool :=
  match s with
  | EmptyString => true
  | String c rest => Ascii.eqb c "/" && all_slashes rest
  end.

(** [posixpath.dirname(p)] *)
Definition dirname (p : string) : string :=
  let head := head_of p in
  if negb (String.eqb head "") && negb (all_slashes head)
  then rstrip_slash head
  else head.

End Posix.

(** [messagebox.showerror(title, message)] and
    [messagebox.showinfo(title, message)] *)
Inductive Dialog :=
| ShowError (title message : string)
| ShowInfo (title message : string).

(** The value of [self.file_or_folder] once a radio button was chosen. *)
Inductive Mode := FileMode | FolderMode | ZipMode.

(** What [process] reads from the window: the chosen mode ([None] before
    any choice) and the text of the three entry fields. *)
Record App := {
  file_or_folder : option Mode;
  path_entry : string;
  save_dir_entry : string;
  report_entry : string
}.

(** The line feed written ["\n"] in the source. *)
Definition newline : string := String (ascii_of_nat 10) EmptyString.

Section Shell.

Context {Image Array Document Page : Type}.
Local Abbreviation Env := (@Env Image Array Document Page).
Local Abbreviation World := (@World Image).

(** A file written with data that is not the program's: the image or the
    table the program had stored at that path is no longer there. *)
Definition overwrite (path : string) (w : World) : World :=
  {| trace := trace w;
     saved_images := delete path (saved_images w);
     written_csv := delete path (written_csv w) |}.

Fixpoint unpack (paths : list string) (w : World) : World :=
  match paths with
  | [] => w
  | path :: rest => unpack rest (overwrite path w)
  end.

(** [zipfile.ZipFile(zip_path, 'r')] and [extractall(folder)]: the paths of
    the files written, in order, and the exception either raises, if any.
    A call that raises may have written files before it did. *)
Variable zip_extractall : World -> string -> string -> list string * option exn.

Variable E : Env.

(** [with zipfile.ZipFile(zip_path, 'r') as zip_ref:
    zip_ref.extractall(extract_to_folder)] *)
Definition extractall (zip_path extract_to_folder : string) : ST World unit :=
  fun w =>
    let outcome := zip_extractall w zip_path extract_to_folder in
    (match snd outcome with
     | Some e => Raise e
     | None => Ok tt
     end,
     unpack (fst outcome) w).

(** [extract_pdfs_from_zip(zip_path, extract_to_folder)] *)
Definition extract_pdfs_from_zip (zip_path extract_to_folder : string)
  : ST World unit :=
  let* _ := extractall zip_path extract_to_folder in
  logging INFO ("Extracted all PDFs from " +:+ zip_path +:+ " to "
                +:+ extract_to_folder).

Definition showerror (title message : string)
  : ST (World * list Dialog) unit :=
  append (ShowError title message).

Definition showinfo (title message : string)
  : ST (World * list Dialog) unit :=
  append (ShowInfo title message).

(** [QRCodeExtractorApp.process(self)]; the local is the list of dialogs
    shown. *)
Definition process (app : App) : ST (World * list Dialog) unit :=
  let path := path_entry app in
  let save_dir := save_dir_entry app in
  let report_file_name := report_entry app in
  if String.eqb path "" || String.eqb save_dir ""
     || String.eqb report_file_name ""
  then
    showerror "Error"
      "Please provide all the required paths and report file name."
  else
    let sanitized_name := sanitize_filename report_file_name in
    let report_file := Text.os_path_join save_dir (sanitized_name +:+ ".csv") in
    let image_folder := Text.os_path_join save_dir sanitized_name in
    let* _ := call (os_makedirs E image_folder) in
    match file_or_folder app with
    | Some FileMode =>
        let* _ :=
          call (logging INFO ("Processing single PDF file: " +:+ path)) in
        try_except
          ((* Save images within the same directory as the PDF *)
           let* report := call (process_pdf E path (Posix.dirname path)) in
           let* _ := call (save_report_to_csv E report report_file) in
           showinfo "Success"
             ("QR code extraction completed." +:+ newline
              +:+ "Report saved at " +:+ report_file))
          (fun e =>
             let* _ :=
               call (logging ERROR
                       ("Error processing file: " +:+ exn_msg e)) in
             showerror "Error"
               ("Failed to process the file." +:+ newline +:+ "Error: "
                +:+ exn_msg e))
    | Some FolderMode =>
        let* _ :=
          call (logging INFO ("Processing folder of PDFs: " +:+ path)) in
        try_except
          (let* _ :=
             call (process_pdfs_in_folder E path image_folder report_file) in
           showinfo "Success"
             ("QR code extraction completed." +:+ newline
              +:+ "Report saved at " +:+ report_file))
          (fun e =>
             let* _ :=
               call (logging ERROR
                       ("Error processing folder: " +:+ exn_msg e)) in
             showerror "Error"
               ("Failed to process the folder." +:+ newline +:+ "Error: "
                +:+ exn_msg e))
    | Some ZipMode =>
        let* _ := call (logging INFO ("Processing ZIP file: " +:+ path)) in
        let extract_to_folder :=
          Text.os_path_join save_dir "extracted_pdfs" in
        let* _ := call (os_makedirs E extract_to_folder) in
        try_except
          (let* _ := call (extract_pdfs_from_zip path extract_to_folder) in
           let* _ :=
             call (process_pdfs_in_folder E extract_to_folder image_folder
                                          report_file) in
           showinfo "Success"
             ("QR code extraction completed." +:+ newline
              +:+ "Report saved at " +:+ report_file))
          (fun e =>
             let* _ :=
               call (logging ERROR
                       ("Error processing ZIP file: " +:+ exn_msg e)) in
             showerror "Error"
               ("Failed to process the ZIP file." +:+ newline +:+ "Error: "
                +:+ exn_msg e))
    | None =>
        showerror "Error"
          "Please select either 'Single PDF File', 'Folder of PDFs', or 'ZIP File of PDFs'"
    end.

End Shell.

Section ReferenceShell.

(** The report file and the image folder [process] derives from the save
    directory and the report name. *)
Definition report_file_of (app : App) : string :=
  Text.os_path_join (save_dir_entry app)
    (sanitize_filename (report_entry app) +:+ ".csv").

Definition image_folder_of (app : App) : string :=
  Text.os_path_join (save_dir_entry app)
    (sanitize_filename (report_entry app)).

Definition inputs_given (app : App) : Prop :=
  path_entry app <> "" /\ save_dir_entry app <> "" /\ report_entry app <> "".

Definition success_dialog (app : App) : Dialog :=
  ShowInfo "Success"
    ("QR code extraction completed." +:+ newline +:+ "Report saved at "
     +:+ report_file_of app).

(** [p[p.rfind('/') + 1:]], the other half of [Posix.head_of]. *)
Fixpoint tail_of (p : string) : string :=
  match p with
  | EmptyString => EmptyString
  | String c rest => if Posix.has_slash p then tail_of rest else p
  end.

End ReferenceShell.

(** Sample windows. *)
Module SampleApp.

Definition single_file : App :=
  {| file_or_folder := Some FileMode;
     path_entry := "in/d.pdf";
     save_dir_entry := "out";
     report_entry := "my:report" |}.

Definition archive : App :=
  {| file_or_folder := Some ZipMode;
     path_entry := "in/all.zip";
     save_dir_entry := "out";
     report_entry := "r" |}.

Definition nothing_chosen : App :=
  {| file_or_folder := None;
     path_entry := "in/d.pdf";
     save_dir_entry := "out";
     report_entry := "r" |}.

Definition no_report_name : App :=
  {| file_or_folder := Some FolderMode;
     path_entry := "in";
     save_dir_entry := "out";
     report_entry := "" |}.

(** An archive that breaks after its first member was written, and an
    archive with two documents. *)
Definition bad_zip : @World nat -> string -> string -> list string * option exn :=
  fun _ _ folder =>
    ([Text.os_path_join folder "a.pdf"],
     Some (Demo.boom "Bad CRC-32 for file 'b.pdf'")).

Definition good_zip : @World nat -> string -> string -> list string * option exn :=
  fun _ _ folder =>
    ([Text.os_path_join folder "a.pdf"; Text.os_path_join folder "b.pdf"],
     None).


End SampleApp.

Section ReferenceShellOutcome.

Context {Image : Type}.
Local Abbreviation World := (@World Image).

(** How [process] ends when the work on a file, a folder or a ZIP file
    raised [e] in world [w]: a log line and an error dialog. *)
Definition failure_outcome (what : string) (e : exn) (w : World)
  (dialogs : list Dialog) : result unit * (World * list Dialog) :=
  (Ok tt,
   (emit (Logged ERROR ("Error processing " +:+ what +:+ ": " +:+ exn_msg e))
         w,
    dialogs ++ [ShowError "Error"
                  ("Failed to process the " +:+ what +:+ "." +:+ newline
                   +:+ "Error: " +:+ exn_msg e)])).

Definition is_error_dialog (d : Dialog) : Prop :=
  match d with
  | ShowError _ _ => True
  | ShowInfo _ _ => False
  end.

End ReferenceShellOutcome.

(** * Properties *)

(** ** Text *)

Section TextFacts.

Import Text.

Lemma forbidden_false_not_in (c : ascii) :
  forbidden c = false -> c ∉ forbidden_chars.
Proof.
  intros Hc Hin. apply list_elem_of_In in Hin.
  assert (forbidden c = true) as Ht; [|congruence].
  apply existsb_exists. exists c. split; [done | apply Ascii.eqb_refl].
Qed.

Lemma re_sub_runs_clean (s : string) :
  forall in_run,
    Forall (fun c => forbidden c = false) (chars (re_sub_runs in_run s)).
Proof.
  induction s as [|c rest IH]; intros in_run; cbn [re_sub_runs].
  - constructor.
  - destruct (forbidden c) eqn:Hc.
    + destruct in_run; [apply IH|].
      constructor; [reflexivity | apply IH].
    + constructor; [exact Hc | apply IH].
Qed.

(** Text without class characters is left as it is. *)
Lemma re_sub_runs_id (s : string) :
  Forall (fun c => forbidden c = false) (chars s) ->
  re_sub_runs false s = s.
Proof.
  induction s as [|c rest IH]; cbn [re_sub_runs chars list_ascii_of_string].
  - reflexivity.
  - intros H. inversion H as [|? ? Hc Hrest]; subst.
    rewrite Hc. f_equal. apply IH, Hrest.
Qed.

Lemma split_head (sep : ascii) (s : string) :
  exists pieces, split sep s = prefix_before sep s :: pieces.
Proof.
  induction s as [|c rest [pieces IH]]; cbn [split prefix_before].
  - by exists [].
  - destruct (Ascii.eqb c sep); [by eexists|].
    rewrite IH. by eexists.
Qed.

Lemma prefix_before_spec (sep : ascii) (s : string) :
  (sep ∉ chars (prefix_before sep s)) /\
  exists rest, s = prefix_before sep s +:+ rest /\
               (rest = "" \/ exists tail, rest = String sep tail).
Proof.
  induction s as [|c s [IHn [rest [IHe IHr]]]]; cbn [prefix_before].
  - split; [apply not_elem_of_nil|]. exists "". by split; [|left].
  - destruct (Ascii.eqb c sep) eqn:Hc.
    + apply Ascii.eqb_eq in Hc as ->.
      split; [apply not_elem_of_nil|].
      exists (String sep s). split; [done|]. right. by exists s.
    + apply Ascii.eqb_neq in Hc. split.
      * cbn. rewrite not_elem_of_cons. split; [congruence | exact IHn].
      * exists rest. split; [|exact IHr].
        change (String c s = String c (prefix_before sep s +:+ rest)).
        f_equal. exact IHe.
Qed.

Lemma app_cons (c : ascii) (a b : string) :
  String c a +:+ b = String c (a +:+ b).
Proof. reflexivity. Qed.

Lemma app_empty (b : string) : "" +:+ b = b.
Proof. reflexivity. Qed.

Lemma string_length_app (a b : string) :
  String.length (a +:+ b) = String.length a + String.length b.
Proof.
  induction a as [|c a IH]; [done|].
  rewrite app_cons. cbn [String.length]. by rewrite IH.
Qed.

Lemma substring_all (b : string) : substring 0 (String.length b) b = b.
Proof. induction b as [|c b IH]; cbn; [done | by rewrite IH]. Qed.

Lemma substring_app_suffix (a b : string) :
  substring (String.length a) (String.length b) (a +:+ b) = b.
Proof.
  induction a as [|c a IH].
  - rewrite app_empty. apply substring_all.
  - rewrite app_cons. exact IH.
Qed.

Lemma substring_split (s : string) :
  forall n, n <= String.length s ->
    s = substring 0 n s +:+ substring n (String.length s - n) s.
Proof.
  induction s as [|c s IH]; intros n Hn; cbn in Hn.
  - assert (n = 0) as -> by lia. reflexivity.
  - destruct n as [|n].
    + cbn [substring String.length Nat.sub]. rewrite app_empty.
      f_equal. symmetry. apply substring_all.
    + cbn [substring String.length Nat.sub]. rewrite app_cons. f_equal.
      apply IH. lia.
Qed.

Lemma endswith_app (stem suffix : string) :
  endswith (stem +:+ suffix) suffix = true.
Proof.
  unfold endswith. rewrite string_length_app.
  replace (String.length stem + String.length suffix - String.length suffix)
    with (String.length stem) by lia.
  rewrite substring_app_suffix, String.eqb_refl.
  apply andb_true_iff. split; [apply Nat.leb_le; lia | done].
Qed.

Lemma endswith_spec (s suffix : string) :
  endswith s suffix = true <-> exists stem, s = stem +:+ suffix.
Proof.
  split.
  - unfold endswith. intros H. apply andb_true_iff in H as [Hlen Heq].
    apply Nat.leb_le in Hlen. apply String.eqb_eq in Heq.
    exists (substring 0 (String.length s - String.length suffix) s).
    pose proof (substring_split s (String.length s - String.length suffix))
      as Hs.
    replace (String.length s - (String.length s - String.length suffix))
      with (String.length suffix) in Hs by lia.
    rewrite Heq in Hs. apply Hs. lia.
  - intros [stem ->]. apply endswith_app.
Qed.

(** A name whose last characters are some other text of the same length
    does not end with [suffix]: the comparison distinguishes letter case. *)
Lemma endswith_other (stem other suffix : string) :
  String.length other = String.length suffix ->
  other <> suffix ->
  endswith (stem +:+ other) suffix = false.
Proof.
  intros Hlen Hne. unfold endswith. rewrite string_length_app, <- Hlen.
  replace (String.length stem + String.length other - String.length other)
    with (String.length stem) by lia.
  rewrite substring_app_suffix.
  apply andb_false_iff. right. by apply String.eqb_neq.
Qed.

End TextFacts.

Example text_helpers_on_samples :
  sanitize_filename "a//b:c" = "a_b_c" /\
  Text.split "." "v2.final.pdf" = ["v2"; "final"; "pdf"] /\
  Text.split "." "" = [""] /\
  Text.endswith "x.pdf" ".pdf" = true /\
  Text.endswith "x.PDF" ".pdf" = false /\
  Text.endswith "pdf" ".pdf" = false /\
  Text.os_path_basename "/a.b/c.pdf" = "c.pdf" /\
  Text.os_path_join "out" "d" = "out/d" /\
  Text.os_path_join "out/" "d" = "out/d" /\
  Text.os_path_join "out" "/d" = "/d" /\
  Text.str_of_nat 0 = "0" /\
  Text.str_of_nat 12 = "12" /\
  image_filename_of "d" 3 0 "A_B" = "dpage3qr1idA_B.png".
Proof. repeat split; reflexivity. Qed.

(** ** Worlds and loops *)

Section Facts.

Context {Image Array Document Page : Type}.
Local Abbreviation Env := (@Env Image Array Document Page).
Local Abbreviation World := (@World Image).
Local Abbreviation Event := (@Event Image).

Implicit Types (E : Env) (w : World) (evs : list Event).

Lemma emit_emits (ev : Event) w : emit ev w = emits [ev] w.
Proof. reflexivity. Qed.

Lemma emits_emits evs1 evs2 w :
  emits evs2 (emits evs1 w) = emits (evs1 ++ evs2) w.
Proof. unfold emits. cbn. by rewrite app_assoc. Qed.

Lemma emits_nil w : emits [] w = w.
Proof. destruct w. unfold emits. cbn. by rewrite app_nil_r. Qed.

(** Closes an equation between two runs that differ only in how the
    appended events are bracketed. *)
Ltac world_eq :=
  cbn; unfold logging, emits, emit; cbn;
  repeat rewrite <- app_assoc; cbn; reflexivity.

Lemma for_each_decode E (objs : list string) (w : World) :
  forall qr : list string,
    for_each objs
      (fun obj => let* text := pure (bytes_decode_utf8 E obj) in append text)
      (w, qr)
    = (match snd (decoded_texts E objs) with
       | None => Ok tt
       | Some e => Raise e
       end,
       (w, qr ++ fst (decoded_texts E objs))).
Proof.
  induction objs as [|obj rest IH]; intros qr; cbn [for_each decoded_texts].
  - cbn. by rewrite app_nil_r.
  - unfold bind at 1. unfold bind at 1. unfold pure at 1.
    destruct (bytes_decode_utf8 E obj) as [text|e]; cbn [fst snd].
    + unfold append at 1. cbn [fst snd]. rewrite IH.
      by rewrite <- app_assoc.
    + by rewrite app_nil_r.
Qed.

(** The orchestrator always returns, and does exactly what the decision
    table says. *)
Lemma read_qr_run E (image : Image) w :
  read_qr_codes_from_image E image w
  = (Ok (fst (orchestrate E image)), emits (snd (orchestrate E image)) w).
Proof.
  unfold read_qr_codes_from_image, with_local, orchestrate, attempt.
  unfold bind at 1. unfold try_except.
  unfold bind at 1. unfold call at 1. unfold decode at 1. cbn [fst snd].
  destruct (pyzbar_decode E image) as [objs1|e1]; [|world_eq].
  unfold bind at 1. rewrite for_each_decode. cbn [app].
  destruct (decoded_texts E objs1) as [[|p1 qr1] [e1|]]; cbn [fst snd];
    try world_eq.
  unfold bind at 1. unfold get_local at 1. cbn [fst snd].
  unfold bind at 1. cbn [if_not].
  unfold bind at 1. unfold invoke at 1. cbn [fst snd].
  destruct (enhance_image E image) as [enh|e2]; [|world_eq].
  unfold bind at 1. unfold call at 1. unfold decode at 1. cbn [fst snd].
  destruct (pyzbar_decode E enh) as [objs2|e2]; [|world_eq].
  rewrite for_each_decode. cbn [app].
  destruct (decoded_texts E objs2) as [[|p2 qr2] [e2|]]; cbn [fst snd];
    try world_eq.
  unfold bind at 1. unfold get_local at 1. cbn [fst snd if_not].
  unfold bind at 1. unfold invoke at 1. cbn [fst snd].
  destruct (preprocess_image E image) as [pre|e3]; [|world_eq].
  unfold bind at 1. unfold call at 1. unfold decode at 1. cbn [fst snd].
  destruct (pyzbar_decode E pre) as [objs3|e3]; [|world_eq].
  rewrite for_each_decode. cbn [app].
  destruct (decoded_texts E objs3) as [qr3 [e3|]]; world_eq.
Qed.

End Facts.

(** ** Scanning the images of a document *)

Section Scanning.

Context {Image Array Document Page : Type}.
Local Abbreviation Env := (@Env Image Array Document Page).
Local Abbreviation World := (@World Image).
Local Abbreviation Event := (@Event Image).

Implicit Types (E : Env) (w : World) (evs : list Event).
Implicit Types (cands : list (Image * QRRecord)) (acc : list QRRecord).

Lemma saves_of_app evs1 evs2 :
  saves_of (evs1 ++ evs2) = saves_of evs1 ++ saves_of evs2.
Proof. apply omap_app. Qed.

Lemma replay_app (s1 s2 : list (string * Image * option exn)) m :
  replay (s1 ++ s2) m = replay s2 (replay s1 m).
Proof. apply foldl_app. Qed.

Lemma kept_app cands1 cands2 (o1 o2 : list (option exn)) :
  length o1 = length cands1 ->
  kept (cands1 ++ cands2) (o1 ++ o2) = kept cands1 o1 ++ kept cands2 o2.
Proof.
  intros Hlen. unfold kept.
  rewrite zip_with_app by done. apply omap_app.
Qed.

Lemma failures_logged_quiet evs : saves_of evs = [] -> failures_logged evs.
Proof.
  intros Hnone before after path img e ->.
  rewrite saves_of_app in Hnone. by apply app_nil in Hnone as [_ Hnone].
Qed.

Lemma failures_logged_app evs1 evs2 :
  failures_logged evs1 -> failures_logged evs2 ->
  failures_logged (evs1 ++ evs2).
Proof.
  intros H1 H2 before after path img e Heq.
  apply app_eq_inv in Heq as [(k & -> & Heq)|(k & -> & ->)].
  - destruct k as [|ev k]; cbn in Heq.
    + subst evs2. by apply (H2 [] after path img e).
    + injection Heq as <- ->.
      destruct (H1 before k path img e eq_refl) as [rest ->].
      by eexists.
  - by apply (H2 k after path img e).
Qed.

Lemma scanned_nil w acc : scanned [] w acc w acc.
Proof.
  exists [], []. cbn. rewrite !app_nil_r.
  repeat split; try constructor. by apply failures_logged_quiet.
Qed.

(** Events that are not saves leave the scan where it was. *)
Lemma scanned_quiet evs w acc :
  Forall is_scan_event evs -> saves_of evs = [] ->
  scanned [] w acc (emits evs w) acc.
Proof.
  intros Hscan Hsaves. exists [], evs. cbn.
  rewrite Hsaves, app_nil_r. repeat split; try done.
  by apply failures_logged_quiet.
Qed.

Lemma scanned_app cands1 cands2 w acc w1 acc1 w2 acc2 :
  scanned cands1 w acc w1 acc1 ->
  scanned cands2 w1 acc1 w2 acc2 ->
  scanned (cands1 ++ cands2) w acc w2 acc2.
Proof.
  intros (o1 & evs1 & Hl1 & Ha1 & Ht1 & Hs1 & Hf1 & Hi1 & Hc1 & Hg1)
         (o2 & evs2 & Hl2 & Ha2 & Ht2 & Hs2 & Hf2 & Hi2 & Hc2 & Hg2).
  exists (o1 ++ o2), (evs1 ++ evs2).
  split; [|split; [|split; [|split; [|split; [|split; [|split]]]]]].
  - rewrite !length_app. lia.
  - rewrite kept_app by done. rewrite Ha2, Ha1. by rewrite app_assoc.
  - rewrite Ht2, Ht1. by rewrite app_assoc.
  - rewrite saves_of_app, Hs1, Hs2. by rewrite zip_with_app.
  - by apply Forall_app.
  - rewrite saves_of_app, replay_app, Hi2, Hi1. done.
  - by rewrite Hc2.
  - by apply failures_logged_app.
Qed.

(** One payload: the image of the loop is saved under the payload's path;
    the record is appended exactly when the save returns. *)
Lemma save_one_run E fn num dir (image : Image) (page : nat)
  (code : nat * string) w acc :
  exists w' acc',
    save_one E fn num dir image page code (w, acc) = (Ok tt, (w', acc')) /\
    scanned [(image, record_for fn num dir page code)] w acc w' acc'.
Proof.
  destruct code as [qr_index qr_code_data].
  unfold save_one, try_except, bind, call, image_save. cbn [fst snd].
  set (path := Text.os_path_join dir _).
  destruct (pil_save_error E w path image) as [e|] eqn:Hsave.
  - eexists _, _. split; [reflexivity|].
    exists [Some e], [CallSave path image (Some e);
                      Logged ERROR ("Error saving image " +:+ path +:+ ": "
                                    +:+ exn_msg e)].
    cbn. rewrite app_nil_r, <- app_assoc.
    split; [|split; [|split; [|split; [|split; [|split; [|split]]]]]];
      try done; [repeat constructor|].
    intros [|ev1 [|ev2 [|ev3 before]]] after p i e' Heq; cbn in Heq;
      try discriminate Heq.
    injection Heq as <- _ <- <-. by eexists.
  - eexists _, _. split; [reflexivity|].
    exists [None], [CallSave path image None].
    cbn. split; [|split; [|split; [|split; [|split; [|split; [|split]]]]]];
      try done; [repeat constructor|].
    intros [|ev1 [|ev2 before]] after p i e' Heq; cbn in Heq;
      discriminate Heq.
Qed.

Lemma save_loop_run E fn num dir (image : Image) (page : nat)
  (codes : list (nat * string)) :
  forall w acc, exists w' acc',
    for_each codes (save_one E fn num dir image page) (w, acc)
      = (Ok tt, (w', acc')) /\
    scanned (map (fun code => (image, record_for fn num dir page code)) codes)
            w acc w' acc'.
Proof.
  induction codes as [|code codes IH]; intros w acc; cbn [for_each map].
  - eexists _, _. split; [reflexivity | apply scanned_nil].
  - destruct (save_one_run E fn num dir image page code w acc)
      as (w1 & acc1 & Hrun1 & Hsc1).
    destruct (IH w1 acc1) as (w2 & acc2 & Hrun2 & Hsc2).
    exists w2, acc2. split.
    + unfold bind. by rewrite Hrun1.
    + by apply (scanned_app [_] _ _ _ _ _ _ _ Hsc1).
Qed.

End Scanning.

Section ScanningImages.

Context {Image Array Document Page : Type}.
Local Abbreviation Env := (@Env Image Array Document Page).
Local Abbreviation World := (@World Image).
Local Abbreviation Event := (@Event Image).

Implicit Types (E : Env) (w : World) (evs : list Event).
Implicit Types (cands : list (Image * QRRecord)) (acc : list QRRecord).

Lemma orchestrate_events E (image : Image) :
  Forall is_scan_event (snd (orchestrate E image)) /\
  saves_of (snd (orchestrate E image)) = [].
Proof.
  unfold orchestrate.
  repeat case_match; cbn; split; try reflexivity; repeat constructor.
Qed.

Lemma candidates_cons E fn num dir (entry : Image * nat) images :
  candidates E fn num dir (entry :: images)
  = map (fun code => (fst entry, record_for fn num dir (snd entry) code))
        (enumerate (fst (orchestrate E (fst entry))))
    ++ candidates E fn num dir images.
Proof. reflexivity. Qed.

Lemma scan_image_run E fn num dir (entry : Image * nat) w acc :
  exists w' acc',
    scan_image E fn num dir entry (w, acc) = (Ok tt, (w', acc')) /\
    scanned (map (fun code =>
                    (fst entry, record_for fn num dir (snd entry) code))
                 (enumerate (fst (orchestrate E (fst entry)))))
            w acc w' acc'.
Proof.
  destruct entry as [image page]. cbn [fst snd].
  unfold scan_image, bind, call. cbn [fst snd]. rewrite read_qr_run.
  destruct (orchestrate_events E image) as [Hscan Hsaves].
  pose proof (scanned_quiet _ w acc Hscan Hsaves) as Hquiet.
  destruct (fst (orchestrate E image)) as [|p qr] eqn:Hqr.
  - eexists _, _. split; [reflexivity | exact Hquiet].
  - destruct (save_loop_run E fn num dir image page (enumerate (p :: qr))
                (emits (snd (orchestrate E image)) w) acc)
      as (w' & acc' & Hrun & Hsc).
    exists w', acc'. split; [exact Hrun|].
    by apply (scanned_app [] _ _ _ _ _ _ _ Hquiet).
Qed.

Lemma scan_images_run E fn num dir (images : list (Image * nat)) :
  forall w acc, exists w' acc',
    for_each images (scan_image E fn num dir) (w, acc) = (Ok tt, (w', acc')) /\
    scanned (candidates E fn num dir images) w acc w' acc'.
Proof.
  induction images as [|entry images IH]; intros w acc; cbn [for_each].
  - eexists _, _. split; [reflexivity | apply scanned_nil].
  - destruct (scan_image_run E fn num dir entry w acc)
      as (w1 & acc1 & Hrun1 & Hsc1).
    destruct (IH w1 acc1) as (w2 & acc2 & Hrun2 & Hsc2).
    exists w2, acc2. split.
    + unfold bind. by rewrite Hrun1.
    + rewrite candidates_cons. by apply (scanned_app _ _ _ _ _ _ _ _ Hsc1).
Qed.

(** *** The image source only opens the document and writes log lines *)

Lemma only_logged_refl {L} (s : World * L) : only_logged s s.
Proof. exists []. by rewrite emits_nil. Qed.

Lemma only_logged_trans {L} (s1 s2 s3 : World * L) :
  only_logged s1 s2 -> only_logged s2 s3 -> only_logged s1 s3.
Proof.
  intros (l1 & H1 & F1) (l2 & H2 & F2). exists (l1 ++ l2).
  rewrite H2, H1, emits_emits. split; [done | by apply Forall_app].
Qed.

Lemma for_each_only_logged {L X} (xs : list X)
  (f : X -> ST (World * L) unit) :
  (forall x s, only_logged s (snd (f x s))) ->
  forall s, only_logged s (snd (for_each xs f s)).
Proof.
  intros Hf. induction xs as [|x xs IH]; intros s; cbn [for_each].
  - apply only_logged_refl.
  - unfold bind. specialize (Hf x s).
    destruct (f x s) as [[[]|e] s1]; cbn [snd] in *; [|exact Hf].
    eapply only_logged_trans; [exact Hf | apply IH].
Qed.

Lemma extract_images_run E (pdf_path : string) w :
  exists logs,
    snd (extract_images_from_pdf E pdf_path w)
      = emits (CallFitzOpen pdf_path :: logs) w /\
    Forall is_log logs.
Proof.
  unfold extract_images_from_pdf, with_local.
  unfold bind at 1. unfold call at 1. unfold open_pdf at 1. cbn [fst snd].
  destruct (fitz_open E w pdf_path) as [doc|e].
  2:{ exists []. by split. }
  unfold bind at 1.
  match goal with
  | |- context [for_each ?xs ?f ?s] =>
      assert (only_logged s (snd (for_each xs f s))) as Hloop
  end.
  { apply for_each_only_logged. intros page_num s.
    unfold bind at 1. unfold pure at 1.
    destruct (fitz_load_page E doc page_num) as [page|e];
      [|apply only_logged_refl].
    unfold bind at 1. unfold pure at 1.
    destruct (fitz_get_images E page) as [image_list|e];
      [|apply only_logged_refl].
    apply for_each_only_logged. intros [img_index xref] s'.
    unfold try_except, bind, pure, append.
    destruct (fitz_extract_image E doc xref) as [bytes|e].
    - destruct (pil_open E bytes) as [image|e].
      + cbn. exists []. by rewrite emits_nil.
      + destruct (is_io_error e); unfold call, logging; cbn;
          (eexists [_]; split; [reflexivity | repeat constructor]).
    - destruct (is_io_error e); unfold call, logging; cbn;
        (eexists [_]; split; [reflexivity | repeat constructor]). }
  destruct Hloop as (logs & Hw & Hlogs). cbn [fst] in Hw.
  destruct (for_each _ _ _) as [[[]|e] [w1 images]]; cbn [fst snd] in *;
    subst w1; exists logs; rewrite emit_emits, emits_emits; by split.
Qed.

(** The whole of [process_pdf]: it raises exactly when the directory cannot
    be made or the image source raises; otherwise it returns the report of
    what scanning recorded. *)
Lemma process_pdf_run E (pdf_path image_folder : string) w :
  let fn := Text.os_path_basename pdf_path in
  let num := prefix_before "." fn in
  let dir := Text.os_path_join image_folder num in
  match os_makedirs_error E w dir with
  | Some e =>
      process_pdf E pdf_path image_folder w
      = (Raise e, emit (CallMakedirs dir) w)
  | None =>
      match extract_images_from_pdf E pdf_path (emit (CallMakedirs dir) w) with
      | (Raise e, w1) => process_pdf E pdf_path image_folder w = (Raise e, w1)
      | (Ok images, w1) =>
          exists w' records,
            process_pdf E pdf_path image_folder w
            = (Ok (report_of fn records), w') /\
            scanned (candidates E fn num dir images) w1 [] w' records
      end
  end.
Proof.
  cbv zeta. unfold process_pdf, with_local.
  destruct (split_head "." (Text.os_path_basename pdf_path))
    as [pieces Hsplit].
  unfold bind, pure, call, os_makedirs, get_local, ret. cbn [fst snd].
  rewrite Hsplit. cbn [index0].
  destruct (os_makedirs_error E w _) as [e|]; [reflexivity|].
  destruct (extract_images_from_pdf E pdf_path _)
    as [[images|e] w1]; [|reflexivity].
  cbn [fst snd].
  match goal with
  | |- context [for_each images ?f (w1, [])] =>
      destruct (scan_images_run E (Text.os_path_basename pdf_path)
                  (prefix_before "." (Text.os_path_basename pdf_path))
                  (Text.os_path_join image_folder
                     (prefix_before "." (Text.os_path_basename pdf_path)))
                  images w1 [])
        as (w' & records & Hrun & Hsc)
  end.
  exists w', records. split; [|exact Hsc].
  rewrite Hrun. cbn [fst snd].
  destruct records as [|r records]; reflexivity.
Qed.

End ScanningImages.

(** ** The batch loop *)

Section Batch.

Context {Image Array Document Page : Type}.
Local Abbreviation Env := (@Env Image Array Document Page).
Local Abbreviation World := (@World Image).
Local Abbreviation Event := (@Event Image).

Implicit Types (E : Env) (w : World) (evs : list Event).

Lemma process_one_run E (folder_path image_folder pdf_file : string) w
  (all : list QRRecord) :
  process_one E folder_path image_folder pdf_file (w, all)
  = (Ok tt,
     (snd (document_records E folder_path image_folder pdf_file w),
      all ++ fst (document_records E folder_path image_folder pdf_file w))).
Proof.
  unfold process_one, document_records, try_except, bind, call, logging,
    extend, append.
  cbn [fst snd].
  destruct (process_pdf E _ image_folder _) as [[report|e] w1]; reflexivity.
Qed.

Lemma batch_loop_run E (folder_path image_folder : string)
  (pdf_files : list string) :
  forall w (all : list QRRecord),
    for_each pdf_files (process_one E folder_path image_folder) (w, all)
    = (Ok tt,
       (snd (batch_sequences E folder_path image_folder pdf_files w),
        all ++ concat
                 (fst (batch_sequences E folder_path image_folder pdf_files
                                       w)))).
Proof.
  induction pdf_files as [|pdf_file rest IH]; intros w all;
    cbn [for_each batch_sequences fst snd concat].
  - by rewrite app_nil_r.
  - unfold bind. rewrite process_one_run, IH. by rewrite app_assoc.
Qed.

(** *** Writing a table *)

Lemma store_csv_twice (path : string) (rows1 rows2 : list (list string)) w :
  store_csv path rows2 (store_csv path rows1 w) = store_csv path rows2 w.
Proof. unfold store_csv. cbn. f_equal. apply insert_insert_eq. Qed.

Lemma add_row_store (path : string) (table : list (list string))
  (row : list string) w :
  add_row path row (store_csv path table w)
  = store_csv path (table ++ [row]) w.
Proof.
  unfold add_row. cbn [store_csv written_csv]. rewrite lookup_insert_eq.
  cbn [default]. apply store_csv_twice.
Qed.


Lemma rows_written_all E (path : string) (records : list QRRecord) :
  forall w,
    snd (rows_written E path w records) = None ->
    fst (rows_written E path w records) = records.
Proof.
  induction records as [|r rest IH]; intros w; cbn [rows_written]; [done|].
  destruct (csv_writerow_error E w path (csv_row r)); cbn [fst snd]; [done|].
  intros H. by rewrite IH.
Qed.



(** The loop over the records, started on a file that holds [table]. *)
Lemma write_rows_run E (path : string) (records : list QRRecord) :
  forall (table : list (list string)) w,
    for_each records (writerow E path) (store_csv path table w)
    = (match snd (rows_written E path (store_csv path table w) records) with
       | None => Ok tt
       | Some e => Raise e
       end,
       store_csv path
         (table
          ++ map csv_row
               (fst (rows_written E path (store_csv path table w) records)))
         w).
Proof.
  induction records as [|r rest IH]; intros table w;
    cbn [for_each rows_written].
  - cbn. by rewrite app_nil_r.
  - unfold bind. unfold writerow at 1.
    destruct (csv_writerow_error E _ path (csv_row r)); cbn [fst snd map].
    + by rewrite app_nil_r.
    + rewrite add_row_store, IH. by rewrite <- app_assoc.
Qed.

(** The whole of the [with open(...)] block. *)
Lemma write_csv_run E (path : string) (records : list QRRecord) w :
  write_csv E path records w
  = match open_write_error E w path with
    | Some e => (Raise e, emit (CallOpenWrite path) w)
    | None =>
        let out :=
          rows_written E path (opened_with_header path w) records in
        (match snd out with
         | None => Ok tt
         | Some e => Raise e
         end,
         store_csv path (csv_header :: map csv_row (fst out))
                   (emit (CallOpenWrite path) w))
    end.
Proof.
  unfold write_csv, bind, open_write, writeheader, opened_with_header.
  destruct (open_write_error E w path); [reflexivity|].
  rewrite add_row_store. cbn [app]. by rewrite write_rows_run.
Qed.

(** The whole of [process_pdfs_in_folder]. *)
Lemma process_pdfs_in_folder_run E
  (folder_path image_folder report_file : string) w :
  process_pdfs_in_folder E folder_path image_folder report_file w
  = match os_listdir E w folder_path with
    | Raise e => (Raise e, emit (CallListdir folder_path) w)
    | Ok entries =>
        let b := batch_sequences E folder_path image_folder
                   (select_pdf_files entries)
                   (emit (CallListdir folder_path) w) in
        match open_write_error E (snd b) report_file with
        | Some e => (Raise e, emit (CallOpenWrite report_file) (snd b))
        | None =>
            let out :=
              rows_written E report_file
                (opened_with_header report_file (snd b)) (concat (fst b)) in
            let w1 :=
              store_csv report_file (csv_header :: map csv_row (fst out))
                        (emit (CallOpenWrite report_file) (snd b)) in
            match snd out with
            | Some e => (Raise e, w1)
            | None =>
                (Ok tt,
                 emit (Logged INFO ("Report generated at " +:+ report_file))
                      w1)
            end
        end
    end.
Proof.
  unfold process_pdfs_in_folder, with_local.
  unfold bind at 1. unfold call at 1. unfold listdir at 1. cbn [fst snd].
  destruct (os_listdir E w folder_path) as [entries|e]; [|reflexivity].
  unfold bind at 1. rewrite batch_loop_run.
  unfold bind at 1. unfold get_local at 1. cbn [fst snd app].
  unfold bind, call, logging. cbn [fst snd]. rewrite write_csv_run.
  destruct (open_write_error E _ report_file); [reflexivity|].
  cbv zeta. by destruct (snd (rows_written E report_file _ _)).
Qed.

End Batch.

(** * The claims *)

(** ** Detection orchestrator *)

Section Orchestrator.

Context {Image Array Document Page : Type}.
Local Abbreviation Env := (@Env Image Array Document Page).
Local Abbreviation World := (@World Image).

Implicit Types (E : Env) (w : World) (image : Image).

(** C1.  The orchestrator decodes the raw image first, then the
    photometric-enhancement rendering, then the denoise+threshold rendering,
    and stops at the first attempt that yields a payload: it returns that
    attempt's payloads and makes no later call.  When the raw attempt yields
    payloads neither transform is invoked (the only call is the raw decode);
    when the first two attempts yield nothing the result is whatever the
    third yields, so the empty sequence when all three yield none. *)
Theorem read_qr_first_success E image w :
  (forall payloads,
      yields E image payloads -> payloads <> [] ->
      read_qr_codes_from_image E image w
      = (Ok payloads, emits [CallDecode image] w))
  /\
  (forall enhanced payloads,
      yields E image [] ->
      enhance_image E image = Ok enhanced ->
      yields E enhanced payloads -> payloads <> [] ->
      read_qr_codes_from_image E image w
      = (Ok payloads,
         emits [CallDecode image; CallEnhance image; CallDecode enhanced] w))
  /\
  (forall enhanced preprocessed payloads,
      yields E image [] ->
      enhance_image E image = Ok enhanced ->
      yields E enhanced [] ->
      preprocess_image E image = Ok preprocessed ->
      yields E preprocessed payloads ->
      read_qr_codes_from_image E image w
      = (Ok payloads,
         emits [CallDecode image; CallEnhance image; CallDecode enhanced;
                CallPreprocess image; CallDecode preprocessed] w)).
Proof.
  unfold yields. rewrite read_qr_run. unfold orchestrate.
  split; [|split].
  - intros payloads -> Hne. by destruct payloads.
  - intros enhanced payloads -> -> -> Hne. by destruct payloads.
  - by intros enhanced preprocessed payloads -> -> -> -> ->.
Qed.

(** C3, as the code has it.  An exception raised by a preprocessing
    transform is caught and logged, and the orchestrator returns the empty
    sequence for the image; no attempt is made after it.  In particular an
    exception in photometric enhancement ends the chain before the
    denoise+threshold attempt. *)
Theorem transform_exception_ends_chain E image w :
  (forall e,
      yields E image [] ->
      enhance_image E image = Raise e ->
      read_qr_codes_from_image E image w
      = (Ok [],
         emits [CallDecode image; CallEnhance image; decoding_error e] w))
  /\
  (forall enhanced e,
      yields E image [] ->
      enhance_image E image = Ok enhanced ->
      yields E enhanced [] ->
      preprocess_image E image = Raise e ->
      read_qr_codes_from_image E image w
      = (Ok [],
         emits [CallDecode image; CallEnhance image; CallDecode enhanced;
                CallPreprocess image; decoding_error e] w)).
Proof.
  unfold yields. rewrite read_qr_run. unfold orchestrate. split.
  - by intros e -> ->.
  - by intros enhanced e -> -> -> ->.
Qed.

End Orchestrator.

Lemma read_qr_first_success_witness :
  read_qr_codes_from_image (Demo.env Demo.raw_hit) 1 Demo.world0
  = (Ok ["RAW"], emits [CallDecode 1] Demo.world0)
  /\
  read_qr_codes_from_image (Demo.env Demo.enhanced_hit) 1 Demo.world0
  = (Ok ["ENH"], emits [CallDecode 1; CallEnhance 1; CallDecode 101]
                       Demo.world0)
  /\
  read_qr_codes_from_image (Demo.env Demo.threshold_hit) 1 Demo.world0
  = (Ok ["A"], emits [CallDecode 1; CallEnhance 1; CallDecode 101;
                      CallPreprocess 1; CallDecode 201] Demo.world0).
Proof.
  split; [|split].
  - apply (proj1 (read_qr_first_success
                    (Demo.env Demo.raw_hit) 1 Demo.world0));
      [reflexivity | discriminate].
  - apply (proj1 (proj2 (read_qr_first_success
                           (Demo.env Demo.enhanced_hit) 1 Demo.world0)));
      [reflexivity | reflexivity | reflexivity | discriminate].
  - apply (proj2 (proj2 (read_qr_first_success
                           (Demo.env Demo.threshold_hit) 1 Demo.world0)));
      reflexivity.
Defined.

Lemma transform_exception_ends_chain_witness :
  read_qr_codes_from_image (Demo.env Demo.enhance_broken) 1 Demo.world0
  = (Ok [], emits [CallDecode 1; CallEnhance 1;
                   decoding_error (Demo.boom "cannot convert")] Demo.world0)
  /\
  read_qr_codes_from_image (Demo.env Demo.preprocess_broken) 1 Demo.world0
  = (Ok [], emits [CallDecode 1; CallEnhance 1; CallDecode 101;
                   CallPreprocess 1;
                   decoding_error (Demo.boom "bad array")] Demo.world0).
Proof.
  split.
  - apply (proj1 (transform_exception_ends_chain
                    (Demo.env Demo.enhance_broken) 1 Demo.world0));
      reflexivity.
  - apply (proj2 (transform_exception_ends_chain
                    (Demo.env Demo.preprocess_broken) 1 Demo.world0));
      reflexivity.
Defined.

(** C3 as worded fails: with photometric enhancement raising on an image
    whose denoise+threshold rendering decodes to ["A"], the orchestrator
    returns nothing and never invokes denoise+threshold. *)
Lemma enhancement_failure_not_isolated :
  ~ enhancement_failure_is_isolated (Demo.env Demo.enhance_broken) 1
      Demo.world0.
Proof.
  intros H.
  destruct (H (Demo.boom "cannot convert") 201 ["A"]) as [Hres _];
    try reflexivity.
  vm_compute in Hres. discriminate Hres.
Qed.

(** ** File names *)

(** C6.  [sanitize_filename] is a function of its argument alone (two calls
    on the same text give the same text), and no character of its result is
    one of backslash, slash, colon, double quote, star, question mark, the
    angle brackets or the vertical bar. *)
Theorem sanitize_filename_clean (filename : string) :
  (forall again, again = filename ->
                 sanitize_filename again = sanitize_filename filename)
  /\
  Forall (fun c => c ∉ Text.forbidden_chars)
         (Text.chars (sanitize_filename filename)).
Proof.
  split.
  - by intros again ->.
  - unfold sanitize_filename.
    eapply Forall_impl; [apply re_sub_runs_clean|].
    intros c. apply forbidden_false_not_in.
Qed.

Lemma sanitize_filename_clean_witness :
  sanitize_filename "a\/b:*?c<>|d" = "a_b_c_d" /\
  Forall (fun c => c ∉ Text.forbidden_chars)
         (Text.chars (sanitize_filename "a\/b:*?c<>|d")).
Proof.
  split; [reflexivity|].
  apply (proj2 (sanitize_filename_clean "a\/b:*?c<>|d")).
Defined.

(** ** Document processor *)

Section DocumentFacts.

Context {Image Array Document Page : Type}.
Local Abbreviation Env := (@Env Image Array Document Page).
Local Abbreviation World := (@World Image).
Local Abbreviation Event := (@Event Image).

Implicit Types (E : Env) (w : World) (evs : list Event).
Implicit Types (cands : list (Image * QRRecord)) (r : QRRecord).

Lemma string_length_0 (s : string) : String.length s = 0 -> s = "".
Proof. by destruct s. Qed.

Lemma os_path_join_nonempty (a b : string) :
  b <> "" -> Text.os_path_join a b <> "".
Proof.
  intros Hb. unfold Text.os_path_join.
  destruct (String.prefix "/" b); [done|].
  destruct (_ || _); intros H; apply (f_equal String.length) in H;
    rewrite !string_length_app in H; cbn in H;
    apply Hb, string_length_0; lia.
Qed.

Lemma image_filename_nonempty (num : string) (page idx : nat) (id : string) :
  image_filename_of num page idx id <> "".
Proof.
  intros H. apply (f_equal String.length) in H.
  unfold image_filename_of in H. rewrite !string_length_app in H.
  cbn in H. lia.
Qed.

Lemma record_for_path fn num dir (page : nat) (code : nat * string) :
  qr_image_path (record_for fn num dir page code) <> "".
Proof. apply os_path_join_nonempty, image_filename_nonempty. Qed.

(** Every candidate comes from an extracted image and one of the payloads
    the orchestrator returned for it. *)
Lemma candidates_elem E fn num dir (images : list (Image * nat))
  (c : Image * QRRecord) :
  c ∈ candidates E fn num dir images ->
  exists page idx payload,
    (fst c, page) ∈ images /\
    (idx, payload) ∈ enumerate (fst (orchestrate E (fst c))) /\
    snd c = record_for fn num dir page (idx, payload).
Proof.
  unfold candidates. rewrite list_elem_of_In, in_flat_map.
  intros ([image page] & Hin & Hc). apply in_map_iff in Hc
    as ([idx payload] & <- & Hcode). cbn [fst snd] in *.
  exists page, idx, payload.
  split; [by apply list_elem_of_In|]. split; [by apply list_elem_of_In|done].
Qed.

Lemma zip_with_elem {A B C} (f : A -> B -> C) (l : list A) :
  forall (k : list B) a b,
    (a, b) ∈ zip l k -> f a b ∈ zip_with f l k.
Proof.
  induction l as [|x l IH]; intros [|y k] a b H; cbn in *;
    try by apply elem_of_nil in H.
  apply elem_of_cons in H as [[= -> ->]|H];
    [apply list_elem_of_here | apply list_elem_of_further, IH, H].
Qed.

Lemma kept_elem cands (outcomes : list (option exn)) r :
  r ∈ kept cands outcomes ->
  exists c, (c, None) ∈ zip cands outcomes /\ snd c = r.
Proof.
  unfold kept. rewrite list_elem_of_omap.
  intros ([c [e|]] & Hin & Hsome); cbn in Hsome; [done|].
  injection Hsome as <-. by exists c.
Qed.

(** A path that was stored before or is saved successfully in a run holds,
    after the run, an image that some successful save of the run wrote (or
    the one it held before). *)
Lemma replay_keep (saves : list (string * Image * option exn)) :
  forall (m : gmap string Image) path img,
    m !! path = Some img ->
    replay saves m !! path = Some img \/
    exists img', (path, img', None) ∈ saves /\
                 replay saves m !! path = Some img'.
Proof.
  induction saves as [|[[q j] [e|]] saves IH]; intros m path img Hm;
    cbn [replay foldl].
  - by left.
  - destruct (IH m path img Hm) as [H|(img' & Hin & H)]; [by left|].
    right. exists img'. split; [by apply list_elem_of_further | done].
  - destruct (decide (q = path)) as [->|Hne].
    + destruct (IH (<[path := j]> m) path j) as [H|(img' & Hin & H)].
      * apply lookup_insert_eq.
      * right. exists j. split; [apply list_elem_of_here | done].
      * right. exists img'. split; [by apply list_elem_of_further | done].
    + destruct (IH (<[q := j]> m) path img) as [H|(img' & Hin & H)].
      * by rewrite lookup_insert_ne.
      * by left.
      * right. exists img'. split; [by apply list_elem_of_further | done].
Qed.

Lemma replay_lookup (saves : list (string * Image * option exn)) :
  forall (m : gmap string Image) path img,
    (path, img, None) ∈ saves ->
    exists img', (path, img', None) ∈ saves /\
                 replay saves m !! path = Some img'.
Proof.
  induction saves as [|s saves IH]; intros m path img Hin.
  - by apply elem_of_nil in Hin.
  - apply elem_of_cons in Hin as [<-|Hin].
    + cbn [replay foldl].
      destruct (replay_keep saves (<[path := img]> m) path img)
        as [H|(img' & Hin' & H)].
      * apply lookup_insert_eq.
      * exists img. split; [apply list_elem_of_here | done].
      * exists img'. split; [by apply list_elem_of_further | done].
    + destruct s as [[q j] o].
      destruct (IH (replay [(q, j, o)] m) path img Hin) as (img' & Hin' & H).
      exists img'. split; [by apply list_elem_of_further | done].
Qed.

(** What a returned report tells about the run that produced it. *)
Lemma process_pdf_ok E (pdf_path image_folder : string) w
  (report : Report) w' :
  process_pdf E pdf_path image_folder w = (Ok report, w') ->
  exists images w1 records,
    os_makedirs_error E w (save_dir_of pdf_path image_folder) = None /\
    images_of E pdf_path image_folder w = (Ok images, w1) /\
    report = report_of (filename_of pdf_path) records /\
    scanned (candidates E (filename_of pdf_path) (identifier_of pdf_path)
                        (save_dir_of pdf_path image_folder) images)
            w1 [] w' records.
Proof.
  intros Hrun. pose proof (process_pdf_run E pdf_path image_folder w) as H.
  cbv zeta in H. unfold images_of, save_dir_of, identifier_of, filename_of.
  destruct (os_makedirs_error E w _) as [e|]; [congruence|].
  destruct (extract_images_from_pdf E pdf_path _) as [[images|e] w1];
    [|congruence].
  destruct H as (w2 & records & Heq & Hsc).
  rewrite Hrun in Heq. injection Heq as -> ->.
  by exists images, w1, records.
Qed.

(** The records of a scan are candidates, each saved at its path with an
    image of the document. *)
Lemma scanned_records E fn num dir (images : list (Image * nat))
  w1 w' (records : list QRRecord) :
  scanned (candidates E fn num dir images) w1 [] w' records ->
  Forall (fun r =>
            exists image page idx payload,
              (image, page) ∈ images /\
              (idx, payload) ∈ enumerate (fst (orchestrate E image)) /\
              r = record_for fn num dir page (idx, payload) /\
              exists stored page',
                (stored, page') ∈ images /\
                saved_images w' !! qr_image_path r = Some stored)
         records.
Proof.
  intros (outcomes & evs & Hlen & -> & Htr & Hsaves & Hscan & Himg & Hcsv).
  apply Forall_forall. intros r Hr. cbn [app] in Hr.
  apply kept_elem in Hr as (c & Hzip & <-).
  pose proof (elem_of_zip_l _ _ _ _ Hzip) as Hc.
  apply candidates_elem in Hc as (page & idx & payload & Him & Hcode & Hrec).
  exists (fst c), page, idx, payload. repeat split; try done.
  pose proof (zip_with_elem
                (fun c o => (qr_image_path (snd c), fst c, o)) _ _ _ _ Hzip)
    as Hsave.
  rewrite <- Hsaves in Hsave.
  destruct (replay_lookup _ (saved_images w1) _ _ Hsave)
    as (stored & Hin & Hlook).
  rewrite Hsaves in Hin.
  apply elem_of_zip_with in Hin as (c' & o' & Heq & Hc' & _).
  injection Heq as _ -> _.
  apply candidates_elem in Hc' as (page' & _ & _ & Him' & _).
  exists (fst c'), page'. split; [done|]. by rewrite Himg.
Qed.

End DocumentFacts.

Section DocumentClaims.

Context {Image Array Document Page : Type}.
Local Abbreviation Env := (@Env Image Array Document Page).
Local Abbreviation World := (@World Image).
Local Abbreviation Event := (@Event Image).

Implicit Types (E : Env) (w : World) (evs : list Event).
Implicit Types (cands : list (Image * QRRecord)) (r : QRRecord).

Lemma path_marks_record_for fn num dir (page : nat) (code : nat * string) :
  path_marks_detection (record_for fn num dir page code).
Proof.
  pose proof (record_for_path fn num dir page code) as Hpath.
  repeat split; try done.
Qed.

Lemma path_marks_no_qr (fn : string) : path_marks_detection (no_qr_record fn).
Proof.
  unfold path_marks_detection, is_sentinel_text. cbn.
  repeat split; try done; intros H; [by left | destruct H; by left].
Qed.

Lemma path_marks_error (pdf_file : string) :
  path_marks_detection (error_record pdf_file).
Proof.
  unfold path_marks_detection, is_sentinel_text. cbn.
  repeat split; try done; intros H; [by right | destruct H; by right].
Qed.

Lemma report_details_cases fn (records : list QRRecord) (P : QRRecord -> Prop) :
  P (no_qr_record fn) -> Forall P records ->
  Forall P (qr_code_details (report_of fn records)).
Proof.
  intros Hs Hr. destruct records; cbn; [by constructor | done].
Qed.

Lemma process_pdf_path_marks E (pdf_path image_folder : string) w
  (report : Report) w' :
  process_pdf E pdf_path image_folder w = (Ok report, w') ->
  Forall path_marks_detection (qr_code_details report).
Proof.
  intros Hrun.
  apply process_pdf_ok in Hrun as (images & w1 & records & _ & _ & -> & Hsc).
  apply report_details_cases; [apply path_marks_no_qr|].
  eapply Forall_impl; [exact (scanned_records _ _ _ _ _ _ _ _ Hsc)|].
  intros r (image & page & idx & payload & _ & _ & -> & _).
  apply path_marks_record_for.
Qed.

Lemma document_records_path_marks E (folder_path image_folder pdf_file : string)
  w :
  Forall path_marks_detection
         (fst (document_records E folder_path image_folder pdf_file w)).
Proof.
  unfold document_records.
  destruct (process_pdf E _ image_folder _) as [[report|e] w1] eqn:Hrun;
    cbn [fst].
  - by eapply process_pdf_path_marks.
  - constructor; [apply path_marks_error | constructor].
Qed.

Lemma batch_sequences_Forall E (folder_path image_folder : string)
  (P : QRRecord -> Prop) :
  (forall pdf_file w,
      Forall P (fst (document_records E folder_path image_folder pdf_file w)))
  ->
  forall pdf_files w,
    Forall P (concat (fst (batch_sequences E folder_path image_folder
                                           pdf_files w))).
Proof.
  intros HP. induction pdf_files as [|pdf_file rest IH]; intros w;
    cbn [batch_sequences fst concat].
  - constructor.
  - apply Forall_app. split; [apply HP | apply IH].
Qed.

Lemma batch_sequences_length E (folder_path image_folder : string) :
  (forall pdf_file w,
      fst (document_records E folder_path image_folder pdf_file w) <> []) ->
  forall pdf_files w,
    length pdf_files
    <= length (concat (fst (batch_sequences E folder_path image_folder
                                            pdf_files w))).
Proof.
  intros Hone. induction pdf_files as [|pdf_file rest IH]; intros w;
    cbn [batch_sequences fst concat length]; [lia|].
  rewrite length_app.
  specialize (IH (snd (document_records E folder_path image_folder
                                        pdf_file w))).
  specialize (Hone pdf_file w).
  destruct (fst (document_records E folder_path image_folder pdf_file w));
    [done | cbn [length]; lia].
Qed.

(** What a run of the batch processor that returned has written. *)
Lemma process_pdfs_in_folder_ok E
  (folder_path image_folder report_file : string) w w' :
  process_pdfs_in_folder E folder_path image_folder report_file w
  = (Ok tt, w') ->
  exists entries,
    os_listdir E w folder_path = Ok entries /\
    written_csv w' !! report_file
    = Some (csv_header
              :: map csv_row
                   (concat (fst (batch_sequences E folder_path image_folder
                                   (select_pdf_files entries)
                                   (emit (CallListdir folder_path) w))))).
Proof.
  rewrite process_pdfs_in_folder_run.
  destruct (os_listdir E w folder_path) as [entries|e]; [|done].
  cbv zeta. destruct (open_write_error E _ report_file); [done|].
  destruct (snd (rows_written E report_file _ _)) eqn:Hout; [done|].
  intros [= <-]. exists entries. split; [done|].
  cbn. rewrite lookup_insert_eq. by rewrite (rows_written_all _ _ _ _ Hout).
Qed.

(** C5, as the code has it.  For every record of a document report, of a
    document's contribution to a batch and of a consolidated report: the
    saved-image path is non-empty exactly when the record carries a page
    number, that is, when it was recorded for a decoded payload; a record
    without a path has one of the two sentinel payloads, and a record whose
    payload is not a sentinel text has a path. *)
Theorem record_path_marks_detection E :
  (forall pdf_path image_folder w report w',
      process_pdf E pdf_path image_folder w = (Ok report, w') ->
      Forall path_marks_detection (qr_code_details report))
  /\
  (forall folder_path image_folder pdf_file w,
      Forall path_marks_detection
             (fst (document_records E folder_path image_folder pdf_file w)))
  /\
  (forall folder_path image_folder report_file w w',
      process_pdfs_in_folder E folder_path image_folder report_file w
      = (Ok tt, w') ->
      exists all,
        written_csv w' !! report_file = Some (csv_header :: map csv_row all)
        /\ Forall path_marks_detection all).
Proof.
  split; [|split].
  - intros. by eapply process_pdf_path_marks.
  - intros. apply document_records_path_marks.
  - intros folder_path image_folder report_file w w' Hrun.
    apply process_pdfs_in_folder_ok in Hrun as (entries & _ & Hcsv).
    eexists. split; [exact Hcsv|].
    apply batch_sequences_Forall. intros. apply document_records_path_marks.
Qed.

Lemma kept_none (cands : list (Image * QRRecord)) :
  forall outcomes : list (option exn),
    length outcomes = length cands ->
    kept cands outcomes = [] <-> Forall (fun o => o <> None) outcomes.
Proof.
  induction cands as [|c cands IH]; intros [|o outcomes] Hlen;
    try discriminate Hlen.
  - split; [constructor | done].
  - injection Hlen as Hlen. specialize (IH outcomes Hlen).
    rewrite Forall_cons. unfold kept in *. cbn [zip zip_with].
    destruct o as [e|]; cbn.
    + rewrite IH. split; [by split | by intros [_ ?]].
    + split; [done | by intros [? _]].
Qed.

Lemma kept_pages E fn num dir (images : list (Image * nat))
  (outcomes : list (option exn)) :
  Forall (fun r => page_number r <> None)
         (kept (candidates E fn num dir images) outcomes).
Proof.
  apply Forall_forall. intros r Hr.
  apply kept_elem in Hr as (c & Hc & <-).
  apply elem_of_zip_l in Hc.
  by apply candidates_elem in Hc as (page & idx & payload & _ & _ & ->).
Qed.

(** C4.  A report that [process_pdf] returns is never empty.  Its detection
    records are those the scan recorded: one for each payload of each image
    whose save returned, the outcomes being those of the saves of the run.
    When there are such records they are the report; when there is none,
    the report is exactly the one record "NO QR code found" with no page
    and no path, and that is the case exactly when no save returned.
    Every document of a batch, also one whose processing raised,
    contributes at least one record; so the consolidated report has at
    least as many rows below its header as documents were selected. *)
Theorem every_document_yields_a_record E :
  (forall pdf_path image_folder w report w',
      process_pdf E pdf_path image_folder w = (Ok report, w') ->
      qr_code_details report <> [] /\
      exists images w1 (outcomes : list (option exn)) evs,
        let cands :=
          candidates E (filename_of pdf_path) (identifier_of pdf_path)
                     (save_dir_of pdf_path image_folder) images in
        let sentinel :=
          {| pdf_name := filename_of pdf_path;
             page_number := None;
             qr_code_data := "NO QR code found";
             qr_image_path := "" |} in
        images_of E pdf_path image_folder w = (Ok images, w1) /\
        length outcomes = length cands /\
        trace w' = trace w1 ++ evs /\
        saves_of evs
        = zip_with (fun c o => (qr_image_path (snd c), fst c, o))
                   cands outcomes /\
        Forall (fun r => page_number r <> None) (kept cands outcomes) /\
        qr_code_details report
        = match kept cands outcomes with
          | [] => [sentinel]
          | _ :: _ => kept cands outcomes
          end /\
        (qr_code_details report = [sentinel]
         <-> Forall (fun o => o <> None) outcomes))
  /\
  (forall folder_path image_folder pdf_file w all,
      exists records w',
        process_one E folder_path image_folder pdf_file (w, all)
        = (Ok tt, (w', all ++ records)) /\
        records <> [])
  /\
  (forall folder_path image_folder report_file w w',
      process_pdfs_in_folder E folder_path image_folder report_file w
      = (Ok tt, w') ->
      exists entries rows,
        os_listdir E w folder_path = Ok entries /\
        written_csv w' !! report_file = Some (csv_header :: rows) /\
        length (select_pdf_files entries) <= length rows).
Proof.
  assert (forall pdf_path image_folder w report w',
             process_pdf E pdf_path image_folder w = (Ok report, w') ->
             qr_code_details report <> []) as Hdoc.
  { intros ????? Hrun.
    apply process_pdf_ok in Hrun as (? & ? & records & _ & _ & -> & _).
    by destruct records. }
  assert (forall folder_path image_folder pdf_file w,
             fst (document_records E folder_path image_folder pdf_file w)
             <> []) as Hone.
  { intros. unfold document_records.
    destruct (process_pdf E _ image_folder _) as [[report|e] w1] eqn:Hrun;
      cbn [fst]; [by eapply Hdoc | done]. }
  split; [|split].
  - intros pdf_path image_folder w report w' Hrun.
    split; [by eapply Hdoc|].
    apply process_pdf_ok in Hrun as (images & w1 & records & _ & Him & -> & Hsc).
    destruct Hsc as (outcomes & evs & Hlen & Hrec & Htr & Hsaves & _).
    cbn [app] in Hrec. subst records.
    exists images, w1, outcomes, evs. cbv zeta.
    pose proof (kept_pages E (filename_of pdf_path) (identifier_of pdf_path)
                  (save_dir_of pdf_path image_folder) images outcomes)
      as Hpages.
    repeat split; try done.
    + intros Hsentinel. apply (kept_none _ _ Hlen).
      destruct (kept _ outcomes) as [|r records] eqn:Hkept; [done|].
      cbn in Hsentinel. injection Hsentinel as -> ->.
      apply Forall_inv in Hpages. by cbn in Hpages.
    + intros Hall. apply (kept_none _ _ Hlen) in Hall. by rewrite Hall.
  - intros. eexists _, _. split; [apply process_one_run | apply Hone].
  - intros folder_path image_folder report_file w w' Hrun.
    apply process_pdfs_in_folder_ok in Hrun as (entries & Hls & Hcsv).
    eexists entries, _. split; [done|]. split; [exact Hcsv|].
    rewrite length_map. apply batch_sequences_length, Hone.
Qed.

End DocumentClaims.

Section PersistenceClaims.

Context {Image Array Document Page : Type}.
Local Abbreviation Env := (@Env Image Array Document Page).
Local Abbreviation World := (@World Image).
Local Abbreviation Event := (@Event Image).

Implicit Types (E : Env) (w : World) (evs : list Event).
Implicit Types (cands : list (Image * QRRecord)) (r : QRRecord).

(** C2, as the code has it.  On an image that only decodes after
    denoise+threshold the orchestrator returns that rendering's payloads.
    It returns payloads only, so the document processor saves the image it
    took from the image source: every call to save in a run hands over an
    extracted image of the document, and the file at the path of every
    detection record holds an extracted image. *)
Theorem saved_image_is_extracted_original E (pdf_path image_folder : string)
  w (report : Report) w' :
  process_pdf E pdf_path image_folder w = (Ok report, w') ->
  (forall image preprocessed payloads w0,
      only_threshold_succeeds E image preprocessed payloads ->
      fst (read_qr_codes_from_image E image w0) = Ok payloads)
  /\
  exists images w1,
    images_of E pdf_path image_folder w = (Ok images, w1) /\
    (exists evs,
        trace w' = trace w1 ++ evs /\
        forall path img failure,
          (path, img, failure) ∈ saves_of evs ->
          exists page, (img, page) ∈ images) /\
    Forall (fun r =>
              page_number r <> None ->
              exists img page,
                (img, page) ∈ images /\
                saved_images w' !! qr_image_path r = Some img)
           (qr_code_details report).
Proof.
  intros Hrun. split.
  - intros image preprocessed payloads w0
      (Hraw & (enhanced & Henh & Hnone) & Hpre & Hthr & _).
    unfold yields in *. rewrite read_qr_run. unfold orchestrate.
    by rewrite Hraw, Henh, Hnone, Hpre, Hthr.
  - apply process_pdf_ok in Hrun as (images & w1 & records & _ & Him & -> & Hsc).
    exists images, w1. split; [done|]. split.
    + destruct Hsc as (outcomes & evs & _ & _ & Htr & Hsaves & _).
      exists evs. split; [done|]. intros path img failure Hin.
      rewrite Hsaves in Hin.
      apply elem_of_zip_with in Hin as (c & o & [= _ -> _] & Hc & _).
      apply candidates_elem in Hc as (page & _ & _ & Hin & _).
      by exists page.
    + apply report_details_cases; [by intros []|].
      eapply Forall_impl; [exact (scanned_records _ _ _ _ _ _ _ _ Hsc)|].
      intros r (_ & _ & _ & _ & _ & _ & _ & stored & page' & Hin & Hlook) _.
      by exists stored, page'.
Qed.

Lemma kept_cons (c : Image * QRRecord) cands (o : option exn)
  (outcomes : list (option exn)) :
  kept (c :: cands) (o :: outcomes)
  = match o with
    | None => snd c :: kept cands outcomes
    | Some _ => kept cands outcomes
    end.
Proof. by destruct o. Qed.

(** C9.  When the directory is made and the image source returns,
    [process_pdf] returns whatever the saves do.  It attempts one save for
    every payload of every image, in order, each with the image the payload
    was found on; the report holds the records of exactly the payloads
    whose save returned, in that order (the sentinel when there is none),
    so each failed save removes its own record only; and each failed save
    is followed at once by its line in the error log. *)
Theorem save_failure_skips_one_record E (pdf_path image_folder : string) w
  (images : list (Image * nat)) w1 :
  os_makedirs_error E w (save_dir_of pdf_path image_folder) = None ->
  images_of E pdf_path image_folder w = (Ok images, w1) ->
  exists w' (outcomes : list (option exn)) evs,
    let cands :=
      candidates E (filename_of pdf_path) (identifier_of pdf_path)
                 (save_dir_of pdf_path image_folder) images in
    process_pdf E pdf_path image_folder w
    = (Ok (report_of (filename_of pdf_path) (kept cands outcomes)), w') /\
    length outcomes = length cands /\
    trace w' = trace w1 ++ evs /\
    saves_of evs
    = zip_with (fun c o => (qr_image_path (snd c), fst c, o)) cands outcomes /\
    (forall i c,
        cands !! i = Some c -> outcomes !! i = Some None ->
        snd c ∈ kept cands outcomes) /\
    length (kept cands outcomes)
    + length (List.filter (fun o => bool_decide (is_Some o)) outcomes)
    = length cands /\
    (forall before after path img e,
        evs = before ++ CallSave path img (Some e) :: after ->
        exists rest,
          after = Logged ERROR ("Error saving image " +:+ path +:+ ": "
                                +:+ exn_msg e) :: rest).
Proof.
  intros Hmk Him.
  pose proof (process_pdf_run E pdf_path image_folder w) as H.
  cbv zeta in H. unfold images_of, save_dir_of, identifier_of, filename_of in *.
  rewrite Hmk, Him in H.
  destruct H as (w' & records & Hrun & outcomes & evs & Hlen & Hrec & Htr
                 & Hsaves & _ & _ & _ & Hlogged).
  cbn [app] in Hrec. subst records.
  exists w', outcomes, evs. cbv zeta. repeat split; try done.
  - intros i c Hc Ho. unfold kept. apply list_elem_of_omap.
    exists (c, None). split; [|done].
    apply list_elem_of_lookup. exists i. by apply lookup_zip_with_Some;
      exists c, None.
  - clear -Hlen. revert outcomes Hlen.
    induction (candidates _ _ _ _ _) as [|c cands IH];
      intros [|o outcomes] Hlen; cbn in Hlen; try done.
    injection Hlen as Hlen. specialize (IH _ Hlen).
    rewrite kept_cons. cbn [List.filter].
    destruct o as [e|]; cbn [bool_decide decide_rel length]; cbn; lia.
Qed.

Lemma process_pdf_trace E (pdf_path image_folder : string) w :
  exists evs,
    trace (snd (process_pdf E pdf_path image_folder w))
    = trace w ++ CallMakedirs (save_dir_of pdf_path image_folder) :: evs /\
    (evs = [] \/
     exists evs', evs = CallFitzOpen pdf_path :: evs' /\
                  Forall is_scan_event evs') /\
    written_csv (snd (process_pdf E pdf_path image_folder w)) = written_csv w.
Proof.
  pose proof (process_pdf_run E pdf_path image_folder w) as H.
  cbv zeta in H. unfold save_dir_of, identifier_of, filename_of.
  destruct (os_makedirs_error E w _) as [e|].
  { rewrite H. exists []. cbn. repeat split; by left. }
  destruct (extract_images_run E pdf_path
              (emit (CallMakedirs
                       (Text.os_path_join image_folder
                          (prefix_before "." (Text.os_path_basename pdf_path))))
                    w))
    as (logs & Hw1 & Hlogs).
  assert (Forall is_scan_event logs) as Hlogs'.
  { eapply Forall_impl; [exact Hlogs|]. by intros []. }
  destruct (extract_images_from_pdf E pdf_path _) as [[images|e] w1];
    cbn [snd] in Hw1; subst w1.
  - destruct H as (w' & records & -> & _ & evs & _ & _ & Htr & _ & Hscan & _
                   & Hcsv & _).
    cbn [snd]. exists (CallFitzOpen pdf_path :: logs ++ evs). split.
    + rewrite Htr. cbn. rewrite <- !app_assoc. done.
    + split; [|by rewrite Hcsv].
      right. eexists. split; [done|]. by apply Forall_app.
  - rewrite H. cbn [snd]. exists (CallFitzOpen pdf_path :: logs). split.
    + cbn. by rewrite <- app_assoc.
    + split; [|done]. right. by eexists.
Qed.

(** C7.  The document identifier is the first piece of the file name split
    at periods, which is the prefix of the name before its first period (the
    whole name when it has none).  [process_pdf] makes the image subfolder
    under that identifier, and the saved image of every detection record is
    in that subfolder under a name that starts with the identifier. *)
Theorem document_identifier_is_prefix E (pdf_path image_folder : string) w :
  let name := filename_of pdf_path in
  let ident := identifier_of pdf_path in
  index0 (Text.split "." name) = Ok ident /\
  ("."%char ∉ Text.chars ident) /\
  (exists rest,
      name = ident +:+ rest /\
      (rest = "" \/ exists tail, rest = String "." tail)) /\
  (exists evs,
      trace (snd (process_pdf E pdf_path image_folder w))
      = trace w ++ CallMakedirs (Text.os_path_join image_folder ident) :: evs)
  /\
  (forall report w',
      process_pdf E pdf_path image_folder w = (Ok report, w') ->
      Forall (fun r =>
                page_number r <> None ->
                exists page idx,
                  qr_image_path r
                  = Text.os_path_join
                      (Text.os_path_join image_folder ident)
                      (ident +:+ "page" +:+ Text.str_of_nat page +:+ "qr"
                       +:+ Text.str_of_nat (idx + 1) +:+ "id"
                       +:+ sanitize_filename (qr_code_data r) +:+ ".png"))
             (qr_code_details report)).
Proof.
  cbv zeta. unfold identifier_of.
  destruct (prefix_before_spec "." (filename_of pdf_path)) as [Hno Hrest].
  destruct (split_head "." (filename_of pdf_path)) as [pieces Hsplit].
  split; [by rewrite Hsplit|]. split; [done|]. split; [done|]. split.
  - destruct (process_pdf_trace E pdf_path image_folder w) as (evs & Htr & _).
    by exists evs.
  - intros report w' Hrun.
    apply process_pdf_ok in Hrun as (images & w1 & records & _ & _ & -> & Hsc).
    apply report_details_cases; [by intros []|].
    eapply Forall_impl; [exact (scanned_records _ _ _ _ _ _ _ _ Hsc)|].
    intros r (image & page & idx & payload & _ & _ & -> & _) _.
    by exists page, idx.
Qed.

End PersistenceClaims.

(** ** Batch processor *)

Section BatchClaims.

Context {Image Array Document Page : Type}.
Local Abbreviation Env := (@Env Image Array Document Page).
Local Abbreviation World := (@World Image).
Local Abbreviation Event := (@Event Image).

Implicit Types (E : Env) (w : World) (evs : list Event).



Lemma scan_events_quiet evs :
  Forall is_scan_event evs -> listed_of evs = [] /\ opened_of evs = [].
Proof.
  induction 1 as [|ev evs Hev _ [IH1 IH2]]; [done|].
  unfold listed_of, opened_of in *. destruct ev; cbn in *; try done;
    by rewrite ?IH1, ?IH2.
Qed.

Lemma listed_of_app evs1 evs2 :
  listed_of (evs1 ++ evs2) = listed_of evs1 ++ listed_of evs2.
Proof. apply omap_app. Qed.

Lemma opened_of_app evs1 evs2 :
  opened_of (evs1 ++ evs2) = opened_of evs1 ++ opened_of evs2.
Proof. apply omap_app. Qed.

Lemma document_records_trace E (folder_path image_folder pdf_file : string) w :
  exists evs,
    trace (snd (document_records E folder_path image_folder pdf_file w))
    = trace w ++ evs /\
    listed_of evs = [] /\
    opened_of evs `sublist_of` [Text.os_path_join folder_path pdf_file].
Proof.
  unfold document_records.
  set (pdf_path := Text.os_path_join folder_path pdf_file).
  set (w0 := emit (Logged INFO ("Processing " +:+ pdf_path)) w).
  destruct (process_pdf_trace E pdf_path image_folder w0)
    as (evs & Htr & Hshape & _).
  assert (listed_of evs = [] /\ opened_of evs `sublist_of` [pdf_path])
    as [Hl Ho].
  { destruct Hshape as [->|(evs' & -> & Hscan)].
    - split; [done | apply sublist_nil_l].
    - destruct (scan_events_quiet _ Hscan) as [Hl Ho].
      unfold listed_of, opened_of in *. cbn. rewrite Hl, Ho. done. }
  destruct (process_pdf E pdf_path image_folder w0) as [[report|e] w1];
    cbn [snd] in *;
    (eexists (_ :: CallMakedirs _ :: evs ++ [_]); split;
     [cbn; rewrite Htr; cbn; by rewrite <- !app_assoc|]);
    unfold listed_of, opened_of in *; cbn;
    rewrite !omap_app, ?Hl; cbn; rewrite ?app_nil_r; done.
Qed.

Lemma batch_sequences_trace E (folder_path image_folder : string)
  (pdf_files : list string) :
  forall w, exists evs,
    trace (snd (batch_sequences E folder_path image_folder pdf_files w))
    = trace w ++ evs /\
    listed_of evs = [] /\
    opened_of evs `sublist_of` map (Text.os_path_join folder_path) pdf_files.
Proof.
  induction pdf_files as [|pdf_file rest IH]; intros w;
    cbn [batch_sequences snd map].
  - exists []. by rewrite app_nil_r.
  - destruct (document_records_trace E folder_path image_folder pdf_file w)
      as (evs1 & Ht1 & Hl1 & Ho1).
    destruct (IH (snd (document_records E folder_path image_folder
                         pdf_file w)))
      as (evs2 & Ht2 & Hl2 & Ho2).
    exists (evs1 ++ evs2). split; [by rewrite Ht2, Ht1, app_assoc|].
    rewrite listed_of_app, opened_of_app, Hl1, Hl2. split; [done|].
    change (Text.os_path_join folder_path pdf_file
              :: map (Text.os_path_join folder_path) rest)
      with ([Text.os_path_join folder_path pdf_file]
              ++ map (Text.os_path_join folder_path) rest).
    by apply sublist_app.
Qed.

End BatchClaims.

(** ** The claims on concrete documents *)

Lemma saved_image_is_extracted_original_witness :
  exists images w1,
    images_of (Demo.env Demo.threshold_hit) "in/d.pdf" "out" Demo.world0
    = (Ok images, w1) /\
    exists img page,
      (img, page) ∈ images /\
      saved_images
        (snd (process_pdf (Demo.env Demo.threshold_hit) "in/d.pdf" "out"
                          Demo.world0))
        !! "out/d/dpage1qr1idA.png" = Some img.
Proof.
  destruct (saved_image_is_extracted_original
              (Demo.env Demo.threshold_hit) "in/d.pdf" "out" Demo.world0
              {| report_pdf_name := "d.pdf";
                 qr_codes_found := 1;
                 qr_code_details :=
                   [ {| pdf_name := "d.pdf";
                        page_number := Some 1;
                        qr_code_data := "A";
                        qr_image_path := "out/d/dpage1qr1idA.png" |} ] |}
              (snd (process_pdf (Demo.env Demo.threshold_hit) "in/d.pdf"
                                "out" Demo.world0)))
    as (_ & images & w1 & Him & _ & Hall); [reflexivity|].
  exists images, w1. split; [exact Him|].
  apply Forall_inv in Hall. apply Hall. discriminate.
Defined.

(** C2 as worded fails: the only image of [d.pdf] decodes only after
    denoise+threshold, which renders image 1 as image 201, and the file
    saved for the record holds image 1. *)
Lemma threshold_variant_not_persisted :
  ~ persists_successful_variant (Demo.env Demo.threshold_hit) "in/d.pdf"
      "out" Demo.world0.
Proof.
  intros H.
  specialize (H {| report_pdf_name := "d.pdf";
                   qr_codes_found := 1;
                   qr_code_details :=
                     [ {| pdf_name := "d.pdf";
                          page_number := Some 1;
                          qr_code_data := "A";
                          qr_image_path := "out/d/dpage1qr1idA.png" |} ] |}
                (snd (process_pdf (Demo.env Demo.threshold_hit) "in/d.pdf"
                                  "out" Demo.world0))
                [(1, 1)] 1 1 201 ["A"]
                {| pdf_name := "d.pdf";
                   page_number := Some 1;
                   qr_code_data := "A";
                   qr_image_path := "out/d/dpage1qr1idA.png" |}).
  assert (saved_images
            (snd (process_pdf (Demo.env Demo.threshold_hit) "in/d.pdf" "out"
                              Demo.world0))
            !! "out/d/dpage1qr1idA.png" = Some 1) as Hdisk
    by (vm_compute; reflexivity).
  assert (saved_images
            (snd (process_pdf (Demo.env Demo.threshold_hit) "in/d.pdf" "out"
                              Demo.world0))
            !! "out/d/dpage1qr1idA.png" = Some 201) as Hclaim.
  { apply H; try reflexivity; try apply list_elem_of_here.
    repeat split; try reflexivity; [|discriminate].
    exists 101. split; reflexivity. }
  rewrite Hdisk in Hclaim. discriminate Hclaim.
Qed.

Lemma record_path_marks_detection_witness :
  Forall path_marks_detection
         [ {| pdf_name := "d.pdf";
              page_number := Some 1;
              qr_code_data := "NO QR code found";
              qr_image_path := "out/d/dpage1qr1idNO QR code found.png" |} ].
Proof.
  apply (proj1 (record_path_marks_detection (Demo.env Demo.sentinel_payload))
               "in/d.pdf" "out" Demo.world0
               {| report_pdf_name := "d.pdf";
                  qr_codes_found := 0;
                  qr_code_details :=
                    [ {| pdf_name := "d.pdf";
                         page_number := Some 1;
                         qr_code_data := "NO QR code found";
                         qr_image_path :=
                           "out/d/dpage1qr1idNO QR code found.png" |} ] |}
               (snd (process_pdf (Demo.env Demo.sentinel_payload) "in/d.pdf"
                                 "out" Demo.world0))).
  reflexivity.
Defined.

(** C5 as worded fails: a QR code whose text is "NO QR code found" is
    decoded and saved, so its record has a path and a sentinel payload. *)
Lemma sentinel_text_can_have_a_path :
  ~ paths_mark_real_payloads (Demo.env Demo.sentinel_payload) "in/d.pdf"
      "out" Demo.world0.
Proof.
  intros H.
  specialize (H {| report_pdf_name := "d.pdf";
                   qr_codes_found := 0;
                   qr_code_details :=
                     [ {| pdf_name := "d.pdf";
                          page_number := Some 1;
                          qr_code_data := "NO QR code found";
                          qr_image_path :=
                            "out/d/dpage1qr1idNO QR code found.png" |} ] |}
                (snd (process_pdf (Demo.env Demo.sentinel_payload) "in/d.pdf"
                                  "out" Demo.world0))
                eq_refl).
  apply Forall_inv in H. destruct H as [H _]. apply H; [discriminate|].
  by left.
Qed.

Lemma every_document_yields_a_record_witness :
  (exists outcomes : list (option exn),
      length outcomes = 1 /\
      Forall (fun o => o <> None) outcomes /\
      fst (process_pdf (Demo.env Sample.nothing_writable) "in/d.pdf" "out"
                       Demo.world0)
      = Ok {| report_pdf_name := "d.pdf";
              qr_codes_found := 0;
              qr_code_details := [no_qr_record "d.pdf"] |})
  /\
  exists entries rows,
    os_listdir (Demo.env Demo.batch) Demo.world0 "in" = Ok entries /\
    written_csv
      (snd (process_pdfs_in_folder (Demo.env Demo.batch) "in" "out"
                                   "out/report.csv" Demo.world0))
      !! "out/report.csv" = Some (csv_header :: rows) /\
    length (select_pdf_files entries) <= length rows.
Proof.
  split.
  - pose proof (proj1 (every_document_yields_a_record
                         (Demo.env Sample.nothing_writable))
                      "in/d.pdf" "out" Demo.world0
                      {| report_pdf_name := "d.pdf";
                         qr_codes_found := 0;
                         qr_code_details := [no_qr_record "d.pdf"] |}
                      (snd (process_pdf (Demo.env Sample.nothing_writable)
                                        "in/d.pdf" "out" Demo.world0))
                      eq_refl) as [_ H].
    cbv zeta in H.
    destruct H as (images & w1 & outcomes & evs & Him & Hlen & _ & _ & _ & _
                   & Hiff).
    vm_compute in Him. injection Him as <- <-.
    exists outcomes. split; [exact Hlen|]. split; [|reflexivity].
    apply Hiff. reflexivity.
  - apply (proj2 (proj2 (every_document_yields_a_record
                           (Demo.env Demo.batch)))
                 "in" "out" "out/report.csv" Demo.world0).
    vm_compute. reflexivity.
Defined.

Lemma document_identifier_is_prefix_witness :
  identifier_of "in/v2.final.pdf" = "v2" /\
  index0 (Text.split "." (filename_of "in/v2.final.pdf")) = Ok "v2" /\
  exists evs,
    trace (snd (process_pdf (Demo.env Demo.threshold_hit) "in/v2.final.pdf"
                            "out" Demo.world0))
    = trace Demo.world0 ++ CallMakedirs "out/v2" :: evs.
Proof.
  split; [reflexivity|].
  pose proof (document_identifier_is_prefix
                (Demo.env Demo.threshold_hit) "in/v2.final.pdf" "out"
                Demo.world0) as H.
  cbv zeta in H. destruct H as (Hid & _ & _ & Hdir & _).
  split; [exact Hid | exact Hdir].
Defined.

Lemma save_failure_skips_one_record_witness :
  exists w' (outcomes : list (option exn)) evs,
    process_pdf (Demo.env Demo.first_unwritable) "in/d.pdf" "out" Demo.world0
    = (Ok {| report_pdf_name := "d.pdf";
             qr_codes_found := 1;
             qr_code_details :=
               [ {| pdf_name := "d.pdf";
                    page_number := Some 1;
                    qr_code_data := "XYZ";
                    qr_image_path := "out/d/dpage1qr2idXYZ.png" |} ] |},
       w') /\
    length outcomes = 2 /\
    saves_of evs
    = [ ("out/d/dpage1qr1idABC.png", 1, List.nth 0 outcomes None);
        ("out/d/dpage1qr2idXYZ.png", 1, List.nth 1 outcomes None) ].
Proof.
  destruct (save_failure_skips_one_record
              (Demo.env Demo.first_unwritable) "in/d.pdf" "out" Demo.world0
              [(1, 1)]
              (snd (images_of (Demo.env Demo.first_unwritable) "in/d.pdf"
                              "out" Demo.world0))
              eq_refl eq_refl)
    as (w' & outcomes & evs & Hrun & Hlen & _ & Hsaves & _).
  exists w', outcomes, evs.
  destruct outcomes as [|o1 [|o2 [|o3 outcomes]]]; try discriminate Hlen.
  split; [|split; [reflexivity | exact Hsaves]].
  rewrite Hrun. f_equal.
  assert (fst (process_pdf (Demo.env Demo.first_unwritable) "in/d.pdf" "out"
                           Demo.world0)
          = Ok {| report_pdf_name := "d.pdf";
                  qr_codes_found := 1;
                  qr_code_details :=
                    [ {| pdf_name := "d.pdf";
                         page_number := Some 1;
                         qr_code_data := "XYZ";
                         qr_image_path := "out/d/dpage1qr2idXYZ.png" |} ] |})
    as Hfst by reflexivity.
  rewrite Hrun in Hfst. exact Hfst.
Defined.


(** * Further properties of the code *)

(** ** The detection orchestrator beyond the fallback order *)

Section OrchestratorSafety.

Context {Image Array Document Page : Type}.
Local Abbreviation Env := (@Env Image Array Document Page).
Local Abbreviation World := (@World Image).
Local Abbreviation Event := (@Event Image).

Implicit Types (E : Env) (w : World) (image : Image) (evs : list Event).

Lemma orchestrate_detection_events E image :
  Forall is_detection_event (snd (orchestrate E image)).
Proof. unfold orchestrate. repeat case_match; cbn; repeat constructor. Qed.

(** The calls of a run are an initial part of the fallback chain, and a log
    line, when there is one, comes last. *)
Lemma orchestrate_shape E image :
  exists calls logged,
    snd (orchestrate E image) = calls ++ logged /\
    calls `prefix_of` fallback_chain E image /\
    (exists rest, calls = CallDecode image :: rest) /\
    (logged = [] \/ exists e, logged = [decoding_error e]).
Proof.
  unfold orchestrate, fallback_chain.
  destruct (attempt E image) as [[|p1 qr1] [e1|]];
    try (exists [CallDecode image]; eexists;
         split; [reflexivity|]; split; [by eexists|]; split; [by eexists|];
         eauto).
  destruct (enhance_image E image) as [enhanced|e2].
  2:{ exists [CallDecode image; CallEnhance image]. eexists.
      split; [reflexivity|]. split; [by eexists|]. split; [by eexists|].
      eauto. }
  destruct (attempt E enhanced) as [[|p2 qr2] [e2|]];
    try (exists [CallDecode image; CallEnhance image; CallDecode enhanced];
         eexists; split; [reflexivity|]; split; [by eexists|];
         split; [by eexists|]; eauto).
  destruct (preprocess_image E image) as [preprocessed|e3].
  2:{ exists [CallDecode image; CallEnhance image; CallDecode enhanced;
              CallPreprocess image].
      eexists. split; [reflexivity|]. split; [by eexists|].
      split; [by eexists|]. eauto. }
  destruct (attempt E preprocessed) as [qr3 [e3|]];
    (exists [CallDecode image; CallEnhance image; CallDecode enhanced;
             CallPreprocess image; CallDecode preprocessed];
     eexists; split; [reflexivity|]; split; [by eexists|];
     split; [by eexists|]; eauto).
Qed.

(** X1.  Whatever the decoder, the text decoding and the transforms do,
    [read_qr_codes_from_image] returns a list and never raises; it only
    calls the decoder and the transforms and writes log lines, so it saves
    no image and writes no report. *)
Theorem read_qr_never_raises E image w :
  exists payloads evs,
    read_qr_codes_from_image E image w = (Ok payloads, emits evs w) /\
    Forall is_detection_event evs /\
    saved_images (snd (read_qr_codes_from_image E image w)) = saved_images w /\
    written_csv (snd (read_qr_codes_from_image E image w)) = written_csv w.
Proof.
  rewrite read_qr_run. eexists _, _. split; [reflexivity|].
  split; [apply orchestrate_detection_events | by split].
Qed.

(** X2.  In every run the first call is the decoder on the image as it is,
    and the calls made are an initial part of the fallback chain: the raw
    decode, [enhance_image] on the image, the decode of what it returned,
    [preprocess_image] on the image, the decode of what it returned, with
    nothing called after a transform that raised.  So the decoder runs at
    most three times and each transform at most once, enhancement never
    after denoise+threshold; at most one line is logged, and it comes
    last. *)
Theorem read_qr_call_order E image w :
  exists calls logged,
    trace (snd (read_qr_codes_from_image E image w))
    = trace w ++ calls ++ logged /\
    calls `prefix_of`
      ([CallDecode image; CallEnhance image]
       ++ match enhance_image E image with
          | Raise _ => []
          | Ok enhanced =>
              [CallDecode enhanced; CallPreprocess image]
              ++ match preprocess_image E image with
                 | Raise _ => []
                 | Ok preprocessed => [CallDecode preprocessed]
                 end
          end) /\
    (exists rest, calls = CallDecode image :: rest) /\
    (logged = [] \/
     exists e,
       logged = [Logged ERROR ("Error decoding QR code from image: "
                               +:+ exn_msg e)]).
Proof.
  rewrite read_qr_run.
  destruct (orchestrate_shape E image)
    as (calls & logged & Heq & Hpre & Hfirst & Hlog).
  exists calls, logged. cbn [snd trace emits]. by rewrite Heq.
Qed.

(** X3.  When the decoder raises on the image as it is, the orchestrator
    logs the error and returns the empty list at once: neither transform is
    invoked and no rendering is decoded. *)
Theorem raw_decoder_exception_aborts E image w (e : exn) :
  pyzbar_decode E image = Raise e ->
  read_qr_codes_from_image E image w
  = (Ok [], emits [CallDecode image;
                   Logged ERROR ("Error decoding QR code from image: "
                                 +:+ exn_msg e)] w).
Proof.
  intros Hdec. rewrite read_qr_run. unfold orchestrate, attempt.
  by rewrite Hdec.
Qed.

Lemma decoded_texts_stop E (good : list string) (bad : string)
  (rest texts : list string) (e : exn) :
  Forall2 (fun obj text => bytes_decode_utf8 E obj = Ok text) good texts ->
  bytes_decode_utf8 E bad = Raise e ->
  decoded_texts E (good ++ bad :: rest) = (texts, Some e).
Proof.
  intros Hgood Hbad. induction Hgood as [|obj text good texts Hobj _ IH];
    cbn [app decoded_texts].
  - by rewrite Hbad.
  - by rewrite Hobj, IH.
Qed.

(** X4.  When the bytes of a decoded object of the image as it is are not
    valid UTF-8, the texts of the objects before it are returned, the
    objects after it are dropped, the error is logged and no fallback
    attempt is made, also when no text was decoded yet. *)
Theorem invalid_utf8_keeps_earlier_payloads E image w
  (good : list string) (bad : string) (rest texts : list string) (e : exn) :
  pyzbar_decode E image = Ok (good ++ bad :: rest) ->
  Forall2 (fun obj text => bytes_decode_utf8 E obj = Ok text) good texts ->
  bytes_decode_utf8 E bad = Raise e ->
  read_qr_codes_from_image E image w
  = (Ok texts, emits [CallDecode image;
                      Logged ERROR ("Error decoding QR code from image: "
                                    +:+ exn_msg e)] w).
Proof.
  intros Hdec Hgood Hbad. rewrite read_qr_run. unfold orchestrate, attempt.
  rewrite Hdec, (decoded_texts_stop E good bad rest texts e Hgood Hbad).
  by destruct texts.
Qed.

End OrchestratorSafety.

Lemma raw_decoder_exception_aborts_witness :
  read_qr_codes_from_image
    (Sample.env Sample.decoder_broken Sample.no_faults) 1 Demo.world0
  = (Ok [], emits [CallDecode 1;
                   Logged ERROR
                     "Error decoding QR code from image: decoder failed"]
                  Demo.world0).
Proof.
  apply (raw_decoder_exception_aborts
           (Sample.env Sample.decoder_broken Sample.no_faults) 1 Demo.world0
           (Demo.boom "decoder failed")).
  reflexivity.
Defined.

Lemma invalid_utf8_keeps_earlier_payloads_witness :
  read_qr_codes_from_image
    (Sample.env Sample.second_invalid Sample.utf8_faults) 1 Demo.world0
  = (Ok ["ABC"],
     emits [CallDecode 1;
            Logged ERROR
              "Error decoding QR code from image: invalid start byte"]
           Demo.world0).
Proof.
  apply (invalid_utf8_keeps_earlier_payloads
           (Sample.env Sample.second_invalid Sample.utf8_faults) 1
           Demo.world0 ["ABC"] "bad" ["XYZ"] ["ABC"]
           (Demo.boom "invalid start byte")).
  - reflexivity.
  - repeat constructor.
  - reflexivity.
Defined.
(** ** Sanitizing again *)

Section SanitizeFacts.

Import Text.

Lemma re_sub_runs_length (s : string) :
  forall in_run, String.length (re_sub_runs in_run s) <= String.length s.
Proof.
  induction s as [|c rest IH]; intros in_run; cbn [re_sub_runs String.length].
  - lia.
  - pose proof (IH true) as Ht. pose proof (IH false) as Hf.
    destruct (forbidden c); [destruct in_run|]; cbn [String.length]; lia.
Qed.

(** X5.  [sanitize_filename] changes nothing in a text it has already
    sanitized: applying it twice gives what applying it once gives. *)
Theorem sanitize_filename_idempotent (filename : string) :
  sanitize_filename (sanitize_filename filename) = sanitize_filename filename.
Proof.
  unfold sanitize_filename. apply re_sub_runs_id, re_sub_runs_clean.
Qed.

(** X6.  The sanitized text is never longer than the text given, is empty
    only when the text given is empty, and equals the text given exactly
    when that text has none of the nine characters of the pattern. *)
Theorem sanitize_filename_size_and_fixpoints (filename : string) :
  String.length (sanitize_filename filename) <= String.length filename /\
  (sanitize_filename filename = "" <-> filename = "") /\
  (sanitize_filename filename = filename <->
   Forall (fun c => c ∉ forbidden_chars) (chars filename)).
Proof.
  unfold sanitize_filename. split; [apply re_sub_runs_length|]. split.
  - split; [|by intros ->].
    destruct filename as [|c rest]; [done|]. cbn [re_sub_runs].
    by destruct (forbidden c).
  - split.
    + intros Heq. rewrite <- Heq.
      eapply Forall_impl; [apply re_sub_runs_clean|].
      intros c. apply forbidden_false_not_in.
    + intros Hclean. apply re_sub_runs_id.
      eapply Forall_impl; [exact Hclean|].
      intros c Hc. destruct (forbidden c) eqn:Hf; [|done].
      exfalso. apply Hc. unfold forbidden in Hf.
      apply existsb_exists in Hf as (c' & Hin & Heq).
      apply Ascii.eqb_eq in Heq as ->. by apply list_elem_of_In.
Qed.

End SanitizeFacts.

(** ** The image source *)

Section Extraction.

Context {Image Array Document Page : Type}.
Local Abbreviation Env := (@Env Image Array Document Page).
Local Abbreviation World := (@World Image).
Local Abbreviation Event := (@Event Image).

Implicit Types (E : Env) (w : World) (doc : Document).

Lemma extract_inner_run E doc (page_num : nat) (image_list : list nat) :
  forall (start : nat) w (images : list (Image * nat)),
    for_each (zip (seq start (length image_list)) image_list)
      (fun '(img_index, xref) =>
         try_except
           (let* image_bytes := pure (fitz_extract_image E doc xref) in
            let* image := pure (pil_open E image_bytes) in
            append (image, page_num + 1))
           (fun e =>
              if is_io_error e
              then call (logging WARNING
                     ("Skipping invalid image on page "
                      +:+ Text.str_of_nat (page_num + 1) +:+ ", image "
                      +:+ Text.str_of_nat (img_index + 1)
                      +:+ " due to error: " +:+ exn_msg e))
              else call (logging ERROR
                     ("Unsupported image format on page "
                      +:+ Text.str_of_nat (page_num + 1) +:+ ", image "
                      +:+ Text.str_of_nat (img_index + 1) +:+ ": "
                      +:+ exn_msg e))))
      (w, images)
    = (Ok tt,
       (emits (page_logs E doc page_num start image_list) w,
        images ++ page_entries E doc page_num image_list)).
Proof.
  induction image_list as [|xref rest IH]; intros start w images;
    cbn [length seq zip_with for_each page_logs].
  - unfold page_entries. cbn. by rewrite emits_nil, app_nil_r.
  - unfold bind at 1. unfold try_except at 1.
    unfold page_entries. cbn [omap list_omap]. fold (@omap list _).
    unfold load_image, rbind, bind, pure, append.
    destruct (fitz_extract_image E doc xref) as [bytes|e]; cbn [fst snd].
    + destruct (pil_open E bytes) as [image|e]; cbn [fst snd].
      * rewrite IH. unfold page_entries, load_image, rbind.
        by rewrite <- app_assoc.
      * destruct (is_io_error e) eqn:Hio; unfold call, logging;
          cbn [fst snd]; rewrite IH, emit_emits, emits_emits;
          unfold skip_log; rewrite Hio; reflexivity.
    + destruct (is_io_error e) eqn:Hio; unfold call, logging;
        cbn [fst snd]; rewrite IH, emit_emits, emits_emits;
        unfold skip_log; rewrite Hio; reflexivity.
Qed.

Lemma extract_outer_run E doc (page_nums : list nat) :
  forall w (images : list (Image * nat)),
    for_each page_nums
      (fun page_num =>
         let* page := pure (fitz_load_page E doc page_num) in
         let* image_list := pure (fitz_get_images E page) in
         for_each (enumerate image_list) (fun '(img_index, xref) =>
           try_except
             (let* image_bytes := pure (fitz_extract_image E doc xref) in
              let* image := pure (pil_open E image_bytes) in
              append (image, page_num + 1))
             (fun e =>
                if is_io_error e
                then call (logging WARNING
                       ("Skipping invalid image on page "
                        +:+ Text.str_of_nat (page_num + 1) +:+ ", image "
                        +:+ Text.str_of_nat (img_index + 1)
                        +:+ " due to error: " +:+ exn_msg e))
                else call (logging ERROR
                       ("Unsupported image format on page "
                        +:+ Text.str_of_nat (page_num + 1) +:+ ", image "
                        +:+ Text.str_of_nat (img_index + 1) +:+ ": "
                        +:+ exn_msg e)))))
      (w, images)
    = (match snd (fst (scan_pages E doc page_nums)) with
       | None => Ok tt
       | Some e => Raise e
       end,
       (emits (snd (scan_pages E doc page_nums)) w,
        images ++ fst (fst (scan_pages E doc page_nums)))).
Proof.
  induction page_nums as [|page_num rest IH]; intros w images;
    cbn [for_each scan_pages].
  - cbn. by rewrite emits_nil, app_nil_r.
  - unfold bind at 1. unfold page_image_list, rbind.
    unfold bind at 1. unfold pure at 1.
    destruct (fitz_load_page E doc page_num) as [page|e]; cbn [fst snd].
    2:{ by rewrite emits_nil, app_nil_r. }
    unfold bind at 1. unfold pure at 1.
    destruct (fitz_get_images E page) as [image_list|e]; cbn [fst snd].
    2:{ by rewrite emits_nil, app_nil_r. }
    unfold enumerate. rewrite extract_inner_run, IH.
    by rewrite emits_emits, <- app_assoc.
Qed.

(** The whole of [extract_images_from_pdf]. *)
Lemma extract_images_scan E (pdf_path : string) w :
  extract_images_from_pdf E pdf_path w
  = match fitz_open E w pdf_path with
    | Raise e => (Raise e, emit (CallFitzOpen pdf_path) w)
    | Ok doc =>
        let r := scan_pages E doc (seq 0 (fitz_len E doc)) in
        (match snd (fst r) with
         | None => Ok (fst (fst r))
         | Some e => Raise e
         end,
         emits (CallFitzOpen pdf_path :: snd r) w)
    end.
Proof.
  unfold extract_images_from_pdf, with_local.
  unfold bind at 1. unfold call at 1. unfold open_pdf at 1. cbn [fst snd].
  destruct (fitz_open E w pdf_path) as [doc|e]; [|reflexivity].
  unfold bind at 1. rewrite extract_outer_run. cbv zeta.
  destruct (snd (fst (scan_pages E doc _))) as [e|]; cbn [fst snd app];
    by rewrite emit_emits, emits_emits.
Qed.

End Extraction.

Section ExtractionClaims.

Context {Image Array Document Page : Type}.
Local Abbreviation Env := (@Env Image Array Document Page).
Local Abbreviation World := (@World Image).
Local Abbreviation Event := (@Event Image).

Implicit Types (E : Env) (w : World) (doc : Document).

Lemma scan_pages_all_listed E doc (lists : nat -> list nat) (count : nat) :
  forall first,
    (forall n, first <= n < first + count ->
               page_image_list E doc n = Ok (lists n)) ->
    scan_pages E doc (seq first count)
    = (flat_map (fun n => page_entries E doc n (lists n)) (seq first count),
       None,
       flat_map (fun n => page_logs E doc n 0 (lists n)) (seq first count)).
Proof.
  induction count as [|count IH]; intros first Hlists;
    cbn [seq scan_pages flat_map]; [done|].
  rewrite Hlists by lia. rewrite IH by (intros; apply Hlists; lia). done.
Qed.

Lemma scan_pages_error E doc (count : nat) (e : exn) :
  forall first,
    snd (fst (scan_pages E doc (seq first count))) = Some e <->
    exists n,
      first <= n < first + count /\
      (forall m, first <= m < n -> exists l, page_image_list E doc m = Ok l) /\
      page_image_list E doc n = Raise e.
Proof.
  induction count as [|count IH]; intros first; cbn [seq scan_pages].
  - cbn. split; [done | intros (n & ? & _); lia].
  - destruct (page_image_list E doc first) as [l|e'] eqn:Hfirst;
      cbn [fst snd].
    + rewrite IH. split.
      * intros (n & Hn & Hbefore & Hraise). exists n.
        split; [lia|]. split; [|done]. intros m Hm.
        destruct (decide (m = first)) as [->|Hne]; [by eexists|].
        apply Hbefore. lia.
      * intros (n & Hn & Hbefore & Hraise).
        destruct (decide (n = first)) as [->|Hne]; [congruence|].
        exists n. split; [lia|]. split; [|done]. intros m Hm.
        apply Hbefore. lia.
    + split.
      * intros [= ->]. exists first. split; [lia|]. split; [|done].
        intros m Hm. lia.
      * intros (n & Hn & Hbefore & Hraise).
        destruct (decide (n = first)) as [->|Hne]; [congruence|].
        destruct (Hbefore first) as [l Hl]; [lia | congruence].
Qed.

Lemma page_entries_page E doc (page_num : nat) (image_list : list nat) :
  Forall (fun entry => snd entry = page_num + 1)
         (page_entries E doc page_num image_list).
Proof.
  unfold page_entries. apply Forall_forall. intros entry Hin.
  apply list_elem_of_omap in Hin as (xref & _ & Hsome).
  destruct (load_image E doc xref); [|done]. by injection Hsome as <-.
Qed.

Lemma elem_of_map {A B} (f : A -> B) (l : list A) (y : B) :
  y ∈ map f l -> exists x, y = f x /\ x ∈ l.
Proof.
  rewrite list_elem_of_In, in_map_iff. intros (x & <- & Hin).
  exists x. by rewrite list_elem_of_In.
Qed.

Lemma constant_sorted (c : nat) (l : list nat) :
  Forall (fun p => p = c) l -> StronglySorted le l.
Proof.
  induction 1 as [|p l -> Hl IH]; constructor; [done|].
  eapply Forall_impl; [exact Hl|]. cbn. lia.
Qed.

Lemma scan_pages_numbers E doc (count : nat) :
  forall first,
    Forall (fun entry => first + 1 <= snd entry <= first + count)
           (fst (fst (scan_pages E doc (seq first count)))) /\
    StronglySorted le
      (map snd (fst (fst (scan_pages E doc (seq first count))))).
Proof.
  induction count as [|count IH]; intros first; cbn [seq scan_pages].
  - cbn. split; constructor.
  - destruct (page_image_list E doc first) as [l|e]; cbn [fst snd];
      [|split; constructor].
    destruct (IH (S first)) as [Hrange Hsorted].
    pose proof (page_entries_page E doc first l) as Hpage. split.
    + apply Forall_app. split.
      * eapply Forall_impl; [exact Hpage|]. cbn. intros entry ->. lia.
      * eapply Forall_impl; [exact Hrange|]. cbn. intros entry ?. lia.
    + rewrite map_app. apply StronglySorted_app_2.
      * intros p1 p2 Hp1 Hp2.
        apply elem_of_map in Hp1 as (e1 & -> & Hin1).
        apply elem_of_map in Hp2 as (e2 & -> & Hin2).
        rewrite Forall_forall in Hpage, Hrange.
        rewrite (Hpage e1 Hin1). specialize (Hrange e2 Hin2). lia.
      * apply constant_sorted with (c := first + 1).
        apply Forall_forall. intros p Hp.
        apply elem_of_map in Hp as (entry & -> & Hin).
        rewrite Forall_forall in Hpage. by apply Hpage.
      * done.
Qed.

Lemma page_entries_cons E doc (page_num xref : nat) (rest : list nat) :
  page_entries E doc page_num (xref :: rest)
  = match load_image E doc xref with
    | Ok image => (image, page_num + 1) :: page_entries E doc page_num rest
    | Raise _ => page_entries E doc page_num rest
    end.
Proof. unfold page_entries. cbn. by destruct (load_image E doc xref). Qed.

Lemma skipped_levels_cons E doc (xref : nat) (rest : list nat) :
  omap (fun xref =>
          match load_image E doc xref with
          | Ok _ => None
          | Raise e => Some (if is_io_error e then WARNING else ERROR)
          end) (xref :: rest)
  = match load_image E doc xref with
    | Ok _ => []
    | Raise e => [if is_io_error e then WARNING else ERROR]
    end
    ++ omap (fun xref =>
               match load_image E doc xref with
               | Ok _ => None
               | Raise e => Some (if is_io_error e then WARNING else ERROR)
               end) rest.
Proof. cbn. by destruct (load_image E doc xref). Qed.

Lemma levels_of_cons_skip_log (page_num start : nat) (e : exn)
  (logs : list Event) :
  omap level_of (skip_log page_num start e :: logs)
  = (if is_io_error e then WARNING else ERROR) :: omap level_of logs.
Proof. unfold skip_log. by destruct (is_io_error e). Qed.

Lemma page_logs_levels E doc (page_num : nat) (image_list : list nat) :
  forall start,
    Forall is_log (page_logs E doc page_num start image_list) /\
    omap level_of (page_logs E doc page_num start image_list)
    = omap (fun xref =>
              match load_image E doc xref with
              | Ok _ => None
              | Raise e => Some (if is_io_error e then WARNING else ERROR)
              end) image_list /\
    length (page_entries E doc page_num image_list)
    + length (page_logs E doc page_num start image_list)
    = length image_list.
Proof.
  induction image_list as [|xref rest IH]; intros start;
    [by repeat split|].
  destruct (IH (S start)) as (Hlog & Hlev & Hlen).
  rewrite page_entries_cons, skipped_levels_cons. cbn [page_logs].
  destruct (load_image E doc xref) as [image|e].
  - split; [done|]. split; [done|]. cbn [length Nat.add]. by rewrite Hlen.
  - rewrite levels_of_cons_skip_log. split; [|split].
    + constructor; [|done]. unfold skip_log. by destruct (is_io_error e).
    + cbn [app]. by rewrite Hlev.
    + cbn [length]. rewrite Nat.add_succ_r. by rewrite Hlen.
Qed.

(** X7.  When the document opens and each of its pages can be loaded and
    listed, [extract_images_from_pdf] returns, whatever happens to single
    images: an image whose bytes cannot be extracted or opened is left out,
    and the images that load are returned in page order, in the order of
    each page's list, each with its page number counted from 1. *)
Theorem extraction_skips_unloadable_images E (pdf_path : string) w doc
  (lists : nat -> list nat) :
  fitz_open E w pdf_path = Ok doc ->
  (forall n, n < fitz_len E doc -> page_image_list E doc n = Ok (lists n)) ->
  fst (extract_images_from_pdf E pdf_path w)
  = Ok (flat_map
          (fun page_num =>
             omap (fun xref =>
                     match load_image E doc xref with
                     | Ok image => Some (image, page_num + 1)
                     | Raise _ => None
                     end) (lists page_num))
          (seq 0 (fitz_len E doc))).
Proof.
  intros Hopen Hlists. rewrite extract_images_scan, Hopen. cbv zeta.
  rewrite (scan_pages_all_listed E doc lists) by (intros; apply Hlists; lia).
  reflexivity.
Qed.

(** X8.  [extract_images_from_pdf] raises exactly when the document cannot
    be opened, or when some page cannot be loaded or its images cannot be
    listed while every page before it could; the exception is that of the
    opening or of that first failing page, and the images of the earlier
    pages are not returned. *)
Theorem extraction_raises_iff E (pdf_path : string) w (e : exn) :
  fst (extract_images_from_pdf E pdf_path w) = Raise e <->
  fitz_open E w pdf_path = Raise e \/
  exists doc n,
    fitz_open E w pdf_path = Ok doc /\
    n < fitz_len E doc /\
    (forall m, m < n -> exists l, page_image_list E doc m = Ok l) /\
    page_image_list E doc n = Raise e.
Proof.
  rewrite extract_images_scan.
  destruct (fitz_open E w pdf_path) as [doc|e0]; cbv zeta; cbn [fst].
  - pose proof (scan_pages_error E doc (fitz_len E doc) e 0) as Herr.
    split.
    + intros Hraise. right. exists doc.
      destruct (snd (fst (scan_pages E doc _))) as [e1|]; [|done].
      injection Hraise as ->.
      destruct (proj1 Herr eq_refl) as (n & Hn & Hbefore & Hpage).
      exists n. split; [done|]. split; [lia|]. split; [|done].
      intros m Hm. apply Hbefore. lia.
    + intros [Hopen|(doc' & n & [= <-] & Hn & Hbefore & Hpage)]; [done|].
      rewrite (proj2 Herr); [done|].
      exists n. split; [lia|]. split; [|done].
      intros m Hm. apply Hbefore. lia.
  - split.
    + intros [= ->]. by left.
    + by intros [[= ->]|(doc & n & Hopen & _)].
Qed.

(** X9.  The page number of every image returned lies between 1 and the
    number of pages of the document, and the images are returned in
    non-decreasing page order. *)
Theorem extracted_pages_in_range_and_order E (pdf_path : string) w
  (images : list (Image * nat)) w' :
  extract_images_from_pdf E pdf_path w = (Ok images, w') ->
  exists doc,
    fitz_open E w pdf_path = Ok doc /\
    Forall (fun entry => 1 <= snd entry <= fitz_len E doc) images /\
    StronglySorted le (map snd images).
Proof.
  rewrite extract_images_scan.
  destruct (fitz_open E w pdf_path) as [doc|e]; [|done]. cbv zeta.
  destruct (scan_pages_numbers E doc (fitz_len E doc) 0) as [Hrange Hsorted].
  destruct (snd (fst (scan_pages E doc _))); [done|].
  intros [= <- <-]. exists doc. by repeat split.
Qed.

(** X10.  When the document opens and its pages can be loaded and listed,
    the only effects of extraction are the opening of the document and one
    log line for each image left out, in order: a warning when the image
    raised an [IOError], an error otherwise.  Every listed image is either
    returned or logged. *)
Theorem extraction_logs_each_skipped_image E (pdf_path : string) w doc
  (lists : nat -> list nat) :
  fitz_open E w pdf_path = Ok doc ->
  (forall n, n < fitz_len E doc -> page_image_list E doc n = Ok (lists n)) ->
  exists images logs,
    extract_images_from_pdf E pdf_path w
    = (Ok images, emits (CallFitzOpen pdf_path :: logs) w) /\
    Forall is_log logs /\
    omap level_of logs
    = omap (fun xref =>
              match load_image E doc xref with
              | Ok _ => None
              | Raise e => Some (if is_io_error e then WARNING else ERROR)
              end)
           (flat_map lists (seq 0 (fitz_len E doc))) /\
    length images + length logs
    = length (flat_map lists (seq 0 (fitz_len E doc))).
Proof.
  intros Hopen Hlists. rewrite extract_images_scan, Hopen. cbv zeta.
  rewrite (scan_pages_all_listed E doc lists) by (intros; apply Hlists; lia).
  cbn [fst snd]. eexists _, _. split; [reflexivity|].
  generalize (seq 0 (fitz_len E doc)). intros pages.
  induction pages as [|n pages (IHlog & IHlev & IHlen)]; cbn [flat_map].
  - by repeat split.
  - destruct (page_logs_levels E doc n (lists n) 0) as (Hlog & Hlev & Hlen).
    split; [by apply Forall_app|]. split.
    + by rewrite !omap_app, Hlev, IHlev.
    + rewrite !length_app. lia.
Qed.

End ExtractionClaims.

Lemma extraction_skips_unloadable_images_witness :
  fst (extract_images_from_pdf
         (Sample.env Sample.three_pages Sample.xref2_faults) "in/d.pdf"
         Demo.world0)
  = Ok [(1, 1); (3, 3)].
Proof.
  etransitivity.
  - apply (extraction_skips_unloadable_images
             (Sample.env Sample.three_pages Sample.xref2_faults) "in/d.pdf"
             Demo.world0 [[1; 2]; []; [3]]
             (fun n => default [] ([[1; 2]; []; [3]] !! n))).
    + reflexivity.
    + intros [|[|[|n]]] Hn; try reflexivity. cbn in Hn. lia.
  - reflexivity.
Defined.

Lemma extraction_raises_iff_witness :
  fst (extract_images_from_pdf
         (Sample.env Sample.three_pages Sample.page2_faults) "in/d.pdf"
         Demo.world0)
  = Raise (Demo.boom "cannot load page").
Proof.
  apply (proj2 (extraction_raises_iff
                  (Sample.env Sample.three_pages Sample.page2_faults)
                  "in/d.pdf" Demo.world0 (Demo.boom "cannot load page"))).
  right. exists [[1; 2]; []; [3]], 2. split; [reflexivity|].
  split; [cbn; lia|]. split; [|reflexivity].
  intros [|[|m]] Hm; [by eexists | by eexists | lia].
Defined.

Lemma extracted_pages_in_range_and_order_witness :
  exists doc,
    fitz_open (Sample.env Sample.three_pages Sample.xref2_faults)
              Demo.world0 "in/d.pdf" = Ok doc /\
    Forall (fun entry => 1 <= snd entry <= length doc) [(1, 1); (3, 3)] /\
    StronglySorted le (map snd [(1, 1); (3, 3)]).
Proof.
  apply (extracted_pages_in_range_and_order
           (Sample.env Sample.three_pages Sample.xref2_faults) "in/d.pdf"
           Demo.world0 [(1, 1); (3, 3)]
           (snd (extract_images_from_pdf
                   (Sample.env Sample.three_pages Sample.xref2_faults)
                   "in/d.pdf" Demo.world0))).
  reflexivity.
Defined.

Lemma extraction_logs_each_skipped_image_witness :
  exists images logs,
    extract_images_from_pdf
      (Sample.env Sample.three_pages Sample.xref2_faults) "in/d.pdf"
      Demo.world0
    = (Ok images, emits (CallFitzOpen "in/d.pdf" :: logs) Demo.world0) /\
    omap level_of logs = [WARNING] /\
    length images + length logs = 3.
Proof.
  destruct (extraction_logs_each_skipped_image
              (Sample.env Sample.three_pages Sample.xref2_faults) "in/d.pdf"
              Demo.world0 [[1; 2]; []; [3]]
              (fun n => default [] ([[1; 2]; []; [3]] !! n)))
    as (images & logs & Hrun & _ & Hlev & Hlen).
  - reflexivity.
  - intros [|[|[|n]]] Hn; try reflexivity. cbn in Hn. lia.
  - exists images, logs. split; [exact Hrun|]. split; [exact Hlev | exact Hlen].
Defined.

(** ** Characters of the names the code builds *)

Section NameFacts.

Import Text.

Lemma chars_app (a b : string) : chars (a +:+ b) = chars a ++ chars b.
Proof.
  unfold chars. induction a as [|c a IH]; [done|].
  rewrite app_cons. cbn. by rewrite IH.
Qed.

Lemma string_app_assoc (a b c : string) : (a +:+ b) +:+ c = a +:+ b +:+ c.
Proof.
  induction a as [|x a IH]; [done|]. rewrite !app_cons. by rewrite IH.
Qed.

Lemma string_app_empty_r (a : string) : a +:+ "" = a.
Proof. induction a as [|x a IH]; [done|]. rewrite app_cons. by rewrite IH. Qed.

Lemma basename_from_no_slash (s : string) :
  forall scanned : string,
    "/"%char ∉ chars scanned ->
    "/"%char ∉ chars (basename_from s (scanned +:+ s)).
Proof.
  induction s as [|c rest IH]; intros scanned Hscanned; cbn [basename_from].
  - by rewrite string_app_empty_r.
  - destruct (Ascii.eqb c "/") eqn:Hc.
    + apply (IH ""). apply not_elem_of_nil.
    + replace (scanned +:+ String c rest)
        with ((scanned +:+ String c "") +:+ rest)
        by (by rewrite string_app_assoc).
      apply IH. rewrite chars_app. cbn. apply Ascii.eqb_neq in Hc.
      rewrite elem_of_app, list_elem_of_singleton. intros [H|H]; [done|].
      by subst c.
Qed.

Lemma basename_no_slash (p : string) : "/"%char ∉ chars (os_path_basename p).
Proof. apply (basename_from_no_slash p ""). apply not_elem_of_nil. Qed.

Lemma prefix_before_chars (sep c : ascii) (s : string) :
  c ∈ chars (prefix_before sep s) -> c ∈ chars s.
Proof.
  induction s as [|x s IH]; cbn [prefix_before]; [done|].
  destruct (Ascii.eqb x sep); [by intros ?%elem_of_nil|].
  cbn. rewrite !elem_of_cons. intros [->|H]; [by left | right; by apply IH].
Qed.

Lemma string_of_uint_no_slash (d : Decimal.uint) :
  "/"%char ∉ chars (NilEmpty.string_of_uint d).
Proof.
  induction d; cbn; try apply not_elem_of_nil;
    rewrite not_elem_of_cons; by split.
Qed.

Lemma str_of_nat_no_slash (n : nat) : "/"%char ∉ chars (str_of_nat n).
Proof. apply string_of_uint_no_slash. Qed.

Lemma sanitize_no_slash (s : string) :
  "/"%char ∉ chars (sanitize_filename s).
Proof.
  intros Hin. pose proof (re_sub_runs_clean s false) as Hclean.
  rewrite Forall_forall in Hclean. by specialize (Hclean _ Hin).
Qed.

Lemma no_slash_app (a b : string) :
  "/"%char ∉ chars a -> "/"%char ∉ chars b -> "/"%char ∉ chars (a +:+ b).
Proof. intros Ha Hb. rewrite chars_app, elem_of_app. by intros [?|?]. Qed.

Lemma image_filename_no_slash (num : string) (page idx : nat)
  (payload : string) :
  "/"%char ∉ chars num ->
  "/"%char ∉ chars (image_filename_of num page idx
                                      (sanitize_filename payload)).
Proof.
  intros Hnum. unfold image_filename_of.
  repeat apply no_slash_app;
    first [ exact Hnum | apply str_of_nat_no_slash | apply sanitize_no_slash
          | compute_done ].
Qed.

Lemma identifier_no_slash (pdf_path : string) :
  "/"%char ∉ chars (identifier_of pdf_path).
Proof.
  intros Hin. apply prefix_before_chars in Hin.
  by apply (basename_no_slash pdf_path).
Qed.

(** [os.path.join(a, b)] for a [b] without slash: [a], a separator when [a]
    needs one, and [b]. *)
Lemma os_path_join_relative (a b : string) :
  "/"%char ∉ chars b ->
  os_path_join a b = a +:+ b \/ os_path_join a b = a +:+ "/" +:+ b.
Proof.
  intros Hb. unfold os_path_join.
  destruct b as [|c b]; [cbn; destruct (_ || _); auto|].
  cbn [String.prefix].
  destruct (Ascii.ascii_dec "/" c) as [<-|Hne].
  - exfalso. apply Hb. cbn. apply list_elem_of_here.
  - destruct (_ || _); auto.
Qed.



End NameFacts.

(** ** The document processor beyond the claims *)

Section DocumentExtras.

Context {Image Array Document Page : Type}.
Local Abbreviation Env := (@Env Image Array Document Page).
Local Abbreviation World := (@World Image).
Local Abbreviation Event := (@Event Image).

Implicit Types (E : Env) (w : World) (evs : list Event) (r : QRRecord).

Lemma enumerate_lookup {X} (xs : list X) (idx : nat) (x : X) :
  (idx, x) ∈ enumerate xs -> xs !! idx = Some x.
Proof.
  unfold enumerate. intros Hin.
  apply list_elem_of_lookup in Hin as [i Hi].
  apply lookup_zip_with_Some in Hi as (idx' & x' & [= <- <-] & Hseq & Hx).
  apply lookup_seq in Hseq as [-> _]. done.
Qed.

Lemma replay_untouched (saves : list (string * Image * option exn))
  (path : string) :
  forall m : gmap string Image,
    (forall img, (path, img, None) ∉ saves) ->
    replay saves m !! path = m !! path.
Proof.
  induction saves as [|[[q j] [e|]] saves IH]; intros m Hnot;
    cbn [replay foldl]; [done| |].
  - apply IH. intros img Hin. apply (Hnot img). by apply list_elem_of_further.
  - fold (replay saves (<[q := j]> m)). rewrite IH.
    + apply lookup_insert_ne. intros ->. apply (Hnot j).
      apply list_elem_of_here.
    + intros img Hin. apply (Hnot img). by apply list_elem_of_further.
Qed.

(** X11.  [process_pdf] raises exactly when the image directory cannot be
    made or the image source raises, with that exception.  When it raises
    it has saved no image and written no report; when the directory cannot
    be made the document is not even opened. *)
Theorem process_pdf_raises_iff E (pdf_path image_folder : string) w (e : exn) :
  (fst (process_pdf E pdf_path image_folder w) = Raise e <->
   os_makedirs_error E w (save_dir_of pdf_path image_folder) = Some e \/
   (os_makedirs_error E w (save_dir_of pdf_path image_folder) = None /\
    fst (images_of E pdf_path image_folder w) = Raise e))
  /\
  (fst (process_pdf E pdf_path image_folder w) = Raise e ->
   saved_images (snd (process_pdf E pdf_path image_folder w))
   = saved_images w /\
   written_csv (snd (process_pdf E pdf_path image_folder w)) = written_csv w)
  /\
  (os_makedirs_error E w (save_dir_of pdf_path image_folder) = Some e ->
   snd (process_pdf E pdf_path image_folder w)
   = emit (CallMakedirs (save_dir_of pdf_path image_folder)) w).
Proof.
  pose proof (process_pdf_run E pdf_path image_folder w) as H.
  cbv zeta in H. unfold images_of, save_dir_of, identifier_of, filename_of.
  destruct (os_makedirs_error E w _) as [e0|].
  { rewrite H. cbn [fst snd]. split; [|by split].
    split; [intros [= ->]; by left | by intros [[= ->]|[? _]]]. }
  destruct (extract_images_run E pdf_path
              (emit (CallMakedirs
                       (Text.os_path_join image_folder
                          (prefix_before "." (Text.os_path_basename pdf_path))))
                    w))
    as (logs & Hw1 & _).
  destruct (extract_images_from_pdf E pdf_path _) as [[images|e0] w1];
    cbn [fst snd] in *.
  - destruct H as (w' & records & -> & _). cbn [fst snd].
    split; [|by split]. split; [done | by intros [?|[_ ?]]].
  - rewrite H. cbn [fst snd]. subst w1. split; [|by split].
    split; [intros [= ->]; by right | by intros [?|[_ [= ->]]]].
Qed.

(** X12.  In a report that [process_pdf] returns, the count of codes found
    is the number of records when the first record's payload is not the
    text "NO QR code found", and then every record is a detection; it is 0
    when the first record's payload is that text, which is the case of the
    sentinel record and also of a first decoded payload with that very
    text. *)
Theorem qr_codes_found_counts E (pdf_path image_folder : string) w
  (report : Report) w' :
  process_pdf E pdf_path image_folder w = (Ok report, w') ->
  exists first rest,
    qr_code_details report = first :: rest /\
    (qr_code_data first <> "NO QR code found" ->
     qr_codes_found report = length (qr_code_details report) /\
     Forall (fun r => page_number r <> None) (qr_code_details report)) /\
    (qr_code_data first = "NO QR code found" -> qr_codes_found report = 0).
Proof.
  intros Hrun.
  apply process_pdf_ok in Hrun as (images & w1 & records & _ & _ & -> & Hsc).
  pose proof (scanned_records _ _ _ _ _ _ _ _ Hsc) as Hrec.
  destruct records as [|first rest]; cbn.
  - eexists _, _. split; [reflexivity|]. by split.
  - exists first, rest. split; [reflexivity|]. split.
    + intros Hne. apply String.eqb_neq in Hne. rewrite Hne. cbn.
      split; [done|]. eapply Forall_impl; [exact Hrec|].
      by intros r (image & page & idx & payload & _ & _ & -> & _).
    + intros Heq. apply String.eqb_eq in Heq. by rewrite Heq.
Qed.

(** X13.  Every detection record of a report names the document by the
    base name of its path, carries the page number of an image the image
    source returned, and has as payload the element at some position [idx]
    of what the orchestrator returns for that image; the file name of its
    saved image carries that page number and [idx + 1], so codes of one
    image are numbered from 1 in the order they were decoded. *)
Theorem detection_records_provenance E (pdf_path image_folder : string) w
  (report : Report) w' :
  process_pdf E pdf_path image_folder w = (Ok report, w') ->
  report_pdf_name report = Text.os_path_basename pdf_path /\
  exists images w1,
    images_of E pdf_path image_folder w = (Ok images, w1) /\
    Forall (fun r =>
              pdf_name r = Text.os_path_basename pdf_path /\
              (page_number r <> None ->
               exists image page idx payloads,
                 (image, page) ∈ images /\
                 page_number r = Some page /\
                 (forall w0,
                     fst (read_qr_codes_from_image E image w0) = Ok payloads)
                 /\
                 payloads !! idx = Some (qr_code_data r) /\
                 qr_image_path r
                 = Text.os_path_join
                     (save_dir_of pdf_path image_folder)
                     (image_filename_of (identifier_of pdf_path) page idx
                        (sanitize_filename (qr_code_data r)))))
           (qr_code_details report).
Proof.
  intros Hrun.
  apply process_pdf_ok in Hrun as (images & w1 & records & _ & Him & -> & Hsc).
  split; [by destruct records|].
  exists images, w1. split; [done|].
  apply report_details_cases; [by split|].
  eapply Forall_impl; [exact (scanned_records _ _ _ _ _ _ _ _ Hsc)|].
  intros r (image & page & idx & payload & Hin & Hcode & -> & _).
  split; [done|]. intros _.
  exists image, page, idx, (fst (orchestrate E image)).
  split; [done|]. split; [done|]. split; [|split; [|done]].
  - intros w0. by rewrite read_qr_run.
  - by apply enumerate_lookup.
Qed.

Lemma long_name_proper (name : string) :
  2 < String.length name -> name ∉ [""; "."; ".."].
Proof.
  intros Hlen Hin. repeat apply elem_of_cons in Hin as [->|Hin];
    [cbn in Hlen; lia .. | by apply elem_of_nil in Hin].
Qed.

Lemma image_filename_long (num : string) (page idx : nat) (id : string) :
  2 < String.length (image_filename_of num page idx id).
Proof.
  unfold image_filename_of. rewrite !string_length_app. cbn. lia.
Qed.

(** X14.  Whatever text the QR codes carry, every image [process_pdf] saves
    is written directly inside the document's own directory, which is the
    image folder joined with the document identifier: its path is that
    directory joined with a file name that has no slash and is neither
    empty nor [.] nor [..].  The stored image at any path that is not such
    an entry is what it was before the call. *)
Theorem saves_stay_in_document_directory E (pdf_path image_folder : string) w
  (report : Report) w' :
  process_pdf E pdf_path image_folder w = (Ok report, w') ->
  (exists evs,
      trace w' = trace (snd (images_of E pdf_path image_folder w)) ++ evs /\
      forall path img failure,
        (path, img, failure) ∈ saves_of evs ->
        directly_in (save_dir_of pdf_path image_folder) path)
  /\
  (forall path,
      ~ directly_in (save_dir_of pdf_path image_folder) path ->
      saved_images w' !! path = saved_images w !! path).
Proof.
  intros Hrun.
  apply process_pdf_ok in Hrun as (images & w1 & records & _ & Him & -> & Hsc).
  destruct Hsc as (outcomes & evs & _ & _ & Htr & Hsaves & _ & Hdisk & _).
  assert (forall path img failure,
             (path, img, failure) ∈ saves_of evs ->
             directly_in (save_dir_of pdf_path image_folder) path) as Hin_dir.
  { intros path img failure Hin. rewrite Hsaves in Hin.
    apply elem_of_zip_with in Hin as (c & o & [= -> _ _] & Hc & _).
    apply candidates_elem in Hc as (page & idx & payload & _ & _ & ->).
    cbn [qr_image_path record_for fst snd].
    pose proof (image_filename_no_slash (identifier_of pdf_path) page idx
                  payload (identifier_no_slash pdf_path)) as Hname.
    eexists. split; [|split; [exact Hname | reflexivity]].
    apply long_name_proper, image_filename_long. }
  split.
  - exists evs. rewrite Him. by split.
  - intros path Hout. rewrite Hdisk, replay_untouched.
    + unfold images_of in Him.
      destruct (extract_images_run E pdf_path
                  (emit (CallMakedirs (save_dir_of pdf_path image_folder)) w))
        as (logs & Hw1 & _).
      rewrite Him in Hw1. cbn [snd] in Hw1. by subst w1.
    + intros img Hin. apply Hout. by eapply Hin_dir.
Qed.

End DocumentExtras.

Lemma process_pdf_raises_iff_witness :
  process_pdf (Sample.env Demo.threshold_hit Sample.makedirs_faults)
              "in/d.pdf" "out" Demo.world0
  = (Raise (Exn true "permission denied"),
     emit (CallMakedirs "out/d") Demo.world0).
Proof.
  pose proof (process_pdf_raises_iff
                (Sample.env Demo.threshold_hit Sample.makedirs_faults)
                "in/d.pdf" "out" Demo.world0
                (Exn true "permission denied")) as (Hiff & _ & Hworld).
  apply pair_equal_spec. split.
  - apply (proj2 Hiff). left. reflexivity.
  - apply Hworld. reflexivity.
Defined.

Lemma qr_codes_found_counts_witness :
  exists first rest,
    [ {| pdf_name := "d.pdf";
         page_number := Some 1;
         qr_code_data := "NO QR code found";
         qr_image_path := "out/d/dpage1qr1idNO QR code found.png" |} ]
    = first :: rest /\
    (qr_code_data first = "NO QR code found" -> 0 = 0).
Proof.
  destruct (qr_codes_found_counts
              (Demo.env Demo.sentinel_payload) "in/d.pdf" "out" Demo.world0
              {| report_pdf_name := "d.pdf";
                 qr_codes_found := 0;
                 qr_code_details :=
                   [ {| pdf_name := "d.pdf";
                        page_number := Some 1;
                        qr_code_data := "NO QR code found";
                        qr_image_path :=
                          "out/d/dpage1qr1idNO QR code found.png" |} ] |}
              (snd (process_pdf (Demo.env Demo.sentinel_payload) "in/d.pdf"
                                "out" Demo.world0))
              eq_refl)
    as (first & rest & Hdetails & _ & Hzero).
  exists first, rest. split; [exact Hdetails | exact Hzero].
Defined.

Lemma detection_records_provenance_witness :
  exists images w1,
    images_of (Demo.env Demo.first_unwritable) "in/d.pdf" "out" Demo.world0
    = (Ok images, w1) /\
    exists image page idx payloads,
      (image, page) ∈ images /\
      (forall w0,
          fst (read_qr_codes_from_image (Demo.env Demo.first_unwritable)
                                        image w0) = Ok payloads) /\
      payloads !! idx = Some "XYZ" /\
      "out/d/dpage1qr2idXYZ.png"
      = Text.os_path_join "out/d"
          (image_filename_of "d" page idx (sanitize_filename "XYZ")).
Proof.
  destruct (detection_records_provenance
              (Demo.env Demo.first_unwritable) "in/d.pdf" "out" Demo.world0
              {| report_pdf_name := "d.pdf";
                 qr_codes_found := 1;
                 qr_code_details :=
                   [ {| pdf_name := "d.pdf";
                        page_number := Some 1;
                        qr_code_data := "XYZ";
                        qr_image_path := "out/d/dpage1qr2idXYZ.png" |} ] |}
              (snd (process_pdf (Demo.env Demo.first_unwritable) "in/d.pdf"
                                "out" Demo.world0))
              eq_refl)
    as (_ & images & w1 & Him & Hall).
  exists images, w1. split; [exact Him|].
  apply Forall_inv in Hall. destruct Hall as [_ Hdet].
  destruct (Hdet ltac:(discriminate))
    as (image & page & idx & payloads & Hin & _ & Hpay & Hidx & Hpath).
  exists image, page, idx, payloads.
  split; [exact Hin|]. split; [exact Hpay|]. split; [exact Hidx | exact Hpath].
Defined.

Lemma saves_stay_in_document_directory_witness :
  saved_images
    (snd (process_pdf (Demo.env Sample.traversal_payload) "in/d.pdf" "out"
                      Demo.world0))
    !! "out/d/../../etc/passwd"
  = None.
Proof.
  destruct (process_pdf (Demo.env Sample.traversal_payload) "in/d.pdf" "out"
                        Demo.world0)
    as [[report|e] w'] eqn:Hrun; [|vm_compute in Hrun; discriminate Hrun].
  cbn [snd].
  rewrite (proj2 (saves_stay_in_document_directory
                    (Demo.env Sample.traversal_payload) "in/d.pdf" "out"
                    Demo.world0 report w' Hrun)); [reflexivity|].
  intros (name & _ & Hslash & Heq).
  change (save_dir_of "in/d.pdf" "out") with "out/d" in Heq.
  destruct (os_path_join_relative "out/d" name Hslash) as [Hjoin|Hjoin];
    rewrite Hjoin in Heq.
  - change "out/d/../../etc/passwd" with ("out/d" +:+ "/../../etc/passwd")
      in Heq.
    apply (inj (String.app "out/d")) in Heq. subst name.
    apply Hslash. apply list_elem_of_here.
  - change "out/d/../../etc/passwd" with ("out/d" +:+ "/" +:+ "../../etc/passwd")
      in Heq.
    apply (inj (String.app "out/d")) in Heq.
    apply (inj (String.app "/")) in Heq. subst name.
    apply Hslash. compute_done.
Defined.

(** A file next to a directory, whose name only begins like the
    directory's, is not inside it. *)
Example sibling_not_directly_in : ~ directly_in "out/d" "out/dEVIL.png".
Proof.
  intros (name & _ & Hslash & Heq).
  destruct (os_path_join_relative "out/d" name Hslash) as [Hjoin|Hjoin];
    rewrite Hjoin in Heq.
  - change "out/dEVIL.png" with ("out/d" +:+ "EVIL.png") in Heq.
    apply (inj (String.app "out/d")) in Heq. subst name.
    vm_compute in Hjoin. discriminate Hjoin.
  - change "out/dEVIL.png" with ("out/d" +:+ "EVIL.png") in Heq.
    apply (inj (String.app "out/d")) in Heq. discriminate Heq.
Qed.

(** ** Reports and batches beyond the claims *)

Section ReportExtras.

Context {Image Array Document Page : Type}.
Local Abbreviation Env := (@Env Image Array Document Page).
Local Abbreviation World := (@World Image).
Local Abbreviation Event := (@Event Image).

Implicit Types (E : Env) (w : World) (evs : list Event) (r : QRRecord).




Lemma document_records_csv E (folder_path image_folder pdf_file : string) w :
  written_csv (snd (document_records E folder_path image_folder pdf_file w))
  = written_csv w.
Proof.
  unfold document_records.
  destruct (process_pdf_trace E (Text.os_path_join folder_path pdf_file)
              image_folder
              (emit (Logged INFO
                       ("Processing "
                        +:+ Text.os_path_join folder_path pdf_file)) w))
    as (_ & _ & _ & Hcsv).
  destruct (process_pdf E _ image_folder _) as [[report|e] w1];
    cbn in *; by rewrite Hcsv.
Qed.

Lemma batch_sequences_csv E (folder_path image_folder : string)
  (pdf_files : list string) :
  forall w,
    written_csv (snd (batch_sequences E folder_path image_folder pdf_files w))
    = written_csv w.
Proof.
  induction pdf_files as [|pdf_file rest IH]; intros w;
    cbn [batch_sequences snd]; [done|].
  by rewrite IH, document_records_csv.
Qed.



Lemma basename_from_plain (f : string) :
  "/"%char ∉ Text.chars f ->
  forall current, Text.basename_from f current = current.
Proof.
  induction f as [|c f IH]; intros Hf current; cbn [Text.basename_from];
    [done|].
  cbn in Hf. rewrite not_elem_of_cons in Hf. destruct Hf as [Hc Hf].
  destruct (Ascii.eqb c "/") eqn:Heq.
  - apply Ascii.eqb_eq in Heq. by subst c.
  - by apply IH.
Qed.

Lemma basename_from_after_slash (a f : string) :
  "/"%char ∉ Text.chars f ->
  forall current,
    Text.basename_from (a +:+ String "/" f) current = f.
Proof.
  intros Hf. induction a as [|c a IH]; intros current.
  - rewrite app_empty. cbn [Text.basename_from]. rewrite Ascii.eqb_refl.
    by apply basename_from_plain.
  - rewrite app_cons. cbn [Text.basename_from].
    destruct (Ascii.eqb c "/"); apply IH.
Qed.

(** The base name of a folder path joined with a name without slash is that
    name. *)
Lemma basename_join (folder_path f : string) :
  "/"%char ∉ Text.chars f ->
  Text.os_path_basename (Text.os_path_join folder_path f) = f.
Proof.
  intros Hf. unfold Text.os_path_basename, Text.os_path_join.
  assert (String.prefix "/" f = false) as ->.
  { destruct f as [|c f]; [done|]. cbn [String.prefix].
    destruct (Ascii.ascii_dec "/" c) as [<-|Hne]; [|done].
    exfalso. apply Hf. apply list_elem_of_here. }
  destruct (String.eqb folder_path "") eqn:Hempty; cbn [orb].
  - apply String.eqb_eq in Hempty as ->. rewrite app_empty.
    by apply basename_from_plain.
  - destruct (Text.endswith folder_path "/") eqn:Hend.
    + apply endswith_spec in Hend as [stem ->].
      rewrite string_app_assoc. change ("/" +:+ f) with (String "/" f).
      by apply basename_from_after_slash.
    + change ("/" +:+ f) with (String "/" f).
      by apply basename_from_after_slash.
Qed.

Lemma process_pdf_names E (pdf_path image_folder : string) w
  (report : Report) w' :
  process_pdf E pdf_path image_folder w = (Ok report, w') ->
  Forall (fun r => pdf_name r = Text.os_path_basename pdf_path)
         (qr_code_details report).
Proof.
  intros Hrun.
  apply process_pdf_ok in Hrun as (images & w1 & records & _ & _ & -> & Hsc).
  apply report_details_cases; [done|].
  eapply Forall_impl; [exact (scanned_records _ _ _ _ _ _ _ _ Hsc)|].
  by intros r (image & page & idx & payload & _ & _ & -> & _).
Qed.

Lemma document_records_names E (folder_path image_folder pdf_file : string)
  w :
  "/"%char ∉ Text.chars pdf_file ->
  fst (document_records E folder_path image_folder pdf_file w) <> [] /\
  Forall (fun r => pdf_name r = pdf_file)
         (fst (document_records E folder_path image_folder pdf_file w)).
Proof.
  intros Hf. unfold document_records.
  destruct (process_pdf E _ image_folder _) as [[report|e] w1] eqn:Hrun;
    cbn [fst].
  - split.
    + apply process_pdf_ok in Hrun as (? & ? & records & _ & _ & -> & _).
      by destruct records.
    + apply process_pdf_names in Hrun. by rewrite basename_join in Hrun.
  - split; [done|]. by repeat constructor.
Qed.

Lemma batch_sequences_names E (folder_path image_folder : string)
  (pdf_files : list string) :
  Forall (fun name => "/"%char ∉ Text.chars name) pdf_files ->
  forall w,
    (forall r,
        r ∈ concat (fst (batch_sequences E folder_path image_folder
                                         pdf_files w)) ->
        pdf_name r ∈ pdf_files) /\
    (forall name,
        name ∈ pdf_files ->
        exists r,
          r ∈ concat (fst (batch_sequences E folder_path image_folder
                                           pdf_files w)) /\
          pdf_name r = name).
Proof.
  induction 1 as [|pdf_file rest Hfile _ IH]; intros w0;
    cbn [batch_sequences fst concat].
  - split; [by intros r ?%elem_of_nil | by intros name ?%elem_of_nil].
  - destruct (document_records_names E folder_path image_folder pdf_file w0
                Hfile) as [Hne Hnames].
    destruct (IH (snd (document_records E folder_path image_folder pdf_file
                                        w0))) as [IHrows IHsel].
    split.
    + intros r Hr. apply elem_of_app in Hr as [Hr|Hr].
      * rewrite Forall_forall in Hnames. rewrite (Hnames r Hr).
        apply list_elem_of_here.
      * apply list_elem_of_further. by apply IHrows.
    + intros name Hname. apply elem_of_cons in Hname as [->|Hname].
      * destruct (fst (document_records E folder_path image_folder pdf_file
                                        w0)) as [|r records] eqn:Hrecs;
          [done|].
        exists r. split; [apply elem_of_app; left; apply list_elem_of_here|].
        by apply Forall_inv in Hnames.
      * destruct (IHsel name Hname) as (r & Hr & Hn).
        exists r. split; [apply elem_of_app; by right | done].
Qed.

(** X18.  When the names the listing returns contain no slash, the
    documents named in the consolidated report are exactly the selected
    entries: every row names a selected entry, and every selected entry is
    named by at least one row. *)
Theorem report_names_selected_entries E
  (folder_path image_folder report_file : string) w w'
  (entries : list string) :
  os_listdir E w folder_path = Ok entries ->
  Forall (fun name => "/"%char ∉ Text.chars name) entries ->
  process_pdfs_in_folder E folder_path image_folder report_file w
  = (Ok tt, w') ->
  exists all,
    written_csv w' !! report_file = Some (csv_header :: map csv_row all) /\
    (forall r, r ∈ all -> pdf_name r ∈ select_pdf_files entries) /\
    (forall name,
        name ∈ select_pdf_files entries ->
        exists r, r ∈ all /\ pdf_name r = name).
Proof.
  intros Hls Hplain Hrun.
  apply process_pdfs_in_folder_ok in Hrun as (entries' & Hls' & Hcsv).
  rewrite Hls in Hls'. injection Hls' as <-.
  eexists. split; [exact Hcsv|].
  apply batch_sequences_names.
  unfold select_pdf_files. rewrite Forall_forall in Hplain.
  apply Forall_forall. intros name Hin.
  apply list_elem_of_In, filter_In in Hin as [Hin _].
  by apply Hplain, list_elem_of_In.
Qed.

End ReportExtras.

(** ** The documents of a batch *)

Section BatchSelection.

Context {Image Array Document Page : Type}.
Local Abbreviation Env := (@Env Image Array Document Page).
Local Abbreviation World := (@World Image).
Local Abbreviation Event := (@Event Image).

Implicit Types (E : Env) (w : World) (evs : list Event).

Lemma made_of_app evs1 evs2 :
  made_of (evs1 ++ evs2) = made_of evs1 ++ made_of evs2.
Proof. apply omap_app. Qed.

Lemma scan_events_no_dirs evs : Forall is_scan_event evs -> made_of evs = [].
Proof.
  induction 1 as [|ev evs Hev _ IH]; [done|].
  unfold made_of in *. destruct ev; cbn in *; try done.
Qed.

(** The calls of [process_pdf]: it makes the document's directory, and
    opens the document when that directory could be made. *)
Lemma process_pdf_calls E (pdf_path image_folder : string) w :
  exists evs,
    trace (snd (process_pdf E pdf_path image_folder w)) = trace w ++ evs /\
    listed_of evs = [] /\
    made_of evs = [save_dir_of pdf_path image_folder] /\
    opened_of evs
    = match os_makedirs_error E w (save_dir_of pdf_path image_folder) with
      | None => [pdf_path]
      | Some _ => []
      end.
Proof.
  pose proof (process_pdf_run E pdf_path image_folder w) as H.
  cbv zeta in H. unfold save_dir_of, identifier_of, filename_of.
  destruct (os_makedirs_error E w _) as [e|].
  { rewrite H. by eexists [_]. }
  destruct (extract_images_run E pdf_path
              (emit (CallMakedirs
                       (Text.os_path_join image_folder
                          (prefix_before "." (Text.os_path_basename pdf_path))))
                    w))
    as (logs & Hw1 & Hlogs).
  assert (Forall is_scan_event logs) as Hlogs'.
  { eapply Forall_impl; [exact Hlogs|]. by intros []. }
  destruct (scan_events_quiet _ Hlogs') as [Hl1 Ho1].
  pose proof (scan_events_no_dirs _ Hlogs') as Hm1.
  destruct (extract_images_from_pdf E pdf_path _) as [[images|e] w1];
    cbn [snd] in Hw1; subst w1.
  - destruct H as (w' & records & -> & _ & evs & _ & _ & Htr & _ & Hscan & _).
    destruct (scan_events_quiet _ Hscan) as [Hl2 Ho2].
    pose proof (scan_events_no_dirs _ Hscan) as Hm2.
    cbn [snd].
    exists (CallMakedirs
              (Text.os_path_join image_folder
                 (prefix_before "." (Text.os_path_basename pdf_path)))
              :: CallFitzOpen pdf_path :: logs ++ evs).
    split; [rewrite Htr; cbn; by rewrite <- !app_assoc|].
    unfold listed_of, opened_of, made_of in *. cbn.
    rewrite !omap_app, Hl1, Hl2, Ho1, Ho2, Hm1, Hm2. done.
  - rewrite H. cbn [snd].
    exists (CallMakedirs
              (Text.os_path_join image_folder
                 (prefix_before "." (Text.os_path_basename pdf_path)))
              :: CallFitzOpen pdf_path :: logs).
    split; [cbn; by rewrite <- !app_assoc|].
    unfold listed_of, opened_of, made_of in *. cbn.
    rewrite Hl1, Ho1, Hm1. done.
Qed.

Lemma document_records_calls E (folder_path image_folder pdf_file : string) w :
  let pdf_path := Text.os_path_join folder_path pdf_file in
  exists evs,
    trace (snd (document_records E folder_path image_folder pdf_file w))
    = trace w ++ evs /\
    listed_of evs = [] /\
    made_of evs = [save_dir_of pdf_path image_folder] /\
    opened_of evs `sublist_of` [pdf_path] /\
    ((forall w1 dir, os_makedirs_error E w1 dir = None) ->
     opened_of evs = [pdf_path]).
Proof.
  cbv zeta. unfold document_records.
  set (pdf_path := Text.os_path_join folder_path pdf_file).
  set (w0 := emit (Logged INFO ("Processing " +:+ pdf_path)) w).
  destruct (process_pdf_calls E pdf_path image_folder w0)
    as (evs & Htr & Hl & Hm & Ho).
  assert (opened_of evs `sublist_of` [pdf_path] /\
          ((forall w1 dir, os_makedirs_error E w1 dir = None) ->
           opened_of evs = [pdf_path])) as [Hsub Hall].
  { rewrite Ho. destruct (os_makedirs_error E w0 _) eqn:Hmk.
    - split; [apply sublist_nil_l|]. intros Hok. by rewrite Hok in Hmk.
    - done. }
  destruct (process_pdf E pdf_path image_folder w0) as [[report|e] w1];
    cbn [snd] in *;
    (eexists (_ :: evs ++ [_]); split;
     [cbn; rewrite Htr; cbn; by rewrite <- !app_assoc|]);
    unfold listed_of, opened_of, made_of in *; cbn;
    rewrite !omap_app, ?Hl, ?Hm; cbn; rewrite ?app_nil_r;
    (split; [done|]); (split; [done|]); (split; [exact Hsub | exact Hall]).
Qed.

Lemma batch_sequences_calls E (folder_path image_folder : string)
  (pdf_files : list string) :
  forall w, exists evs,
    trace (snd (batch_sequences E folder_path image_folder pdf_files w))
    = trace w ++ evs /\
    listed_of evs = [] /\
    made_of evs
    = map (fun pdf_file =>
             save_dir_of (Text.os_path_join folder_path pdf_file)
                         image_folder) pdf_files /\
    opened_of evs `sublist_of` map (Text.os_path_join folder_path) pdf_files /\
    ((forall w1 dir, os_makedirs_error E w1 dir = None) ->
     opened_of evs = map (Text.os_path_join folder_path) pdf_files).
Proof.
  induction pdf_files as [|pdf_file rest IH]; intros w;
    cbn [batch_sequences snd map].
  - exists []. by rewrite app_nil_r.
  - destruct (document_records_calls E folder_path image_folder pdf_file w)
      as (evs1 & Ht1 & Hl1 & Hm1 & Ho1 & Ha1).
    destruct (IH (snd (document_records E folder_path image_folder
                         pdf_file w)))
      as (evs2 & Ht2 & Hl2 & Hm2 & Ho2 & Ha2).
    exists (evs1 ++ evs2). split; [by rewrite Ht2, Ht1, app_assoc|].
    rewrite listed_of_app, opened_of_app, made_of_app, Hl1, Hl2, Hm1, Hm2.
    split; [done|]. split; [done|]. split.
    + change (Text.os_path_join folder_path pdf_file
                :: map (Text.os_path_join folder_path) rest)
        with ([Text.os_path_join folder_path pdf_file]
                ++ map (Text.os_path_join folder_path) rest).
      by apply sublist_app.
    + intros Hok. by rewrite (Ha1 Hok), (Ha2 Hok).
Qed.

(** C10.  The documents of a batch are the entries of the one listing of
    the folder whose names end with the lowercase text [.pdf], in the order
    of the listing: a name is selected exactly when it is listed and ends
    with [.pdf]; a name ending with four other characters, such as [.PDF]
    or [.Pdf], is never selected.  The folder is listed once and nothing
    else is listed (no recursion).  Every selected entry is processed, in
    the order of the listing, and nothing else is: the image directories
    made are those of the selected entries, one each; only selected entries
    are opened, and all of them when their directories can be made.  When
    the batch processor returns, the rows of the report name exactly the
    selected entries (the names of a listing have no slash): every row
    names a selected entry, every selected entry is named by a row, and no
    row names an entry with another extension. *)
Theorem batch_selects_lowercase_pdf E
  (folder_path image_folder report_file : string) w :
  (forall entries name,
      name ∈ select_pdf_files entries <->
      name ∈ entries /\ exists stem, name = stem +:+ ".pdf")
  /\
  (forall entries, select_pdf_files entries `sublist_of` entries)
  /\
  (forall entries stem ext,
      String.length ext = 4 -> ext <> ".pdf" ->
      stem +:+ ext ∉ select_pdf_files entries)
  /\
  (forall entries,
      os_listdir E w folder_path = Ok entries ->
      exists evs,
        trace (snd (process_pdfs_in_folder E folder_path image_folder
                                           report_file w))
        = trace w ++ evs /\
        listed_of evs = [folder_path] /\
        made_of evs
        = map (fun pdf_file =>
                 save_dir_of (Text.os_path_join folder_path pdf_file)
                             image_folder)
              (select_pdf_files entries) /\
        opened_of evs
          `sublist_of` map (Text.os_path_join folder_path)
                           (select_pdf_files entries) /\
        ((forall w1 dir, os_makedirs_error E w1 dir = None) ->
         opened_of evs
         = map (Text.os_path_join folder_path) (select_pdf_files entries)))
  /\
  (forall entries w',
      os_listdir E w folder_path = Ok entries ->
      Forall (fun name => "/"%char ∉ Text.chars name) entries ->
      process_pdfs_in_folder E folder_path image_folder report_file w
      = (Ok tt, w') ->
      exists all,
        written_csv w' !! report_file = Some (csv_header :: map csv_row all) /\
        (forall r, r ∈ all -> pdf_name r ∈ select_pdf_files entries) /\
        (forall name,
            name ∈ select_pdf_files entries ->
            exists r, r ∈ all /\ pdf_name r = name) /\
        (forall r stem ext,
            r ∈ all -> String.length ext = 4 -> ext <> ".pdf" ->
            pdf_name r <> stem +:+ ext)).
Proof.
  assert (forall entries name,
             name ∈ select_pdf_files entries <->
             name ∈ entries /\ exists stem, name = stem +:+ ".pdf") as Hsel.
  { intros entries name. unfold select_pdf_files.
    rewrite list_elem_of_In, filter_In, <- list_elem_of_In.
    by rewrite endswith_spec. }
  assert (forall entries stem ext,
             String.length ext = 4 -> ext <> ".pdf" ->
             stem +:+ ext ∉ select_pdf_files entries) as Hcase.
  { intros entries stem ext Hlen Hext Hin.
    apply Hsel in Hin as [_ [stem' Heq]].
    pose proof (endswith_other stem ext ".pdf" Hlen Hext) as Hno.
    rewrite Heq, endswith_app in Hno. discriminate Hno. }
  split; [exact Hsel|]. split; [|split; [exact Hcase|split]].
  - intros entries. unfold select_pdf_files.
    induction entries as [|entry entries IH]; cbn [List.filter]; [done|].
    destruct (Text.endswith entry ".pdf");
      [by apply sublist_skip | by apply sublist_cons].
  - intros entries Hls. rewrite process_pdfs_in_folder_run, Hls. cbv zeta.
    destruct (batch_sequences_calls E folder_path image_folder
                (select_pdf_files entries) (emit (CallListdir folder_path) w))
      as (evs & Htr & Hl & Hm & Ho & Ha).
    destruct (open_write_error E _ report_file) as [e|];
      [|destruct (snd (rows_written E report_file _ _))]; cbn [snd].
    + exists (CallListdir folder_path :: evs ++ [CallOpenWrite report_file]).
      split; [cbn; rewrite Htr; cbn; by rewrite <- !app_assoc|].
      unfold listed_of, opened_of, made_of in *. cbn.
      rewrite !omap_app, Hl, Hm. cbn. by rewrite !app_nil_r.
    + exists (CallListdir folder_path :: evs ++ [CallOpenWrite report_file]).
      split; [cbn; rewrite Htr; cbn; by rewrite <- !app_assoc|].
      unfold listed_of, opened_of, made_of in *. cbn.
      rewrite !omap_app, Hl, Hm. cbn. by rewrite !app_nil_r.
    + exists (CallListdir folder_path
                :: evs ++ [CallOpenWrite report_file;
                           Logged INFO ("Report generated at "
                                        +:+ report_file)]).
      split; [cbn; rewrite Htr; cbn; by rewrite <- !app_assoc|].
      unfold listed_of, opened_of, made_of in *. cbn.
      rewrite !omap_app, Hl, Hm. cbn. by rewrite !app_nil_r.
  - intros entries w' Hls Hplain Hrun.
    apply process_pdfs_in_folder_ok in Hrun as (entries' & Hls' & Hcsv).
    rewrite Hls in Hls'. injection Hls' as <-.
    eexists. split; [exact Hcsv|].
    destruct (batch_sequences_names E folder_path image_folder
                (select_pdf_files entries)) with
      (w := emit (CallListdir folder_path) w) as [Hrows Hnamed].
    { unfold select_pdf_files. rewrite Forall_forall in Hplain.
      apply Forall_forall. intros name Hin.
      apply list_elem_of_In, filter_In in Hin as [Hin _].
      by apply Hplain, list_elem_of_In. }
    split; [exact Hrows|]. split; [exact Hnamed|].
    intros r stem ext Hr Hlen Hext Heq.
    apply (Hcase entries stem ext Hlen Hext). rewrite <- Heq. by apply Hrows.
Qed.

End BatchSelection.

Lemma batch_selects_lowercase_pdf_witness :
  select_pdf_files ["A.pdf"; "notes.txt"; "B.pdf"; "D.PDF"; "C.pdf"]
  = ["A.pdf"; "B.pdf"; "C.pdf"] /\
  (exists evs,
      trace (snd (process_pdfs_in_folder (Demo.env Demo.batch) "in" "out"
                                         "out/report.csv" Demo.world0))
      = trace Demo.world0 ++ evs /\
      listed_of evs = ["in"] /\
      made_of evs = ["out/A"; "out/B"; "out/C"] /\
      opened_of evs = ["in/A.pdf"; "in/B.pdf"; "in/C.pdf"]) /\
  (exists all,
      written_csv
        (snd (process_pdfs_in_folder (Demo.env Demo.batch) "in" "out"
                                     "out/report.csv" Demo.world0))
        !! "out/report.csv" = Some (csv_header :: map csv_row all) /\
      forall r, r ∈ all -> pdf_name r <> "D" +:+ ".PDF").
Proof.
  pose proof (batch_selects_lowercase_pdf
                (Demo.env Demo.batch) "in" "out" "out/report.csv" Demo.world0)
    as (_ & _ & _ & Hrun & Hreport).
  split; [reflexivity|]. split.
  - destruct (Hrun ["A.pdf"; "notes.txt"; "B.pdf"; "D.PDF"; "C.pdf"] eq_refl)
      as (evs & Htr & Hl & Hm & _ & Ho).
    exists evs. split; [exact Htr|]. split; [exact Hl|].
    split; [exact Hm|]. apply Ho. reflexivity.
  - destruct (Hreport ["A.pdf"; "notes.txt"; "B.pdf"; "D.PDF"; "C.pdf"]
                (snd (process_pdfs_in_folder (Demo.env Demo.batch) "in" "out"
                                             "out/report.csv" Demo.world0))
                eq_refl)
      as (all & Hcsv & _ & _ & Hother).
    + repeat constructor; compute_done.
    + vm_compute. reflexivity.
    + exists all. split; [exact Hcsv|]. intros r Hr.
      apply Hother; [exact Hr | reflexivity | discriminate].
Defined.

(** ** The interactive shell *)

Section PosixFacts.

Import Text Posix.

Lemma basename_from_tail (p : string) :
  forall current,
    basename_from p current = if has_slash p then tail_of p else current.
Proof.
  induction p as [|c rest IH]; intros current;
    cbn [basename_from has_slash tail_of]; [done|].
  destruct (Ascii.eqb c "/"); cbn [orb].
  - rewrite IH. destruct (has_slash rest) eqn:Hs; [done|].
    destruct rest as [|c' rest']; [done|]. cbn [tail_of]. by rewrite Hs.
  - rewrite IH. by destruct (has_slash rest).
Qed.

Lemma basename_tail (p : string) : os_path_basename p = tail_of p.
Proof.
  unfold os_path_basename. rewrite basename_from_tail.
  destruct (has_slash p) eqn:Hs; [done|].
  destruct p as [|c rest]; [done|]. cbn [tail_of]. by rewrite Hs.
Qed.

Lemma head_tail (p : string) : head_of p +:+ tail_of p = p.
Proof.
  induction p as [|c rest IH]; [done|]. cbn [head_of tail_of].
  destruct (has_slash (String c rest)); [|done].
  rewrite app_cons. by rewrite IH.
Qed.

Lemma rstrip_slash_split (s : string) :
  exists slashes,
    all_slashes slashes = true /\ s = rstrip_slash s +:+ slashes.
Proof.
  induction s as [|c rest (slashes & Hall & Heq)]; [by exists ""|].
  cbn [rstrip_slash].
  destruct (rstrip_slash rest) as [|c' rest'] eqn:Hstrip.
  - destruct (Ascii.eqb c "/") eqn:Hc.
    + apply Ascii.eqb_eq in Hc as ->. exists (String "/" slashes).
      split; [by cbn; rewrite Hall|]. rewrite app_empty in *. by rewrite <- Heq.
    + exists slashes. split; [done|]. rewrite app_cons. by rewrite <- Heq.
  - exists slashes. split; [done|]. rewrite app_cons. by rewrite <- Heq.
Qed.

(** X24.  [posixpath.dirname] and [posixpath.basename] cut a path at its
    last slash: the path is its directory name, some slashes, and its base
    name; the base name has no slash, and a path without slash has the
    empty directory name. *)
Theorem dirname_basename_split (p : string) :
  (exists slashes,
      all_slashes slashes = true /\
      p = dirname p +:+ slashes +:+ os_path_basename p) /\
  ("/"%char ∉ chars (os_path_basename p)) /\
  (has_slash p = false -> dirname p = "" /\ os_path_basename p = p).
Proof.
  split; [|split].
  - rewrite basename_tail. unfold dirname.
    destruct (negb (String.eqb (head_of p) "") && negb (all_slashes (head_of p))).
    + destruct (rstrip_slash_split (head_of p)) as (slashes & Hall & Heq).
      exists slashes. split; [done|].
      rewrite <- string_app_assoc, <- Heq. by rewrite head_tail.
    + exists "". split; [done|]. rewrite app_empty. by rewrite head_tail.
  - apply basename_no_slash.
  - intros Hno. rewrite basename_tail. unfold dirname.
    destruct p as [|c rest]; [done|]. cbn [head_of tail_of]. by rewrite Hno.
Qed.

End PosixFacts.

Example dirname_on_samples :
  Posix.dirname "/a/b/c.pdf" = "/a/b" /\
  Posix.dirname "c.pdf" = "" /\
  Posix.dirname "/c.pdf" = "/" /\
  Posix.dirname "a//b" = "a" /\
  Posix.dirname "//a" = "//" /\
  Posix.dirname "a/b/" = "a/b".
Proof. repeat split; reflexivity. Qed.

Section ShellFacts.

Context {Image Array Document Page : Type}.
Local Abbreviation Env := (@Env Image Array Document Page).
Local Abbreviation World := (@World Image).
Local Abbreviation Event := (@Event Image).

Implicit Types (E : Env) (w : World) (app : App) (ds : list Dialog).
Implicit Types (zx : World -> string -> string -> list string * option exn).

Lemma inputs_given_test app :
  inputs_given app ->
  String.eqb (path_entry app) "" || String.eqb (save_dir_entry app) ""
  || String.eqb (report_entry app) "" = false.
Proof.
  intros (Hp & Hs & Hr).
  apply String.eqb_neq in Hp, Hs, Hr. by rewrite Hp, Hs, Hr.
Qed.

(** The whole of [process] once the three inputs are given. *)
Lemma process_run zx E app w ds :
  inputs_given app ->
  process zx E app (w, ds)
  = match os_makedirs_error E w (image_folder_of app) with
    | Some e => (Raise e, (emit (CallMakedirs (image_folder_of app)) w, ds))
    | None =>
        let w0 := emit (CallMakedirs (image_folder_of app)) w in
        match file_or_folder app with
        | None =>
            (Ok tt,
             (w0,
              ds ++ [ShowError "Error"
                       "Please select either 'Single PDF File', 'Folder of PDFs', or 'ZIP File of PDFs'"]))
        | Some FileMode =>
            let w1 :=
              emit (Logged INFO ("Processing single PDF file: "
                                 +:+ path_entry app)) w0 in
            match process_pdf E (path_entry app)
                    (Posix.dirname (path_entry app)) w1 with
            | (Raise e, w2) => failure_outcome "file" e w2 ds
            | (Ok report, w2) =>
                match save_report_to_csv E report (report_file_of app) w2 with
                | (Raise e, w3) => failure_outcome "file" e w3 ds
                | (Ok _, w3) => (Ok tt, (w3, ds ++ [success_dialog app]))
                end
            end
        | Some FolderMode =>
            let w1 :=
              emit (Logged INFO ("Processing folder of PDFs: "
                                 +:+ path_entry app)) w0 in
            match process_pdfs_in_folder E (path_entry app)
                    (image_folder_of app) (report_file_of app) w1 with
            | (Raise e, w2) => failure_outcome "folder" e w2 ds
            | (Ok _, w2) => (Ok tt, (w2, ds ++ [success_dialog app]))
            end
        | Some ZipMode =>
            let w1 :=
              emit (Logged INFO ("Processing ZIP file: " +:+ path_entry app))
                   w0 in
            let folder :=
              Text.os_path_join (save_dir_entry app) "extracted_pdfs" in
            match os_makedirs_error E w1 folder with
            | Some e => (Raise e, (emit (CallMakedirs folder) w1, ds))
            | None =>
                match extract_pdfs_from_zip zx (path_entry app) folder
                        (emit (CallMakedirs folder) w1) with
                | (Raise e, w3) => failure_outcome "ZIP file" e w3 ds
                | (Ok _, w3) =>
                    match process_pdfs_in_folder E folder
                            (image_folder_of app) (report_file_of app) w3 with
                    | (Raise e, w4) => failure_outcome "ZIP file" e w4 ds
                    | (Ok _, w4) => (Ok tt, (w4, ds ++ [success_dialog app]))
                    end
                end
            end
        end
    end.
Proof.
  intros Hin. unfold process. rewrite (inputs_given_test app Hin).
  fold (image_folder_of app). fold (report_file_of app).
  unfold bind at 1. unfold call at 1. unfold os_makedirs at 1.
  cbn [fst snd].
  destruct (os_makedirs_error E w (image_folder_of app)) as [e|];
    [reflexivity|].
  cbv zeta. destruct (file_or_folder app) as [[| |]|].
  - unfold bind at 1, call at 1, logging at 1, try_except. cbn [fst snd].
    unfold bind at 1, call at 1. cbn [fst snd].
    destruct (process_pdf E _ _ _) as [[report|e] w2]; [|reflexivity].
    unfold bind at 1, call at 1. cbn [fst snd].
    destruct (save_report_to_csv E report _ w2) as [[?|e] w3]; reflexivity.
  - unfold bind at 1, call at 1, logging at 1, try_except. cbn [fst snd].
    unfold bind at 1, call at 1. cbn [fst snd].
    destruct (process_pdfs_in_folder E _ _ _ _) as [[?|e] w2]; reflexivity.
  - unfold bind at 1, call at 1, logging at 1. cbn [fst snd].
    unfold bind at 1, call at 1, os_makedirs at 1. cbn [fst snd].
    destruct (os_makedirs_error E _ _) as [e|]; [reflexivity|].
    unfold try_except. unfold bind at 1, call at 1. cbn [fst snd].
    destruct (extract_pdfs_from_zip zx _ _ _) as [[?|e] w3]; [|reflexivity].
    unfold bind at 1, call at 1. cbn [fst snd].
    destruct (process_pdfs_in_folder E _ _ _ _) as [[?|e] w4]; reflexivity.
  - reflexivity.
Qed.

Lemma process_pdfs_in_folder_other_csv E
  (folder_path image_folder report_file other : string) w :
  other <> report_file ->
  written_csv (snd (process_pdfs_in_folder E folder_path image_folder
                                            report_file w)) !! other
  = written_csv w !! other.
Proof.
  intros Hne. rewrite process_pdfs_in_folder_run.
  destruct (os_listdir E w folder_path) as [entries|e]; [|done].
  cbv zeta. destruct (open_write_error E _ report_file); cbn.
  - by rewrite batch_sequences_csv.
  - destruct (snd (rows_written E report_file _ _)); cbn;
      rewrite lookup_insert_ne by done; by rewrite batch_sequences_csv.
Qed.

Lemma process_pdf_csv E (pdf_path image_folder : string) w :
  written_csv (snd (process_pdf E pdf_path image_folder w)) = written_csv w.
Proof. by destruct (process_pdf_trace E pdf_path image_folder w) as (_ & _ & _ & ?). Qed.

Lemma unpack_other_csv (paths : list string) (other : string) :
  other ∉ paths ->
  forall w, written_csv (unpack paths w) !! other = written_csv w !! other.
Proof.
  induction paths as [|path rest IH]; intros Hnot w; cbn [unpack]; [done|].
  apply not_elem_of_cons in Hnot as [Hne Hrest].
  rewrite (IH Hrest). cbn. by apply lookup_delete_ne.
Qed.

Lemma unpack_trace (paths : list string) :
  forall w, trace (unpack paths w) = trace w.
Proof.
  induction paths as [|path rest IH]; intros w; cbn [unpack]; [done|].
  by rewrite IH.
Qed.

(** The whole of [extract_pdfs_from_zip]. *)
Lemma extract_pdfs_from_zip_run zx (zip_path folder : string) w :
  extract_pdfs_from_zip zx zip_path folder w
  = match snd (zx w zip_path folder) with
    | Some e => (Raise e, unpack (fst (zx w zip_path folder)) w)
    | None =>
        (Ok tt,
         emit (Logged INFO ("Extracted all PDFs from " +:+ zip_path +:+ " to "
                            +:+ folder))
              (unpack (fst (zx w zip_path folder)) w))
    end.
Proof.
  unfold extract_pdfs_from_zip, extractall, bind, logging.
  by destruct (snd (zx w zip_path folder)).
Qed.

Lemma extract_pdfs_from_zip_other_csv zx (zip_path folder other : string) w :
  other ∉ fst (zx w zip_path folder) ->
  written_csv (snd (extract_pdfs_from_zip zx zip_path folder w)) !! other
  = written_csv w !! other.
Proof.
  intros Hnot. rewrite extract_pdfs_from_zip_run.
  destruct (snd (zx w zip_path folder)); cbn [snd emit written_csv];
    by apply unpack_other_csv.
Qed.


Lemma inputs_given_dec app :
  inputs_given app \/
  (path_entry app = "" \/ save_dir_entry app = "" \/ report_entry app = "").
Proof.
  unfold inputs_given.
  destruct (decide (path_entry app = "")); [by right; left|].
  destruct (decide (save_dir_entry app = "")); [by right; right; left|].
  destruct (decide (report_entry app = "")); [by right; right; right|].
  by left.
Qed.

Lemma process_without_inputs zx E app w ds :
  path_entry app = "" \/ save_dir_entry app = "" \/ report_entry app = "" ->
  process zx E app (w, ds)
  = (Ok tt,
     (w,
      ds ++ [ShowError "Error"
               "Please provide all the required paths and report file name."])).
Proof.
  intros Hmissing. unfold process.
  assert (String.eqb (path_entry app) "" || String.eqb (save_dir_entry app) ""
          || String.eqb (report_entry app) "" = true) as ->; [|reflexivity].
  destruct Hmissing as [-> | [-> | ->]]; cbn;
    rewrite ?orb_true_r; reflexivity.
Qed.

(** X19.  When the path, the save directory or the report name is empty,
    [process] shows one error dialog asking for them and does nothing else:
    no directory is made, nothing is read and nothing is written. *)
Theorem process_requires_all_inputs zx E app w ds :
  path_entry app = "" \/ save_dir_entry app = "" \/ report_entry app = "" ->
  process zx E app (w, ds)
  = (Ok tt,
     (w,
      ds ++ [ShowError "Error"
               "Please provide all the required paths and report file name."])).
Proof.
  apply process_without_inputs.
Qed.

(** X20.  With the three inputs given, [process] raises only when a
    directory cannot be made: when the image folder cannot be made it
    raises at once, showing no dialog.  When directories can be made it
    always returns and shows exactly one dialog, whatever happens while the
    document, the folder or the archive is processed; without a chosen mode
    that dialog is an error, and the image folder has been made all the
    same. *)
Theorem process_one_dialog_or_raise zx E app w ds :
  inputs_given app ->
  (forall e,
      os_makedirs_error E w (image_folder_of app) = Some e ->
      process zx E app (w, ds)
      = (Raise e, (emit (CallMakedirs (image_folder_of app)) w, ds)))
  /\
  ((forall w1 dir, os_makedirs_error E w1 dir = None) ->
   exists w' d,
     process zx E app (w, ds) = (Ok tt, (w', ds ++ [d])) /\
     (file_or_folder app = None ->
      is_error_dialog d /\
      w' = emit (CallMakedirs (image_folder_of app)) w)).
Proof.
  intros Hin. rewrite (process_run zx E app w ds Hin). split.
  - by intros e ->.
  - intros Hmk. rewrite Hmk. cbv zeta.
    destruct (file_or_folder app) as [[| |]|].
    + destruct (process_pdf E _ _ _) as [[report|e] w2];
        [|by eexists _, _].
      destruct (save_report_to_csv E report _ w2) as [[?|e] w3];
        by eexists _, _.
    + destruct (process_pdfs_in_folder E _ _ _ _) as [[?|e] w2];
        by eexists _, _.
    + rewrite Hmk.
      destruct (extract_pdfs_from_zip zx _ _ _) as [[?|e] w3];
        [|by eexists _, _].
      destruct (process_pdfs_in_folder E _ _ _ _) as [[?|e] w4];
        by eexists _, _.
    + eexists _, _. split; [reflexivity|]. by intros _.
Qed.


Lemma write_csv_other_csv E (path other : string) (records : list QRRecord)
  w :
  other <> path ->
  written_csv (snd (write_csv E path records w)) !! other
  = written_csv w !! other.
Proof.
  intros Hne. rewrite write_csv_run.
  destruct (open_write_error E w path); cbn; [done|].
  by rewrite lookup_insert_ne.
Qed.

(** X22.  In every mode and whatever happens, the tables [process] can
    write, replace or remove are the report file and, in archive mode, the
    files the unpacking of the archive writes: the table at any other path
    is what it was.  With the inputs given the report file is an entry
    directly inside the save directory: the save directory joined with the
    sanitized report name followed by [.csv], a name without slash, so no
    character of the report name can place the report elsewhere. *)
Theorem process_writes_only_the_report zx E app w ds :
  (forall other,
      other <> report_file_of app ->
      (file_or_folder app = Some ZipMode ->
       forall w1,
         other ∉ fst (zx w1 (path_entry app)
                         (Text.os_path_join (save_dir_entry app)
                                            "extracted_pdfs"))) ->
      written_csv (fst (snd (process zx E app (w, ds)))) !! other
      = written_csv w !! other)
  /\
  (inputs_given app ->
   directly_in (save_dir_entry app) (report_file_of app)).
Proof.
  split.
  - intros other Hne Hzip.
    destruct (inputs_given_dec app) as [Hin|Hmissing].
    2:{ by rewrite (process_without_inputs zx E app w ds Hmissing). }
    rewrite (process_run zx E app w ds Hin).
    destruct (os_makedirs_error E w (image_folder_of app)) as [e|]; [done|].
    cbv zeta. destruct (file_or_folder app) as [[| |]|].
    + match goal with
      | |- context [process_pdf E ?p ?f ?w1] =>
          pose proof (process_pdf_csv E p f w1) as Hcsv;
          destruct (process_pdf E p f w1) as [[report|e] w2]
      end; cbn [snd] in Hcsv; [|cbn; by rewrite Hcsv].
      pose proof (write_csv_other_csv E (report_file_of app) other
                    (qr_code_details report) w2 Hne) as Hw.
      unfold save_report_to_csv.
      destruct (write_csv E _ _ w2) as [[?|e] w3]; cbn in *;
        by rewrite Hw, Hcsv.
    + match goal with
      | |- context [process_pdfs_in_folder E ?p ?f ?r ?w1] =>
          pose proof (process_pdfs_in_folder_other_csv E p f r other w1 Hne)
            as Hcsv;
          destruct (process_pdfs_in_folder E p f r w1) as [[?|e] w2]
      end; cbn in *; by rewrite Hcsv.
    + destruct (os_makedirs_error E _ _) as [e|]; [done|].
      match goal with
      | |- context [extract_pdfs_from_zip zx ?p ?f ?w1] =>
          pose proof (extract_pdfs_from_zip_other_csv zx p f other w1
                        (Hzip eq_refl w1)) as Hz;
          destruct (extract_pdfs_from_zip zx p f w1) as [[?|e] w3]
      end; cbn [snd] in Hz; [|cbn; by rewrite Hz].
      match goal with
      | |- context [process_pdfs_in_folder E ?p ?f ?r ?w1] =>
          pose proof (process_pdfs_in_folder_other_csv E p f r other w1 Hne)
            as Hcsv;
          destruct (process_pdfs_in_folder E p f r w1) as [[?|e] w4]
      end; cbn in *; by rewrite Hcsv, Hz.
    + done.
  - intros (_ & _ & Hname). unfold report_file_of.
    eexists. split; [|split; [|reflexivity]].
    + apply long_name_proper. rewrite string_length_app. cbn. lia.
    + apply no_slash_app; [apply sanitize_no_slash | compute_done].
Qed.

End ShellFacts.

Section ArchiveFacts.

Context {Image Array Document Page : Type}.
Local Abbreviation Env := (@Env Image Array Document Page).
Local Abbreviation World := (@World Image).
Local Abbreviation Event := (@Event Image).

Implicit Types (E : Env) (w : World) (app : App) (ds : list Dialog).
Implicit Types (zx : World -> string -> string -> list string * option exn).

Lemma process_pdfs_in_folder_lists_first E
  (folder_path image_folder report_file : string) w :
  exists evs,
    trace (snd (process_pdfs_in_folder E folder_path image_folder report_file
                                       w))
    = trace w ++ CallListdir folder_path :: evs.
Proof.
  rewrite process_pdfs_in_folder_run.
  destruct (os_listdir E w folder_path) as [entries|e];
    [|by exists []].
  cbv zeta.
  destruct (batch_sequences_trace E folder_path image_folder
              (select_pdf_files entries) (emit (CallListdir folder_path) w))
    as (evs & Htr & _).
  destruct (open_write_error E _ report_file);
    [|destruct (snd (rows_written E report_file _ _))];
    cbn; rewrite Htr; cbn; rewrite <- !app_assoc; by eexists.
Qed.

(** X23.  In archive mode the archive is unpacked into the folder
    [extracted_pdfs] of the save directory.  When unpacking raises,
    [process] logs the error and shows it in an error dialog; the files
    unpacked before the failure stay as they are, and no folder is listed,
    no document opened and no report written.  When unpacking returns, the
    next thing done after the line logged for it is the listing of that
    folder. *)
Theorem archive_outcome zx E app w ds :
  inputs_given app ->
  file_or_folder app = Some ZipMode ->
  os_makedirs_error E w (image_folder_of app) = None ->
  let folder := Text.os_path_join (save_dir_entry app) "extracted_pdfs" in
  let w1 :=
    emit (Logged INFO ("Processing ZIP file: " +:+ path_entry app))
         (emit (CallMakedirs (image_folder_of app)) w) in
  os_makedirs_error E w1 folder = None ->
  let w2 := emit (CallMakedirs folder) w1 in
  (forall members e,
      zx w2 (path_entry app) folder = (members, Some e) ->
      process zx E app (w, ds)
      = (Ok tt,
         (emit (Logged ERROR ("Error processing ZIP file: " +:+ exn_msg e))
               (unpack members w2),
          ds ++ [ShowError "Error"
                   ("Failed to process the ZIP file." +:+ newline
                    +:+ "Error: " +:+ exn_msg e)])))
  /\
  (forall members,
      zx w2 (path_entry app) folder = (members, None) ->
      exists w' d evs,
        process zx E app (w, ds) = (Ok tt, (w', ds ++ [d])) /\
        trace w'
        = trace w2
          ++ Logged INFO ("Extracted all PDFs from " +:+ path_entry app
                          +:+ " to " +:+ folder)
          :: CallListdir folder :: evs).
Proof.
  intros Hin Hmode Hmk. cbv zeta. intros Hmk2.
  rewrite (process_run zx E app w ds Hin), Hmk, Hmode. cbv zeta.
  rewrite Hmk2, extract_pdfs_from_zip_run.
  split.
  - by intros members e ->.
  - intros members ->. cbn [fst snd].
    match goal with
    | |- context [process_pdfs_in_folder E ?p ?f ?r ?w3] =>
        destruct (process_pdfs_in_folder_lists_first E p f r w3)
          as (evs & Htr);
        destruct (process_pdfs_in_folder E p f r w3) as [[?|e] w4]
    end; cbn [snd] in Htr.
    + eexists _, _, evs. split; [reflexivity|]. rewrite Htr. cbn.
      rewrite unpack_trace. cbn. by rewrite <- app_assoc.
    + eexists _, _, (evs ++ [_]). split; [reflexivity|]. cbn. rewrite Htr.
      cbn. rewrite unpack_trace. cbn. by rewrite <- !app_assoc.
Qed.

End ArchiveFacts.

(** ** The further properties on concrete inputs *)




Lemma report_names_selected_entries_witness :
  exists all,
    written_csv
      (snd (process_pdfs_in_folder (Demo.env Demo.batch) "in" "out"
                                   "out/report.csv" Demo.world0))
      !! "out/report.csv" = Some (csv_header :: map csv_row all) /\
    (forall r, r ∈ all -> pdf_name r ∈ ["A.pdf"; "B.pdf"; "C.pdf"]) /\
    (forall name,
        name ∈ ["A.pdf"; "B.pdf"; "C.pdf"] ->
        exists r, r ∈ all /\ pdf_name r = name).
Proof.
  apply (report_names_selected_entries
           (Demo.env Demo.batch) "in" "out" "out/report.csv" Demo.world0
           (snd (process_pdfs_in_folder (Demo.env Demo.batch) "in" "out"
                                        "out/report.csv" Demo.world0))
           ["A.pdf"; "notes.txt"; "B.pdf"; "D.PDF"; "C.pdf"]).
  - reflexivity.
  - repeat constructor; compute_done.
  - vm_compute. reflexivity.
Defined.

Lemma process_requires_all_inputs_witness :
  process SampleApp.good_zip (Demo.env Demo.batch) SampleApp.no_report_name
          (Demo.world0, [])
  = (Ok tt,
     (Demo.world0,
      [ShowError "Error"
         "Please provide all the required paths and report file name."])).
Proof.
  apply (process_requires_all_inputs
           SampleApp.good_zip (Demo.env Demo.batch) SampleApp.no_report_name
           Demo.world0 []).
  right. right. reflexivity.
Defined.

Lemma process_one_dialog_or_raise_witness :
  exists w' d,
    process SampleApp.good_zip (Demo.env Demo.batch) SampleApp.nothing_chosen
            (Demo.world0, [])
    = (Ok tt, (w', [d])) /\
    is_error_dialog d /\
    w' = emit (CallMakedirs "out/r") Demo.world0.
Proof.
  destruct (proj2 (process_one_dialog_or_raise
                     SampleApp.good_zip (Demo.env Demo.batch)
                     SampleApp.nothing_chosen Demo.world0 []
                     ltac:(by repeat split))
                  ltac:(reflexivity))
    as (w' & d & Hrun & Hnone).
  exists w', d. split; [exact Hrun|]. apply Hnone. reflexivity.
Defined.


Lemma process_writes_only_the_report_witness :
  report_file_of SampleApp.single_file = "out/my_report.csv" /\
  directly_in "out" (report_file_of SampleApp.single_file).
Proof.
  split; [reflexivity|].
  apply (proj2 (process_writes_only_the_report
                  SampleApp.good_zip (Demo.env Demo.threshold_hit)
                  SampleApp.single_file Demo.world0 [])).
  by repeat split.
Defined.

Lemma archive_outcome_witness :
  process SampleApp.bad_zip (Demo.env Demo.batch) SampleApp.archive
          (Demo.world0, [])
  = (Ok tt,
     (emit (Logged ERROR
              "Error processing ZIP file: Bad CRC-32 for file 'b.pdf'")
           (unpack ["out/extracted_pdfs/a.pdf"]
              (emits [CallMakedirs "out/r";
                      Logged INFO "Processing ZIP file: in/all.zip";
                      CallMakedirs "out/extracted_pdfs"]
                     Demo.world0)),
      [ShowError "Error"
         ("Failed to process the ZIP file." +:+ newline
          +:+ "Error: Bad CRC-32 for file 'b.pdf'")])).
Proof.
  pose proof (archive_outcome
                SampleApp.bad_zip (Demo.env Demo.batch) SampleApp.archive
                Demo.world0 [] ltac:(by repeat split) eq_refl eq_refl) as H.
  cbv zeta in H. destruct (H eq_refl) as [Hfail _].
  rewrite (Hfail _ _ eq_refl). reflexivity.
Defined.

Lemma dirname_basename_split_witness :
  exists slashes,
    Posix.all_slashes slashes = true /\
    "a//b.pdf" = Posix.dirname "a//b.pdf" +:+ slashes
                 +:+ Text.os_path_basename "a//b.pdf".
Proof. apply (proj1 (dirname_basename_split "a//b.pdf")). Defined.
